(** * Dolly Hotel admin API: category, room and gallery lifecycle

    A shallow embedding of the route handlers under [app/api/admin]
    (rooms, categories/[id], gallery, gallery/[id]), of [app/api/upload],
    of the browser fetch wrapper [lib/api-client.ts] and of what the
    admin dashboard loads and sends, with the properties the design
    document states about them and further properties of the code.

    JavaScript strings are modelled as [string]: sequences of code
    units below 256 (Latin-1).  Regular-expression work is done on
    [list ascii].  A handler is a computation in a small state and
    exception monad over the relational store and a trace of the calls
    it makes; what lies outside the sources (the session guard, the
    validation schemas, the storage service, the schema's constraints)
    is either a field of the environment or modelled from the design
    document, and says so. *)

From Stdlib Require Import List String Ascii Bool Arith ZArith Lia.
From Stdlib Require Import Permutation Sorted DecimalString.
From Stdlib Require QArith Qround.
Import ListNotations.

Set Implicit Arguments.

(* ================================================================== *)
(** * Characters and strings *)
(* ================================================================== *)

Module Str.

Definition chars (s : string) : list ascii := list_ascii_of_string s.
Definition of_chars (l : list ascii) : string := string_of_list_ascii l.

Definition code (c : ascii) : nat := nat_of_ascii c.

(** [c] lies in the inclusive range [lo-hi] of a character class. *)
Definition in_range (lo hi c : ascii) : bool :=
  (code lo <=? code c) && (code c <=? code hi).

Definition is_upper (c : ascii) : bool := in_range "A" "Z" c.
Definition is_lower (c : ascii) : bool := in_range "a" "z" c.
Definition is_digit (c : ascii) : bool := in_range "0" "9" c.

(** The Latin-1 capitals U+00C0 to U+00DE, the multiplication sign
    U+00D7 apart. *)
Definition is_latin1_capital (c : ascii) : bool :=
  (192 <=? code c) && (code c <=? 222) && negb (code c =? 215).

(** [String.prototype.toLowerCase] on one code unit below 256: A-Z and
    the Latin-1 capitals move 32 places up, every other unit is kept. *)
Definition lower_char (c : ascii) : ascii :=
  if is_upper c || is_latin1_capital c then ascii_of_nat (code c + 32) else c.

Definition toLowerCase (l : list ascii) : list ascii := map lower_char l.

(** The white space [String.prototype.trim] strips, among code units
    below 256: TAB, LF, VT, FF, CR, SPACE and NBSP. *)
Definition is_space (c : ascii) : bool :=
  let n := code c in
  (n =? 9) || (n =? 10) || (n =? 11) || (n =? 12) || (n =? 13)
  || (n =? 32) || (n =? 160).

(** [s.trim() === ''] *)
Definition is_blank (s : string) : bool := forallb is_space (chars s).

(** A JavaScript string used as a condition: the empty string is falsy. *)
Definition truthy (s : string) : bool :=
  match s with EmptyString => false | String _ _ => true end.

Fixpoint starts_with (p l : list ascii) : bool :=
  match p, l with
  | [], _ => true
  | _ :: _, [] => false
  | a :: p', b :: l' => Ascii.eqb a b && starts_with p' l'
  end.

(** [hay.includes(needle)] *)
Fixpoint includes_chars (needle hay : list ascii) : bool :=
  starts_with needle hay ||
  match hay with
  | [] => false
  | _ :: t => includes_chars needle t
  end.

Definition includes (needle hay : string) : bool :=
  includes_chars (chars needle) (chars hay).

(** [s.startsWith(p)] *)
Definition startsWith (p s : string) : bool := starts_with (chars p) (chars s).

(** [s.endsWith(p)] *)
Definition endsWith (p s : string) : bool :=
  starts_with (rev (chars p)) (rev (chars s)).

(** Decimal rendering of a number inside a template literal. *)
Definition of_nat (n : nat) : string := NilEmpty.string_of_uint (Nat.to_uint n).

End Str.

(* ================================================================== *)
(** * Regular expressions

    The fragment of JavaScript regular expressions the handlers use:
    literals, character classes, [.], [^] and [$], sequencing,
    alternation, greedy [+] and lazy [*?] over a single character class,
    a greedy optional group and one capturing group.  Matching is the
    usual backtracking search, written with a success continuation. *)
(* ================================================================== *)

Module Regex.

(** One item of a bracket class: the inclusive range [lo-hi]
    (a single character is the range [c-c]). *)
Definition crange : Type := (ascii * ascii)%type.

Inductive charset : Type :=
| AnyChar                      (* .      : anything but a line terminator *)
| OneOf (rs : list crange)     (* [...]  *)
| NoneOf (rs : list crange).   (* [^...] *)

Inductive re : Type :=
| Eps                          (* the empty pattern *)
| Lit (c : ascii)
| Chars (cs : charset)
| Bol                          (* ^ *)
| Eol                          (* $ *)
| Seq (r1 r2 : re)
| Alt (r1 r2 : re)
| Plus (cs : charset)          (* cs+  , greedy *)
| LazyStar (cs : charset)      (* cs*? , lazy *)
| Opt (r : re)                 (* (?:r)? , greedy *)
| Group (r : re).              (* (r) , capture group 1 *)

Definition single (c : ascii) : crange := (c, c).

Definition in_ranges (rs : list crange) (c : ascii) : bool :=
  existsb (fun r => Str.in_range (fst r) (snd r) c) rs.

Definition is_line_terminator (c : ascii) : bool :=
  (Str.code c =? 10) || (Str.code c =? 13).

Definition accepts (cs : charset) (c : ascii) : bool :=
  match cs with
  | AnyChar => negb (is_line_terminator c)
  | OneOf rs => in_ranges rs c
  | NoneOf rs => negb (in_ranges rs c)
  end.

(** A match in progress: the index reached, the input left, and what
    capture group 1 holds. *)
Record mstate : Type := MState {
  pos : nat;
  rest : list ascii;
  cap : option (list ascii)
}.

Definition cont : Type := mstate -> option mstate.

(** Greedy [cs+]: take one character, prefer taking more. *)
Fixpoint plus_greedy (cs : charset) (i : nat) (s : list ascii)
  (c1 : option (list ascii)) (k : cont) : option mstate :=
  match s with
  | [] => None
  | c :: t =>
      if accepts cs c then
        match plus_greedy cs (S i) t c1 k with
        | Some m => Some m
        | None => k (MState (S i) t c1)
        end
      else None
  end.

(** Lazy [cs*?]: prefer stopping, take one more character on failure. *)
Fixpoint star_lazy (cs : charset) (i : nat) (s : list ascii)
  (c1 : option (list ascii)) (k : cont) : option mstate :=
  match k (MState i s c1) with
  | Some m => Some m
  | None =>
      match s with
      | [] => None
      | c :: t => if accepts cs c then star_lazy cs (S i) t c1 k else None
      end
  end.

Fixpoint run (r : re) (st : mstate) (k : cont) : option mstate :=
  match r with
  | Eps => k st
  | Lit c =>
      match rest st with
      | c' :: t => if Ascii.eqb c c' then k (MState (S (pos st)) t (cap st)) else None
      | [] => None
      end
  | Chars cs =>
      match rest st with
      | c' :: t => if accepts cs c' then k (MState (S (pos st)) t (cap st)) else None
      | [] => None
      end
  | Bol => if pos st =? 0 then k st else None
  | Eol => match rest st with [] => k st | _ :: _ => None end
  | Seq r1 r2 => run r1 st (fun st' => run r2 st' k)
  | Alt r1 r2 =>
      match run r1 st k with
      | Some m => Some m
      | None => run r2 st k
      end
  | Plus cs => plus_greedy cs (pos st) (rest st) (cap st) k
  | LazyStar cs => star_lazy cs (pos st) (rest st) (cap st) k
  | Opt r1 =>
      match run r1 st k with
      | Some m => Some m
      | None => k st
      end
  | Group r1 =>
      run r1 st (fun st' =>
        k (MState (pos st') (rest st')
                  (Some (firstn (pos st' - pos st) (rest st)))))
  end.

(** A match that starts exactly at index [i], where [s] is the input
    from [i] on. *)
Definition match_at (r : re) (i : nat) (s : list ascii) : option mstate :=
  run r (MState i s None) Some.

(** The leftmost match at or after index [i]. *)
Fixpoint search_from (r : re) (i : nat) (s : list ascii) : option mstate :=
  match match_at r i s with
  | Some m => Some m
  | None =>
      match s with
      | [] => None
      | _ :: t => search_from r (S i) t
      end
  end.

(** [str.match(r)] for a regular expression without the [g] flag; the
    result carries capture group 1 ([match[1]]). *)
Definition exec (r : re) (str : string) : option mstate :=
  search_from r 0 (Str.chars str).

(** [str.replace(r, repl)] for a regular expression with the [g] flag.
    After an empty match the scan moves one character on. *)
Fixpoint replace_from (fuel : nat) (r : re) (repl : list ascii)
  (i : nat) (s : list ascii) : list ascii :=
  match fuel with
  | 0 => s
  | S fuel' =>
      match match_at r i s with
      | Some m =>
          if pos m =? i then
            match s with
            | [] => repl
            | c :: t => repl ++ c :: replace_from fuel' r repl (S i) t
            end
          else repl ++ replace_from fuel' r repl (pos m) (rest m)
      | None =>
          match s with
          | [] => []
          | c :: t => c :: replace_from fuel' r repl (S i) t
          end
      end
  end.

Definition replace_all (r : re) (repl : list ascii) (s : list ascii) : list ascii :=
  replace_from (S (List.length s)) r repl 0 s.

(** A literal run of characters. *)
Fixpoint lits (l : list ascii) : re :=
  match l with
  | [] => Eps
  | c :: t => Seq (Lit c) (lits t)
  end.

Definition txt (s : string) : re := lits (Str.chars s).

(** The class items of a bracket expression that lists single characters. *)
Definition singles (s : string) : list crange := map single (Str.chars s).

Declare Scope re_scope.
Delimit Scope re_scope with re.
Bind Scope re_scope with re.
Infix "+++" := Seq (at level 60, right associativity) : re_scope.

End Regex.

(* ================================================================== *)
(** * Storage keys of video URLs *)
(* ================================================================== *)

Module VideoKey.
Import Regex.
Local Open Scope string_scope.
Local Open Scope re_scope.

(** [([^/?#]+)] *)
Definition key_group : re := Group (Plus (NoneOf (singles "/?#"))).

(** [[^/]+] *)
Definition segment : re := Plus (NoneOf (singles "/")).

(** [/\/f\/([^/?#]+)/] -- Standard: /f/FILE_KEY *)
Definition pat_f : re := txt "/f/" +++ key_group.

(** [/\/a\/[^/]+\/([^/?#]+)/] -- App URL: /a/APP_ID/FILE_KEY *)
Definition pat_app : re := txt "/a/" +++ segment +++ Lit "/" +++ key_group.

(** [/uploadthing.*?\/([^/?#]+)$/] -- uploadthing URL with key at end *)
Definition pat_uploadthing : re :=
  txt "uploadthing" +++ LazyStar AnyChar +++ Lit "/" +++ key_group +++ Eol.

(** [/utfs\.io\/[af]\/(?:[^/]+\/)?([^/?#]+)/] -- Full utfs.io URL *)
Definition pat_utfs_af : re :=
  txt "utfs.io/" +++ Chars (OneOf (singles "af")) +++ Lit "/"
  +++ Opt (segment +++ Lit "/") +++ key_group.

(** [/utfs\.io\/f\/([^/?#]+)/] -- Full utfs.io URL *)
Definition pat_utfs_f : re := txt "utfs.io/f/" +++ key_group.

(** [/\/f\/([^/?]+)/] *)
Definition pat_f_loose : re := txt "/f/" +++ Group (Plus (NoneOf (singles "/?"))).

(** The [patterns] array of the rooms PUT handler. *)
Definition patterns_PUT : list re := [pat_f; pat_app; pat_uploadthing; pat_utfs_af].

(** The [patterns] array of the rooms DELETE handler. *)
Definition patterns_DELETE : list re := [pat_f; pat_uploadthing; pat_utfs_f].

(** [match && match[1]]: group 1 took part in the match and is not
    the empty string. *)
Definition match1 (pattern : re) (url : string) : option string :=
  match exec pattern url with
  | Some m =>
      match cap m with
      | Some (c :: t) => Some (Str.of_chars (c :: t))
      | _ => None
      end
  | None => None
  end.

(** [let videoKey = null; for (const pattern of patterns) { ...; break }] *)
Fixpoint videoKey (patterns : list re) (url : string) : option string :=
  match patterns with
  | [] => None
  | pattern :: more =>
      match match1 pattern url with
      | Some key => Some key
      | None => videoKey more url
      end
  end.

End VideoKey.

(* ================================================================== *)
(** * Slugs *)
(* ================================================================== *)

Module Slug.
Import Regex.
Local Open Scope re_scope.

(** [/[^a-z0-9]+/g] *)
Definition non_alnum_run : re := Plus (NoneOf [("a", "z"); ("0", "9")]%char).

(** [/(^-|-$)/g] *)
Definition edge_dash : re := Group (Alt (Bol +++ Lit "-") (Lit "-" +++ Eol)).

(** [title.toLowerCase().replace(/[^a-z0-9]+/g, '-').replace(/(^-|-$)/g, '')] *)
Definition slug (title : string) : string :=
  Str.of_chars
    (replace_all edge_dash []
       (replace_all non_alnum_run ["-"%char]
          (Str.toLowerCase (Str.chars title)))).

End Slug.

(* ================================================================== *)
(** * The relational store *)
(* ================================================================== *)

Module Db.

Record HotelCategory : Type := mkHotelCategory {
  hc_id : Z;
  hc_slug : string;
  hc_title : string;
  hc_description : string;
  hc_specs : list (string * bool);
  hc_essentialAmenities : list string;
  hc_roomCount : Z;
  hc_videoUrl : option string
}.

Record GalleryImage : Type := mkGalleryImage {
  gi_id : Z;
  gi_category : string;
  gi_url : string;
  gi_publicId : option string;
  gi_caption : option string;
  gi_categoryId : option Z
}.

Record Price : Type := mkPrice {
  pr_id : Z;
  pr_categoryId : Z;
  pr_hourlyHours : Z;
  pr_rateCents : Z;
  pr_label : option string
}.

(** The three tables, rows in creation order, and the next value of
    each table's id sequence. *)
Record t : Type := mk {
  categories : list HotelCategory;
  images : list GalleryImage;
  prices : list Price;
  next_category_id : Z;
  next_image_id : Z;
  next_price_id : Z
}.

Definition owned_by (id : Z) (img : GalleryImage) : bool :=
  match gi_categoryId img with
  | Some c => Z.eqb c id
  | None => false
  end.

Definition priced_for (id : Z) (p : Price) : bool := Z.eqb (pr_categoryId p) id.

Definition find_category (id : Z) (d : t) : option HotelCategory :=
  find (fun c => Z.eqb (hc_id c) id) (categories d).

Definition find_image (id : Z) (d : t) : option GalleryImage :=
  find (fun i => Z.eqb (gi_id i) id) (images d).

(** The child rows a query returns under [include: { images: true }]. *)
Definition images_of (id : Z) (d : t) : list GalleryImage :=
  filter (owned_by id) (images d).

Definition prices_of (id : Z) (d : t) : list Price :=
  filter (priced_for id) (prices d).

(** Modelled from the spec: the schema file is not part of the sources;
    the design document gives a category a unique slug.  This is the
    test the unique constraint makes: another category already holds
    the slug. *)
Definition slug_taken (slug : string) (except : option Z) (d : t) : bool :=
  existsb (fun c =>
             String.eqb (hc_slug c) slug &&
             match except with
             | Some id => negb (Z.eqb (hc_id c) id)
             | None => true
             end)
          (categories d).

(** Modelled from the spec: the schema file is not part of the sources;
    the design document states that deleting a category cascades to its
    Image and Price rows.  This is the store once category [id] is
    deleted. *)
Definition remove_category (id : Z) (d : t) : t :=
  mk (filter (fun c => negb (Z.eqb (hc_id c) id)) (categories d))
     (filter (fun i => negb (owned_by id i)) (images d))
     (filter (fun p => negb (priced_for id p)) (prices d))
     (next_category_id d) (next_image_id d) (next_price_id d).

(** [orderBy: { hourlyHours: 'asc' }] *)
Fixpoint insert_by_hours (p : Price) (l : list Price) : list Price :=
  match l with
  | [] => [p]
  | q :: t =>
      if Z.leb (pr_hourlyHours p) (pr_hourlyHours q) then p :: q :: t
      else q :: insert_by_hours p t
  end.

Definition order_by_hours (l : list Price) : list Price :=
  fold_right insert_by_hours [] l.

End Db.

(* ================================================================== *)
(** * Effects of a request handler *)
(* ================================================================== *)

Module Eff.

(** A thrown JavaScript [Error]. *)
Record Error : Type := mkError {
  err_name : string;
  err_message : string
}.

(** What a handler does to the outside world, in the order it does it. *)
Inductive Event : Type :=
| DbCategoryCreate (id : Z)
| DbCategoryUpdate (id : Z)
| DbCategoryDelete (id : Z)
| DbImageCreate (id : Z)
| DbImageUpdate (id : Z)
| DbImageDelete (id : Z)
| DbImageDeleteMany (categoryId : Z)
| DbPriceDeleteMany (categoryId : Z)
| DbPriceCreateMany (categoryId : Z) (count : nat)
| StorageDeleteFiles (keys : list string)
| StorageUploadFiles (fileName : string).

Record World : Type := mkWorld {
  db : Db.t;
  log : list Event
}.

Inductive Outcome (A : Type) : Type :=
| Ok (a : A)
| Threw (e : Error).

Arguments Ok {A} a.
Arguments Threw {A} e.

Definition M (A : Type) : Type := World -> Outcome A * World.

Definition ret {A} (a : A) : M A := fun w => (Ok a, w).

Definition bind {A B} (m : M A) (k : A -> M B) : M B :=
  fun w =>
    match m w with
    | (Ok a, w') => k a w'
    | (Threw e, w') => (Threw e, w')
    end.

Definition throw {A} (e : Error) : M A := fun w => (Threw e, w).

(** [try { m } catch (error) { handler(error) }] *)
Definition try_catch {A} (m : M A) (handler : Error -> M A) : M A :=
  fun w =>
    match m w with
    | (Ok a, w') => (Ok a, w')
    | (Threw e, w') => handler e w'
    end.

Definition read_db : M Db.t := fun w => (Ok (db w), w).

Definition write_db (d : Db.t) : M unit := fun w => (Ok tt, mkWorld d (log w)).

Definition emit (e : Event) : M unit :=
  fun w => (Ok tt, mkWorld (db w) (log w ++ [e])).

(** [prisma.$transaction(async tx => ...)]: when the callback throws,
    every write it made is rolled back and the error is rethrown. *)
Definition transaction {A} (m : M A) : M A :=
  fun w =>
    match m w with
    | (Ok a, w') => (Ok a, w')
    | (Threw e, w') => (Threw e, mkWorld (db w) (log w'))
    end.

Declare Scope eff_scope.
Delimit Scope eff_scope with eff.
Bind Scope eff_scope with M.
Notation "x <- m ;; k" := (bind m (fun x => k))
  (at level 61, m at next level, right associativity) : eff_scope.
Notation "m ;;; k" := (bind m (fun _ => k))
  (at level 61, right associativity) : eff_scope.

End Eff.

(* ================================================================== *)
(** * The queries the handlers issue *)
(* ================================================================== *)

Module Prisma.
Import Db Eff.
Local Open Scope eff_scope.
Local Open Scope string_scope.

(** A route or query parameter after [parseInt]. *)
Inductive IntParam : Type :=
| NaN
| Int (z : Z).

Definition validation_error : Error :=
  mkError "PrismaClientValidationError" "Invalid value provided. Expected Int.".
Definition not_found_error : Error :=
  mkError "PrismaClientKnownRequestError" "P2025: Record to update or delete does not exist.".
Definition unique_error : Error :=
  mkError "PrismaClientKnownRequestError" "P2002: Unique constraint failed on the fields: (slug)".
Definition foreign_key_error : Error :=
  mkError "PrismaClientKnownRequestError" "P2003: Foreign key constraint failed on the field: categoryId".

(** [where: { id: parseInt(id) }] *)
Definition where_id (p : IntParam) : M Z :=
  match p with
  | NaN => throw validation_error
  | Int z => ret z
  end.

(** The columns of a category a handler writes. *)
Record CategoryData : Type := mkCategoryData {
  cd_slug : string;
  cd_title : string;
  cd_description : string;
  cd_specs : list (string * bool);
  cd_essentialAmenities : list string;
  cd_roomCount : Z;
  cd_videoUrl : option string
}.

(** One entry of a nested [images: { create: [...] }] or the [data] of
    [galleryImage.create]. *)
Record ImageData : Type := mkImageData {
  id_category : string;
  id_url : string;
  id_publicId : option string;
  id_caption : option string
}.

(** The [data] of [galleryImage.update]; an absent field keeps the column. *)
Record ImagePatch : Type := mkImagePatch {
  ip_category : string;
  ip_caption : option string;
  ip_categoryId : option Z;
  ip_url : option string;
  ip_publicId : option string
}.

(** The [data] of [hotelCategory.update] in the categories handler; an
    absent field keeps the column. *)
Record CategoryPatch : Type := mkCategoryPatch {
  cp_slug : option string;
  cp_title : option string;
  cp_description : option string;
  cp_specs : option (list (string * bool));
  cp_essentialAmenities : option (list string);
  cp_roomCount : option Z;
  cp_videoUrl : option (option string)
}.

(** One entry of the [data] of [price.createMany]. *)
Record PriceData : Type := mkPriceData {
  pd_hourlyHours : Z;
  pd_rateCents : Z;
  pd_label : option string
}.

Definition row_of (id : Z) (data : CategoryData) : HotelCategory :=
  mkHotelCategory id (cd_slug data) (cd_title data) (cd_description data)
    (cd_specs data) (cd_essentialAmenities data) (cd_roomCount data)
    (cd_videoUrl data).

Definition or_else {A} (o : option A) (d : A) : A :=
  match o with Some a => a | None => d end.

Definition patch_row (p : CategoryPatch) (c : HotelCategory) : HotelCategory :=
  mkHotelCategory (hc_id c)
    (or_else (cp_slug p) (hc_slug c))
    (or_else (cp_title p) (hc_title c))
    (or_else (cp_description p) (hc_description c))
    (or_else (cp_specs p) (hc_specs c))
    (or_else (cp_essentialAmenities p) (hc_essentialAmenities c))
    (or_else (cp_roomCount p) (hc_roomCount c))
    (or_else (cp_videoUrl p) (hc_videoUrl c)).

(** Child image rows get consecutive ids from the sequence. *)
Fixpoint image_rows (next : Z) (owner : option Z) (l : list ImageData)
  : list GalleryImage :=
  match l with
  | [] => []
  | x :: t =>
      mkGalleryImage next (id_category x) (id_url x) (id_publicId x)
        (id_caption x) owner
      :: image_rows (next + 1) owner t
  end.

Fixpoint price_rows (next : Z) (categoryId : Z) (l : list PriceData)
  : list Price :=
  match l with
  | [] => []
  | x :: t =>
      mkPrice next categoryId (pd_hourlyHours x) (pd_rateCents x) (pd_label x)
      :: price_rows (next + 1) categoryId t
  end.

Definition replace_category (row : HotelCategory) (l : list HotelCategory)
  : list HotelCategory :=
  map (fun c => if Z.eqb (hc_id c) (hc_id row) then row else c) l.

Definition replace_image (row : GalleryImage) (l : list GalleryImage)
  : list GalleryImage :=
  map (fun i => if Z.eqb (gi_id i) (gi_id row) then row else i) l.

Definition category_exists (id : Z) (d : Db.t) : bool :=
  match find_category id d with Some _ => true | None => false end.

(** [hotelCategory.findUnique({ where: { id }, include: { images: true } })] *)
Definition hotelCategory_findUnique (id : Z)
  : M (option (HotelCategory * list GalleryImage)) :=
  d <- read_db ;;
  ret (match find_category id d with
       | Some c => Some (c, images_of id d)
       | None => None
       end).

(** [hotelCategory.create({ data: { ..., images: { create } } })]; the
    slug must be free (see [Db.slug_taken]). *)
Definition hotelCategory_create (data : CategoryData) (imgs : list ImageData)
  : M (HotelCategory * list GalleryImage) :=
  d <- read_db ;;
  if slug_taken (cd_slug data) None d then throw unique_error
  else
    let id := next_category_id d in
    let row := row_of id data in
    let children := image_rows (next_image_id d) (Some id) imgs in
    write_db (Db.mk (categories d ++ [row]) (images d ++ children) (prices d)
                (id + 1) (next_image_id d + Z.of_nat (List.length imgs))
                (next_price_id d)) ;;;
    emit (DbCategoryCreate id) ;;;
    ret (row, children).

(** [hotelCategory.update({ where: { id }, data: { ..., images: { create } } })]
    as the rooms handler issues it. *)
Definition hotelCategory_update (id : Z) (data : CategoryData)
  (imgs : list ImageData) : M (HotelCategory * list GalleryImage) :=
  d <- read_db ;;
  if negb (category_exists id d) then throw not_found_error
  else if slug_taken (cd_slug data) (Some id) d then throw unique_error
  else
    let row := row_of id data in
    let children := image_rows (next_image_id d) (Some id) imgs in
    write_db (Db.mk (replace_category row (categories d))
                (images d ++ children) (prices d)
                (next_category_id d)
                (next_image_id d + Z.of_nat (List.length imgs))
                (next_price_id d)) ;;;
    emit (DbCategoryUpdate id) ;;;
    ret (row, children).

(** [hotelCategory.update({ where: { id }, data })] with scalar columns
    only, as the categories handler issues it. *)
Definition hotelCategory_patch (id : Z) (p : CategoryPatch) : M unit :=
  d <- read_db ;;
  match find_category id d with
  | None => throw not_found_error
  | Some c =>
      let row := patch_row p c in
      if slug_taken (hc_slug row) (Some id) d then throw unique_error
      else
        write_db (Db.mk (replace_category row (categories d))
                    (images d) (prices d)
                    (next_category_id d) (next_image_id d) (next_price_id d)) ;;;
        emit (DbCategoryUpdate id)
  end.

(** [hotelCategory.delete({ where: { id } })]; the delete cascades
    (see [Db.remove_category]). *)
Definition hotelCategory_delete (id : Z) : M unit :=
  d <- read_db ;;
  if negb (category_exists id d) then throw not_found_error
  else
    write_db (remove_category id d) ;;;
    emit (DbCategoryDelete id).

(** [galleryImage.deleteMany({ where: { categoryId } })] *)
Definition galleryImage_deleteMany (categoryId : Z) : M unit :=
  d <- read_db ;;
  write_db (Db.mk (categories d)
              (filter (fun i => negb (owned_by categoryId i)) (images d))
              (prices d)
              (next_category_id d) (next_image_id d) (next_price_id d)) ;;;
  emit (DbImageDeleteMany categoryId).

(** Modelled from the spec: the schema file is not part of the sources;
    the design document has a Price belong to exactly one category and
    an image optionally to an owning category, under foreign keys.  This
    is the test the foreign key makes on an optional owner. *)
Definition owner_ok (owner : option Z) (d : Db.t) : bool :=
  match owner with
  | Some c => category_exists c d
  | None => true
  end.

(** [galleryImage.findUnique({ where: { id } })] *)
Definition galleryImage_findUnique (id : Z) : M (option GalleryImage) :=
  d <- read_db ;;
  ret (find_image id d).

(** [galleryImage.create({ data })] *)
Definition galleryImage_create (data : ImageData) (owner : option Z)
  : M GalleryImage :=
  d <- read_db ;;
  if negb (owner_ok owner d) then throw foreign_key_error
  else
    let id := next_image_id d in
    let row := mkGalleryImage id (id_category data) (id_url data)
                 (id_publicId data) (id_caption data) owner in
    write_db (Db.mk (categories d) (images d ++ [row]) (prices d)
                (next_category_id d) (id + 1) (next_price_id d)) ;;;
    emit (DbImageCreate id) ;;;
    ret row.

(** [galleryImage.update({ where: { id }, data })] *)
Definition galleryImage_update (id : Z) (p : ImagePatch) : M GalleryImage :=
  d <- read_db ;;
  match find_image id d with
  | None => throw not_found_error
  | Some old =>
      let owner := match ip_categoryId p with
                   | Some c => Some c
                   | None => gi_categoryId old
                   end in
      if negb (owner_ok owner d) then throw foreign_key_error
      else
        let row := mkGalleryImage id (ip_category p)
                     (or_else (ip_url p) (gi_url old))
                     (match ip_publicId p with
                      | Some k => Some k
                      | None => gi_publicId old
                      end)
                     (match ip_caption p with
                      | Some c => Some c
                      | None => gi_caption old
                      end)
                     owner in
        write_db (Db.mk (categories d) (replace_image row (images d)) (prices d)
                    (next_category_id d) (next_image_id d) (next_price_id d)) ;;;
        emit (DbImageUpdate id) ;;;
        ret row
  end.

(** [galleryImage.delete({ where: { id } })] *)
Definition galleryImage_delete (id : Z) : M unit :=
  d <- read_db ;;
  match find_image id d with
  | None => throw not_found_error
  | Some _ =>
      write_db (Db.mk (categories d)
                  (filter (fun i => negb (Z.eqb (gi_id i) id)) (images d))
                  (prices d)
                  (next_category_id d) (next_image_id d) (next_price_id d)) ;;;
      emit (DbImageDelete id)
  end.

(** [price.deleteMany({ where: { categoryId } })] *)
Definition price_deleteMany (categoryId : Z) : M unit :=
  d <- read_db ;;
  write_db (Db.mk (categories d) (images d)
              (filter (fun p => negb (priced_for categoryId p)) (prices d))
              (next_category_id d) (next_image_id d) (next_price_id d)) ;;;
  emit (DbPriceDeleteMany categoryId).

(** [price.createMany({ data })], every row for the same category, which
    must exist (the foreign key of [owner_ok]). *)
Definition price_createMany (categoryId : Z) (data : list PriceData) : M unit :=
  d <- read_db ;;
  if negb (category_exists categoryId d) then throw foreign_key_error
  else
    write_db (Db.mk (categories d) (images d)
                (prices d ++ price_rows (next_price_id d) categoryId data)
                (next_category_id d) (next_image_id d)
                (next_price_id d + Z.of_nat (List.length data))) ;;;
    emit (DbPriceCreateMany categoryId (List.length data)).

(** [hotelCategory.findMany({ include: { images: { orderBy: { createdAt:
    'asc' } }, prices: { orderBy: { hourlyHours: 'asc' } } }, orderBy:
    { createdAt: 'desc' } })]: a table keeps its rows in creation
    order, so the newest row is the last one. *)
Definition hotelCategory_findMany
  : M (list (HotelCategory * list GalleryImage * list Price)) :=
  d <- read_db ;;
  ret (map (fun c => (c, images_of (hc_id c) d,
                      order_by_hours (prices_of (hc_id c) d)))
           (rev (categories d))).

(** [hotelCategory: { select: { id: true, title: true, slug: true } }] *)
Record CategorySummary : Type := mkCategorySummary {
  cs_id : Z;
  cs_title : string;
  cs_slug : string
}.

Definition summary_of (owner : option Z) (d : Db.t) : option CategorySummary :=
  match owner with
  | Some c =>
      match find_category c d with
      | Some row => Some (mkCategorySummary (hc_id row) (hc_title row) (hc_slug row))
      | None => None
      end
  | None => None
  end.

(** [galleryImage.findMany({ include: { hotelCategory: { select } },
    orderBy: { createdAt: 'desc' } })] *)
Definition galleryImage_findMany
  : M (list (GalleryImage * option CategorySummary)) :=
  d <- read_db ;;
  ret (map (fun i => (i, summary_of (gi_categoryId i) d)) (rev (images d))).

End Prisma.

(* ================================================================== *)
(** * Requests, responses and the services a handler calls *)
(* ================================================================== *)

Module Http.
Import Db Eff.
Local Open Scope eff_scope.
Local Open Scope string_scope.

(** A category as a query with [include: { images, prices }] returns it. *)
Record CategoryView : Type := mkView {
  cv_row : HotelCategory;
  cv_images : list GalleryImage;
  cv_prices : list Price
}.

Inductive Body : Type :=
| JsonError (error : string)             (* { error } *)
| JsonMessage (message : string)         (* { message } *)
| JsonSuccessMessage (message : string)  (* { success: true, message } *)
| JsonRoom (room : CategoryView)         (* the room itself *)
| JsonCategory (data : option CategoryView)  (* { success: true, data } *)
| JsonImage (data : GalleryImage)        (* { success: true, data } *)
| JsonUpload (secure_url public_id : string).

Record Response : Type := mkResponse {
  status : nat;
  body : Body
}.

(** [NextResponse.json(body, { status })]; the status defaults to 200. *)
Definition json (b : Body) (st : nat) : M Response := ret (mkResponse st b).

(** An uploaded file as the [File] interface shows it. *)
Record File : Type := mkFile {
  f_name : string;
  f_type : string;
  f_size : Z
}.

(** What [utapi.deleteFiles] does: it resolves with a [success] flag or
    rejects. *)
Inductive DeleteOutcome : Type :=
| DeleteResolved (success : bool)
| DeleteRejected (e : Error).

(** What [utapi.uploadFiles] does: it resolves with [data] or with
    [error], or rejects. *)
Inductive UploadOutcome : Type :=
| UploadData (url key : string)
| UploadError (message : string)
| UploadRejected (e : Error).

(** The fields handed to [galleryImageSchema.parse]. *)
Record GalleryFields : Type := mkGalleryFields {
  gf_category : option string;
  gf_caption : option string;
  gf_categoryId : option Prisma.IntParam
}.

(** What [galleryImageSchema.parse] returns. *)
Record GalleryValid : Type := mkGalleryValid {
  gv_category : string;
  gv_caption : option string;
  gv_categoryId : option Z
}.

(** A JSON value of a request body. *)
#[local] Unset Elimination Schemes.
Inductive Json : Type :=
| JNull
| JBool (b : bool)
| JNum (z : Z)
| JStr (s : string)
| JArr (items : list Json)
| JObj (fields : list (string * Json)).
#[local] Set Elimination Schemes.

(** Everything outside the handler that a request depends on: the
    caller's session, the storage service, and the two validation
    schemas of [lib/validators], whose source is not among the files
    and which are therefore left arbitrary. *)
Record Env : Type := mkEnv {
  admin_session : bool;
  deleteFiles : list string -> DeleteOutcome;
  uploadFiles : File -> UploadOutcome;
  galleryImageSchema_parse : GalleryFields -> option GalleryValid;
  categoryUpdateSchema_parse : list (string * Json) -> option Prisma.CategoryPatch
}.

(** The same environment for a caller with or without a session. *)
Definition with_session (valid : bool) (env : Env) : Env :=
  mkEnv valid (deleteFiles env) (uploadFiles env)
    (galleryImageSchema_parse env) (categoryUpdateSchema_parse env).

Definition unauthorized_error : Error := mkError "Error" "Unauthorized".
Definition zod_error : Error := mkError "ZodError" "Invalid input".
Definition syntax_error : Error := mkError "SyntaxError" "Unexpected end of JSON input".
Definition type_error : Error := mkError "TypeError" "Cannot read properties of undefined".

(** Modelled from the spec: [requireAdmin] of [lib/auth] is not among
    the sources; the design document describes it as the guard a handler
    calls first, which fails the whole request with an unauthorized
    signal when the caller lacks a valid admin session. *)
Definition requireAdmin (env : Env) : M unit :=
  if admin_session env then ret tt else throw unauthorized_error.

(** [error instanceof Error && error.message.includes('Unauthorized')] *)
Definition is_unauthorized (e : Error) : bool :=
  Str.includes "Unauthorized" (err_message e).

(** [await utapi.deleteFiles(keys)] *)
Definition utapi_deleteFiles (env : Env) (keys : list string) : M bool :=
  emit (StorageDeleteFiles keys) ;;;
  match deleteFiles env keys with
  | DeleteResolved success => ret success
  | DeleteRejected e => throw e
  end.

(** [await request.json()] and [await request.formData()]: [None] stands
    for a body that does not parse. *)
Definition parsed {A} (b : option A) (e : Error) : M A :=
  match b with
  | Some a => ret a
  | None => throw e
  end.

(** The storage call a handler makes for the keys it collected: none
    when the array is empty. *)
Definition storage_call (keys : list string) : list Event :=
  match keys with
  | [] => []
  | _ :: _ => [StorageDeleteFiles keys]
  end.

Definition schema_parse {A B} (parse : A -> option B) (a : A) : M B :=
  match parse a with
  | Some b => ret b
  | None => throw zod_error
  end.

(** The answer of a handler that lists rows: the rows, with status 200,
    or an error response. *)
Inductive Listing (A : Type) : Type :=
| Listed (data : list A)
| Refused (response : Response).

Arguments Listed {A} data.
Arguments Refused {A} response.

End Http.

(* ================================================================== *)
(** * [/api/admin/rooms]: GET, POST, PUT, DELETE *)
(* ================================================================== *)

Module Rooms.
Import Db Eff Prisma Http.
Local Open Scope eff_scope.
Local Open Scope string_scope.

(** An uploaded file as the admin form submits it. *)
Record Media : Type := mkMedia {
  m_url : string;
  m_publicId : string
}.

(** One entry of the [images] or [videos] array of a body: such an
    object, or [null]. *)
Definition Entry : Type := option Media.

(** The request body of POST and PUT: a JSON object whose fields, when
    present, have the types the admin form sends (a number for [id] and
    [roomCount], a string for [title] and [description], arrays for the
    others), except that an entry of [images] or of [videos] may be
    [null].  A field that is left out is [None]. *)
Record RoomBody : Type := mkRoomBody {
  rb_id : option Z;
  rb_title : option string;
  rb_description : option string;
  rb_specs : list (string * bool);
  rb_essentialAmenities : option (list string);
  rb_roomCount : option Z;
  rb_images : option (list Entry);
  rb_videos : option (list Entry)
}.

(** [title.toLowerCase()]: a missing title makes the call throw. *)
Definition required_title (title : option string) : M string :=
  match title with
  | Some t => ret t
  | None => throw type_error
  end.

(** Reading a property of an entry ([entry.url], [entry.publicId])
    throws when the entry is [null]. *)
Definition object_of (entry : Entry) : M Media :=
  match entry with
  | Some m => ret m
  | None => throw type_error
  end.

(** [entries.map(entry => ... entry.url ... entry.publicId ...)]: the
    entries as objects, read from the first to the last. *)
Fixpoint objects (entries : list Entry) : M (list Media) :=
  match entries with
  | [] => ret []
  | entry :: more =>
      m <- object_of entry ;;
      ms <- objects more ;;
      ret (m :: ms)
  end.

(** [images?.map(...) || []] and [(images || []).map(...)]: a missing
    array counts as an empty one. *)
Definition submitted (images : option (list Entry)) : M (list Media) :=
  match images with
  | Some entries => objects entries
  | None => ret []
  end.

(** [`${title} - Image ${index + 1}`] *)
Definition caption (title : string) (index : nat) : string :=
  title ++ " - Image " ++ Str.of_nat (index + 1).

Fixpoint mapi_from {A B} (f : A -> nat -> B) (index : nat) (l : list A) : list B :=
  match l with
  | [] => []
  | x :: t => f x index :: mapi_from f (S index) t
  end.

(** The [create] list built from the image entries once they are read:
    [{ category: 'Rooms', url, publicId, caption }]. *)
Definition images_create (title : string) (images : list Media) : list ImageData :=
  mapi_from (fun imageData index =>
               mkImageData "Rooms" (m_url imageData)
                 (Some (m_publicId imageData))
                 (Some (caption title index)))
            0 images.

(** [videos && videos.length > 0 ? videos[0].url : null] *)
Definition newVideoUrl (videos : option (list Entry)) : M (option string) :=
  match videos with
  | Some (first :: _) =>
      video <- object_of first ;;
      ret (Some (m_url video))
  | _ => ret None
  end.

(** The [data] both handlers write: [description || ''],
    [essentialAmenities || []], [roomCount || 0] and the URL of the
    first video. *)
Definition room_data (slug title : string) (data : RoomBody)
  (videoUrl : option string) : CategoryData :=
  mkCategoryData slug title
    (or_else (rb_description data) "")
    (rb_specs data)
    (or_else (rb_essentialAmenities data) [])
    (or_else (rb_roomCount data) 0%Z)
    videoUrl.

Definition view_of (d : Db.t) (row : HotelCategory) : CategoryView :=
  mkView row (images_of (hc_id row) d) (prices_of (hc_id row) d).

Definition POST (env : Env) (request : option RoomBody) : M Response :=
  try_catch
    (data <- parsed request syntax_error ;;
     title <- required_title (rb_title data) ;;
     let slug := Slug.slug title in
     videoUrl <- newVideoUrl (rb_videos data) ;;
     images <- submitted (rb_images data) ;;
     created <- hotelCategory_create (room_data slug title data videoUrl)
                  (images_create title images) ;;
     d <- read_db ;;
     json (JsonRoom (view_of d (fst created))) 201)
    (fun _ => json (JsonError "Failed to create room") 500).

(** [new Set(images.map(img => img.publicId))], the entries read. *)
Definition newImageKeys (images : list Media) : list string :=
  map m_publicId images.

(** [newImageKeys.has(key)] *)
Definition has (keys : list string) (key : string) : bool :=
  existsb (String.eqb key) keys.

(** [existingRoom.images.forEach(image => { if (image.publicId &&
    !newImageKeys.has(image.publicId)) fileKeysToDelete.push(...) })] *)
Definition push_stale_images (keys : list string) (existing : list GalleryImage)
  (fileKeysToDelete : list string) : list string :=
  fold_left
    (fun acc image =>
       match gi_publicId image with
       | Some k => if Str.truthy k && negb (has keys k) then (acc ++ [k])%list else acc
       | None => acc
       end)
    existing fileKeysToDelete.

(** The video step of PUT: the old video's key is pushed when the
    stored URL is not blank, differs from the new one and a pattern
    matches it. *)
Definition push_old_video (patterns : list Regex.re) (stored new : option string)
  (fileKeysToDelete : list string) : list string :=
  match stored with
  | Some url =>
      if Str.truthy url && negb (Str.is_blank url) then
        let isSameVideo :=
          match new with
          | Some n => String.eqb url n
          | None => false
          end in
        if negb isSameVideo then
          match VideoKey.videoKey patterns url with
          | Some videoKey => (fileKeysToDelete ++ [videoKey])%list
          | None => fileKeysToDelete
          end
        else fileKeysToDelete
      else fileKeysToDelete
  | None => fileKeysToDelete
  end.

(** The [fileKeysToDelete] array of PUT when it reaches STEP 1, from the
    image entries and the new video URL it has read. *)
Definition fileKeysToDelete_PUT (existingRoom : HotelCategory)
  (existingImages : list GalleryImage) (images : list Media)
  (newVideoUrl : option string) : list string :=
  push_old_video VideoKey.patterns_PUT (hc_videoUrl existingRoom) newVideoUrl
    (push_stale_images (newImageKeys images) existingImages []).

(** STEP 1 of PUT and DELETE: the deletion is awaited and whatever it
    throws is caught and logged. *)
Definition delete_files_first (env : Env) (fileKeysToDelete : list string) : M unit :=
  match fileKeysToDelete with
  | [] => ret tt
  | _ :: _ =>
      try_catch (utapi_deleteFiles env fileKeysToDelete ;;; ret tt)
                (fun _ => ret tt)
  end.

(** [if (!id)]: a missing id and the number 0 are both falsy. *)
Definition body_id (data : RoomBody) : option Z :=
  match rb_id data with
  | Some z => if Z.eqb z 0 then None else Some z
  | None => None
  end.

(** PUT.  The debug output at its start already reads [videos[0].url],
    before the id is looked at; the entries of [images] are read when
    [newImageKeys] is built, and what is read then is what the update
    writes. *)
Definition PUT (env : Env) (request : option RoomBody) : M Response :=
  try_catch
    (data <- parsed request syntax_error ;;
     newVideoUrl (rb_videos data) ;;;
     match body_id data with
     | None => json (JsonError "Room ID is required") 400
     | Some id =>
         title <- required_title (rb_title data) ;;
         let slug := Slug.slug title in
         existing <- hotelCategory_findUnique id ;;
         match existing with
         | None => json (JsonError "Room not found") 404
         | Some (existingRoom, existingImages) =>
             images <- submitted (rb_images data) ;;
             videoUrl <- newVideoUrl (rb_videos data) ;;
             delete_files_first env
               (fileKeysToDelete_PUT existingRoom existingImages images videoUrl) ;;;
             galleryImage_deleteMany id ;;;
             updated <- hotelCategory_update id (room_data slug title data videoUrl)
                          (images_create title images) ;;
             d <- read_db ;;
             json (JsonRoom (view_of d (fst updated))) 200
         end
     end)
    (fun _ => json (JsonError "Failed to update room") 500).

(** The image step of DELETE: every child image with a key. *)
Definition push_all_images (existing : list GalleryImage)
  (fileKeysToDelete : list string) : list string :=
  fold_left
    (fun acc image =>
       match gi_publicId image with
       | Some k => if Str.truthy k then (acc ++ [k])%list else acc
       | None => acc
       end)
    existing fileKeysToDelete.

(** The video step of DELETE.  (The [videos] relation the handler also
    looks at is not selected by its query, so that loop adds nothing.) *)
Definition push_video (patterns : list Regex.re) (stored : option string)
  (fileKeysToDelete : list string) : list string :=
  match stored with
  | Some url =>
      if Str.truthy url && negb (Str.is_blank url) then
        match VideoKey.videoKey patterns url with
        | Some videoKey => (fileKeysToDelete ++ [videoKey])%list
        | None => fileKeysToDelete
        end
      else fileKeysToDelete
  | None => fileKeysToDelete
  end.

Definition fileKeysToDelete_DELETE (existingRoom : HotelCategory)
  (existingImages : list GalleryImage) : list string :=
  push_video VideoKey.patterns_DELETE (hc_videoUrl existingRoom)
    (push_all_images existingImages []).

(** [request] is the [id] query parameter: [None] when it is missing or
    empty, otherwise what [parseInt] makes of it. *)
Definition DELETE (env : Env) (request : option IntParam) : M Response :=
  try_catch
    (match request with
     | None => json (JsonError "Room ID is required") 400
     | Some param =>
         id <- where_id param ;;
         existing <- hotelCategory_findUnique id ;;
         match existing with
         | None => json (JsonError "Room not found") 404
         | Some (existingRoom, existingImages) =>
             delete_files_first env
               (fileKeysToDelete_DELETE existingRoom existingImages) ;;;
             hotelCategory_delete id ;;;
             json (JsonMessage "Room deleted successfully") 200
         end
     end)
    (fun _ => json (JsonError "Failed to delete room") 500).

(** GET: every room, newest first, each with its images and its
    prices by ascending hours.  No session is asked for. *)
Definition GET (env : Env) : M (Listing CategoryView) :=
  try_catch
    (rooms <- hotelCategory_findMany ;;
     ret (Listed (map (fun r => mkView (fst (fst r)) (snd (fst r)) (snd r)) rooms)))
    (fun _ => ret (Refused (mkResponse 500 (JsonError "Failed to fetch rooms")))).

End Rooms.

(* ================================================================== *)
(** * [/api/admin/categories/[id]]: GET, PUT, DELETE *)
(* ================================================================== *)

Module CategoryById.
Import Db Eff Prisma Http.
Local Open Scope eff_scope.
Local Open Scope string_scope.

(** One submitted price tier. *)
Record PriceInput : Type := mkPriceInput {
  pi_hourlyHours : Z;
  pi_rateCents : Z;
  pi_label : option string
}.

(** The [prices] field of the body: left out, present with a value that
    is not an array, or an array of tiers. *)
Inductive PricesField : Type :=
| PricesAbsent
| PricesNotArray (v : Json)
| PricesArray (tiers : list PriceInput).

(** [const { prices, ...categoryData } = body] *)
Record CategoryBody : Type := mkCategoryBody {
  prices : PricesField;
  categoryData : list (string * Json)
}.

(** The filter that builds [cleanCategoryData]: null values, objects
    (arrays included) without keys and blank strings are dropped. *)
Definition keep_value (value : Json) : bool :=
  match value with
  | JNull => false
  | JObj [] => false
  | JArr [] => false
  | JStr s => negb (Str.is_blank s)
  | _ => true
  end.

Definition cleanCategoryData (data : list (string * Json)) : list (string * Json) :=
  filter (fun entry => keep_value (snd entry)) data.

(** [validatedCategoryData]: [null] when only prices are submitted. *)
Definition validate (env : Env) (clean : list (string * Json))
  : M (option CategoryPatch) :=
  match clean with
  | [] => ret None
  | _ :: _ =>
      v <- schema_parse (categoryUpdateSchema_parse env) clean ;;
      ret (Some v)
  end.

(** [prices.slice(0, 4)] *)
Definition limitedPrices (tiers : list PriceInput) : list PriceInput :=
  firstn 4 tiers.

(** [label: price.label || null] *)
Definition price_data (price : PriceInput) : PriceData :=
  mkPriceData (pi_hourlyHours price) (pi_rateCents price)
    (match pi_label price with
     | Some l => if Str.truthy l then Some l else None
     | None => None
     end).

(** The price step of the transaction:
    [if (prices && Array.isArray(prices)) { ... }]. *)
Definition replace_prices (param : IntParam) (field : PricesField) : M unit :=
  match field with
  | PricesArray tiers =>
      id <- where_id param ;;
      price_deleteMany id ;;;
      match limitedPrices tiers with
      | [] => ret tt
      | limited => price_createMany id (map price_data limited)
      end
  | _ => ret tt
  end.

(** The final [findUnique] of the transaction, prices ordered by
    [hourlyHours] ascending. *)
Definition read_back (id : Z) : M (option CategoryView) :=
  d <- read_db ;;
  ret (match find_category id d with
       | Some c => Some (mkView c (images_of id d)
                           (order_by_hours (prices_of id d)))
       | None => None
       end).

Definition unauthorized_or (message : string) (error : Error) : M Response :=
  if is_unauthorized error then json (JsonError "Unauthorized") 401
  else json (JsonError message) 500.

Definition GET (env : Env) (param : IntParam) : M Response :=
  try_catch
    (requireAdmin env ;;;
     id <- where_id param ;;
     category <- read_back id ;;
     match category with
     | None => json (JsonError "Category not found") 404
     | Some c => json (JsonCategory (Some c)) 200
     end)
    (unauthorized_or "Failed to fetch category").

Definition PUT (env : Env) (param : IntParam) (request : option CategoryBody)
  : M Response :=
  try_catch
    (requireAdmin env ;;;
     body <- parsed request syntax_error ;;
     validatedCategoryData <- validate env (cleanCategoryData (categoryData body)) ;;
     result <- transaction
       (match validatedCategoryData with
        | Some data => id <- where_id param ;; hotelCategory_patch id data
        | None => ret tt
        end ;;;
        replace_prices param (prices body) ;;;
        id <- where_id param ;;
        read_back id) ;;
     json (JsonCategory result) 200)
    (unauthorized_or "Failed to update category").

(** The keys DELETE collects: every child image with a key, then the
    video key when [/\/f\/([^/?]+)/] matches the stored URL. *)
Definition fileKeysToDelete (existingCategory : HotelCategory)
  (existingImages : list GalleryImage) : list string :=
  let images := Rooms.push_all_images existingImages [] in
  match hc_videoUrl existingCategory with
  | Some url =>
      if Str.truthy url then
        match VideoKey.match1 VideoKey.pat_f_loose url with
        | Some key => (images ++ [key])%list
        | None => images
        end
      else images
  | None => images
  end.

(** [utapi.deleteFiles(keys).catch(...)]: the call is issued and not
    awaited; a rejection is logged by the [catch] callback. *)
Definition delete_files_detached (env : Env) (keys : list string) : M unit :=
  match keys with
  | [] => ret tt
  | _ :: _ => emit (StorageDeleteFiles keys)
  end.

Definition DELETE (env : Env) (param : IntParam) : M Response :=
  try_catch
    (requireAdmin env ;;;
     id <- where_id param ;;
     existing <- hotelCategory_findUnique id ;;
     match existing with
     | None => json (JsonError "Category not found") 404
     | Some (existingCategory, existingImages) =>
         hotelCategory_delete id ;;;
         delete_files_detached env
           (fileKeysToDelete existingCategory existingImages) ;;;
         json (JsonSuccessMessage "Category deleted successfully") 200
     end)
    (unauthorized_or "Failed to delete category").

End CategoryById.

(* ================================================================== *)
(** * [/api/upload]: POST, DELETE *)
(* ================================================================== *)

Module Upload.
Import Eff Http.
Local Open Scope eff_scope.
Local Open Scope string_scope.
Local Open Scope Z_scope.

Definition POST (env : Env) (file : option File) : M Response :=
  match file with
  | None => json (JsonError "No file provided") 400
  | Some file =>
      let isImage := Str.startsWith "image/" (f_type file) in
      let isVideo := Str.startsWith "video/" (f_type file) in
      if negb isImage && negb isVideo then
        json (JsonError "Only image and video files are allowed") 400
      else if isVideo && (64 * 1024 * 1024 <? f_size file) then
        json (JsonError "Video file too large. Maximum size is 64MB.") 400
      else if isImage && (4 * 1024 * 1024 <? f_size file) then
        json (JsonError "Image file too large. Maximum size is 4MB.") 400
      else
        emit (StorageUploadFiles (f_name file)) ;;;
        match uploadFiles env file with
        | UploadData url key => json (JsonUpload url key) 200
        | UploadError _ => json (JsonError "Upload failed") 500
        | UploadRejected _ => json (JsonError "Upload failed") 500
        end
  end.

(** What DELETE answers: [{ success: true, message: 'File deleted
    successfully', key }] or [{ error }] (with [details] after a
    failure of the storage call). *)
Inductive DeleteBody : Type :=
| Deleted (key : string)
| DeleteError (error : string) (details : option string).

Record DeleteResponse : Type := mkDeleteResponse {
  dr_status : nat;
  dr_body : DeleteBody
}.

(** [searchParams.get('key') || publicId]: each parameter is [None]
    when the query string does not have it. *)
Definition fileKey (key publicId : option string) : option string :=
  match key with
  | Some k => if Str.truthy k then Some k else publicId
  | None => publicId
  end.

Definition DELETE (env : Env) (key publicId : option string) : M DeleteResponse :=
  try_catch
    (match fileKey key publicId with
     | Some k =>
         if Str.truthy k then
           utapi_deleteFiles env [k] ;;;
           ret (mkDeleteResponse 200 (Deleted k))
         else
           ret (mkDeleteResponse 400
                  (DeleteError "File key or public ID is required" None))
     | None =>
         ret (mkDeleteResponse 400
                (DeleteError "File key or public ID is required" None))
     end)
    (fun error =>
       ret (mkDeleteResponse 500
              (DeleteError "Delete failed" (Some (err_message error))))).

End Upload.

(* ================================================================== *)
(** * [/api/admin/gallery]: GET, POST *)
(* ================================================================== *)

Module Gallery.
Import Db Eff Prisma Http.
Local Open Scope eff_scope.
Local Open Scope string_scope.

(** The body of a JSON request: the file is already in storage. *)
Record JsonBody : Type := mkJsonBody {
  jb_category : option string;
  jb_caption : option string;
  jb_url : option string;
  jb_publicId : option string;
  jb_categoryId : option IntParam
}.

(** The fields of a multipart request. *)
Record FormData : Type := mkFormData {
  fd_file : option File;
  fd_category : option string;
  fd_caption : option string;
  fd_categoryId : option IntParam
}.

(** A create request: its [content-type] header and what [json()] and
    [formData()] make of its body ([None] when they throw). *)
Record Request : Type := mkRequest {
  contentType : option string;
  rq_json : option JsonBody;
  rq_formData : option FormData
}.

(** [value || undefined] *)
Definition or_undefined (value : option string) : option string :=
  match value with
  | Some s => if Str.truthy s then Some s else None
  | None => None
  end.

(** [contentType?.includes('application/json')] *)
Definition is_json (contentType : option string) : bool :=
  match contentType with
  | Some ct => Str.includes "application/json" ct
  | None => false
  end.

Definition fields (category caption : option string) (categoryId : option IntParam)
  : GalleryFields :=
  mkGalleryFields category (or_undefined caption) categoryId.

Definition image_data (v : GalleryValid) (url publicId : string) : ImageData :=
  mkImageData (gv_category v) url (Some publicId) (gv_caption v).

(** The handler's own [fetch] of [/api/upload]. *)
Definition upload_via_api (env : Env) (file : File) : M (string * string) :=
  uploadResponse <- Upload.POST env (Some file) ;;
  match body uploadResponse with
  | JsonUpload secure_url public_id => ret (secure_url, public_id)
  | JsonError error => throw (mkError "Error" error)
  | _ => throw (mkError "Error" "Upload failed")
  end.

Definition POST (env : Env) (request : Request) : M Response :=
  try_catch
    (requireAdmin env ;;;
     if is_json (contentType request) then
       body <- parsed (rq_json request) syntax_error ;;
       match or_undefined (jb_url body), or_undefined (jb_publicId body) with
       | Some url, Some publicId =>
           validatedData <- schema_parse (galleryImageSchema_parse env)
             (fields (jb_category body) (jb_caption body) (jb_categoryId body)) ;;
           image <- galleryImage_create (image_data validatedData url publicId)
                      (gv_categoryId validatedData) ;;
           json (JsonImage image) 200
       | _, _ => json (JsonError "URL and public ID are required") 400
       end
     else
       formData <- parsed (rq_formData request) type_error ;;
       match fd_file formData with
       | None => json (JsonError "No file provided") 400
       | Some file =>
           if negb (Str.startsWith "image/" (f_type file)) then
             json (JsonError "Only image files are allowed") 400
           else
             validatedData <- schema_parse (galleryImageSchema_parse env)
               (fields (fd_category formData) (fd_caption formData)
                       (fd_categoryId formData)) ;;
             uploadResult <- upload_via_api env file ;;
             image <- galleryImage_create
                        (image_data validatedData (fst uploadResult) (snd uploadResult))
                        (gv_categoryId validatedData) ;;
             json (JsonImage image) 200
       end)
    (CategoryById.unauthorized_or "Failed to upload image").

(** GET: every image, newest first, each with a summary of the
    category that owns it. *)
Definition GET (env : Env) : M (Listing (GalleryImage * option CategorySummary)) :=
  try_catch
    (requireAdmin env ;;;
     images <- galleryImage_findMany ;;
     ret (Listed images))
    (fun error =>
       response <- CategoryById.unauthorized_or "Failed to fetch gallery images" error ;;
       ret (Refused response)).

End Gallery.

(* ================================================================== *)
(** * [/api/admin/gallery/[id]]: PUT, DELETE *)
(* ================================================================== *)

Module GalleryById.
Import Db Eff Prisma Http.
Local Open Scope eff_scope.
Local Open Scope string_scope.

(** The fields of the multipart body of PUT. *)
Record FormData : Type := mkFormData {
  fd_category : option string;
  fd_caption : option string;
  fd_categoryId : option IntParam;
  fd_url : option string;
  fd_publicId : option string
}.

(** STEP 1 of PUT and DELETE: the old file goes first when the row has
    a key; a failure is caught and logged. *)
Definition delete_old_file (env : Env) (publicId : option string) : M unit :=
  match Gallery.or_undefined publicId with
  | Some key =>
      try_catch (utapi_deleteFiles env [key] ;;; ret tt) (fun _ => ret tt)
  | None => ret tt
  end.

Definition PUT (env : Env) (param : IntParam) (request : option FormData)
  : M Response :=
  try_catch
    (requireAdmin env ;;;
     id <- where_id param ;;
     existingImage <- galleryImage_findUnique id ;;
     match existingImage with
     | None => json (JsonError "Image not found") 404
     | Some existingImage =>
         formData <- parsed request type_error ;;
         validatedData <- schema_parse (galleryImageSchema_parse env)
           (Gallery.fields (fd_category formData) (fd_caption formData)
                           (fd_categoryId formData)) ;;
         let base := mkImagePatch (gv_category validatedData)
                       (gv_caption validatedData)
                       (gv_categoryId validatedData) None None in
         finalUpdateData <-
           match Gallery.or_undefined (fd_url formData),
                 Gallery.or_undefined (fd_publicId formData) with
           | Some url, Some publicId =>
               delete_old_file env (gi_publicId existingImage) ;;;
               ret (mkImagePatch (ip_category base) (ip_caption base)
                      (ip_categoryId base) (Some url) (Some publicId))
           | _, _ => ret base
           end ;;
         updatedImage <- galleryImage_update id finalUpdateData ;;
         json (JsonImage updatedImage) 200
     end)
    (CategoryById.unauthorized_or "Failed to update image").

Definition DELETE (env : Env) (param : IntParam) : M Response :=
  try_catch
    (requireAdmin env ;;;
     id <- where_id param ;;
     image <- galleryImage_findUnique id ;;
     match image with
     | None => json (JsonError "Image not found") 404
     | Some image =>
         delete_old_file env (gi_publicId image) ;;;
         galleryImage_delete id ;;;
         json (JsonSuccessMessage "Image deleted successfully") 200
     end)
    (CategoryById.unauthorized_or "Failed to delete image").

End GalleryById.

(* ================================================================== *)
(** * [lib/api-client.ts]: fetchWithTimeout, apiClient, apiWithState *)
(* ================================================================== *)

Module ApiClient.
Import Eff.
Local Open Scope string_scope.
Local Open Scope Z_scope.

(** The three options the wrapper reads; each may be left out.  The
    two durations are whole milliseconds.  [retries] is any finite
    number: whole or fractional, of either sign. *)
Record FetchOptions : Type := mkFetchOptions {
  timeout : option Z;
  retries : option QArith_base.Q;
  retryDelay : option Z
}.

Definition default_timeout : Z := 10000.
Definition default_retries : QArith_base.Q := QArith_base.inject_Z 0.
Definition default_retryDelay : Z := 1000.

(** What a rejected promise carries: an [Error] or some other value. *)
Inductive Reason : Type :=
| AnError (e : Error)
| NotAnError.

(** How one call of [fetch] ends; a response is known by its status. *)
Inductive FetchOutcome : Type :=
| Resolved (status : nat)
| Rejected (reason : Reason).

Inductive Event : Type :=
| TimerStart (ms : Z)       (* setTimeout(() => controller.abort(), timeout) *)
| TimerClear                (* clearTimeout(timeoutId) *)
| FetchCall (attempt : Z)   (* await fetch(url, ...) *)
| Wait (ms : Z).            (* await new Promise(r => setTimeout(r, retryDelay)) *)

Inductive Result : Type :=
| Returned (status : nat)
| Thrown (e : Error).

(** [error instanceof Error ? error : new Error('Unknown error')] *)
Definition as_error (reason : Reason) : Error :=
  match reason with
  | AnError e => e
  | NotAnError => mkError "Error" "Unknown error"
  end.

Definition is_abort (e : Error) : bool := String.eqb (err_name e) "AbortError".

(** [attempt <= retries] and [attempt === retries]: the loop counter is
    a whole number, [retries] need not be. *)
Definition at_most (attempt : Z) (retries : QArith_base.Q) : bool :=
  QArith_base.Qle_bool (QArith_base.inject_Z attempt) retries.

Definition is_last (attempt : Z) (retries : QArith_base.Q) : bool :=
  QArith_base.Qeq_bool (QArith_base.inject_Z attempt) retries.

(** The [for] loop from the point where [attempt <= retries] is tested,
    followed by the two statements after it.  [network attempt] is how
    the [fetch] of that attempt ends.  [fuel] bounds the iterations. *)
Fixpoint attempts (fuel : nat) (network : Z -> FetchOutcome)
  (retries : QArith_base.Q) (retryDelay : Z) (attempt : Z)
  (lastError : option Error) : option (list Event * Result) :=
  if at_most attempt retries then
    match fuel with
    | O => None
    | S fuel' =>
        match network attempt with
        | Resolved status =>
            Some ([FetchCall attempt; TimerClear], Returned status)
        | Rejected reason =>
            let lastError := as_error reason in
            if is_abort lastError || is_last attempt retries then
              Some ([FetchCall attempt; TimerClear], Thrown lastError)
            else
              match attempts fuel' network retries retryDelay (attempt + 1)
                      (Some lastError) with
              | Some (events, result) =>
                  Some (FetchCall attempt :: Wait retryDelay :: events, result)
              | None => None
              end
        end
    end
  else
    Some ([TimerClear],
          Thrown (match lastError with
                   | Some e => e
                   | None => mkError "Error" "Fetch failed"
                   end)).

(** The loop runs while [attempt <= retries], so at most
    [floor retries + 1] times. *)
Definition fetchWithTimeout (network : Z -> FetchOutcome) (options : FetchOptions)
  : option (list Event * Result) :=
  let timeout := Prisma.or_else (timeout options) default_timeout in
  let retries := Prisma.or_else (retries options) default_retries in
  let retryDelay := Prisma.or_else (retryDelay options) default_retryDelay in
  match attempts (Z.to_nat (Qround.Qfloor retries + 1)) network retries
          retryDelay 0 None with
  | Some (events, result) => Some (TimerStart timeout :: events, result)
  | None => None
  end.


(** [k] attempts numbered from [from], one wait of [delay] between
    consecutive ones. *)
Fixpoint spaced (k : nat) (from : Z) (delay : Z) : list Event :=
  match k with
  | O => []
  | S O => [FetchCall from]
  | S k' => FetchCall from :: Wait delay :: spaced k' (from + 1) delay
  end.

(** ** [apiClient] and [apiWithState] *)

(** A JSON value as [response.json()] gives it.  A number is known by
    the text [String] gives for it, whatever its size: zero, of either
    sign, is the number whose text is [0]. *)
#[local] Unset Elimination Schemes.
Inductive Value : Type :=
| VNull
| VBool (b : bool)
| VNum (printed : string)
| VStr (s : string)
| VArr (items : list Value)
| VObj (fields : list (string * Value)).
#[local] Set Elimination Schemes.

(** What [apiClient] reads of the response it is given, beyond the
    status: the [content-type] header, the status text, and what
    [text()] and [json()] settle with ([inl] when the promise is
    rejected). *)
Record Payload : Type := mkPayload {
  pl_contentType : option string;
  pl_statusText : string;
  pl_text : Error + string;
  pl_json : Error + Value
}.

(** The [data] of an [ApiResponse]: the text of the body or a JSON value. *)
Inductive Data : Type :=
| TextData (text : string)
| JsonData (value : Value).

(** [ApiResponse<T>]; a field that is left out is [None]. *)
Record ApiResponse : Type := mkApiResponse {
  success : bool;
  data : option Data;
  error : option string;
  message : option Value
}.

(** [response.ok] *)
Definition ok (status : nat) : bool := (200 <=? status)%nat && (status <=? 299)%nat.

(** [data[key]] for a JSON value that is not [null]: only an object has
    such a member, and a repeated key holds its last value. *)
Definition member (key : string) (value : Value) : option Value :=
  match value with
  | VObj fields =>
      match find (fun field => String.eqb (fst field) key) (rev fields) with
      | Some field => Some (snd field)
      | None => None
      end
  | _ => None
  end.

(** A JSON value used as a condition. *)
Definition truthy (value : Value) : bool :=
  match value with
  | VNull => false
  | VBool b => b
  | VNum printed => negb (String.eqb printed "0")
  | VStr s => Str.truthy s
  | VArr _ | VObj _ => true
  end.

(** [String(value)], as the [Error] constructor applies it to its
    message. *)
Fixpoint to_string (value : Value) : string :=
  match value with
  | VNull => "null"
  | VBool true => "true"
  | VBool false => "false"
  | VNum printed => printed
  | VStr s => s
  | VArr items =>
      (fix join (l : list Value) : string :=
         match l with
         | [] => ""
         | x :: t =>
             let element := match x with
                            | VNull => ""
                            | _ => to_string x
                            end in
             match t with
             | [] => element
             | _ :: _ => element ++ "," ++ join t
             end
         end) items
  | VObj _ => "[object Object]"
  end.

(** [a || b] on two optional JSON values. *)
Definition or_json (a : option Value) (b : option Value) : option Value :=
  match a with
  | Some v => if truthy v then Some v else b
  | None => b
  end.

(** [{ success: false, error }] *)
Definition failure (error : string) : ApiResponse :=
  mkApiResponse false None (Some error) None.

(** What can be thrown inside the [try] of [apiClient]: an [ApiError]
    of its own or another [Error]. *)
Inductive Caught : Type :=
| AnApiError (message : string)
| Another (e : Error).

(** The [catch] block of [apiClient]. *)
Definition caught (c : Caught) : ApiResponse :=
  match c with
  | AnApiError message => failure message
  | Another e =>
      if is_abort e then failure "Request timeout. Please try again."
      else failure (err_message e)
  end.

(** What reading [property] of [null] throws, in the words of V8. *)
Definition null_read (property : string) : Error :=
  mkError "TypeError"
    ("Cannot read properties of null (reading '" ++ property ++ "')").

(** The [try] block of [apiClient] from the point where
    [fetchWithTimeout] has returned a response. *)
Definition respond (status : nat) (payload : Payload) : ApiResponse + Caught :=
  if negb (Gallery.is_json (pl_contentType payload)) then
    if negb (ok status) then
      inr (AnApiError ("HTTP Error " ++ Str.of_nat status ++ ": "
                       ++ pl_statusText payload))
    else
      match pl_text payload with
      | inl e => inr (Another e)
      | inr text => inl (mkApiResponse true (Some (TextData text)) None None)
      end
  else
    match pl_json payload with
    | inl e => inr (Another e)
    | inr data =>
        if negb (ok status) then
          match data with
          | VNull => inr (Another (null_read "error"))
          | _ =>
              let errorMessage :=
                or_json (or_json (member "error" data) (member "message" data))
                        (Some (VStr ("HTTP Error " ++ Str.of_nat status))) in
              inr (AnApiError (match errorMessage with
                               | Some v => to_string v
                               | None => "undefined"
                               end))
          end
        else
          match data with
          | VNull => inr (Another (null_read "data"))
          | _ =>
              inl (mkApiResponse true
                     (Some (JsonData (match member "data" data with
                                      | Some v => v
                                      | None => data
                                      end)))
                     None (member "message" data))
          end
    end.

(** [apiClient(url, options)]: [payload] is the content of the response
    that [fetch] resolves with. *)
Definition apiClient (network : Z -> FetchOutcome) (options : FetchOptions)
  (payload : Payload) : option (list Event * ApiResponse) :=
  match fetchWithTimeout network options with
  | Some (events, Returned status) =>
      Some (events, match respond status payload with
                    | inl response => response
                    | inr c => caught c
                    end)
  | Some (events, Thrown e) => Some (events, caught (Another e))
  | None => None
  end.

(** What [apiWithState] resolves with: [{ data, error }]; [None] is the
    [null] it puts there itself. *)
Record State : Type := mkState {
  st_data : option Data;
  st_error : option string
}.

(** The calls [apiWithState] makes: its two callbacks around those of
    [apiClient]. *)
Inductive StateEvent : Type :=
| OnStart
| Client (e : Event)
| OnComplete.

(** [result.error || 'Unknown error'] *)
Definition error_or_unknown (error : option string) : string :=
  match error with
  | Some e => if Str.truthy e then e else "Unknown error"
  | None => "Unknown error"
  end.

Definition apiWithState (network : Z -> FetchOutcome) (options : FetchOptions)
  (payload : Payload) : option (list StateEvent * State) :=
  match apiClient network options payload with
  | Some (events, result) =>
      Some ((OnStart :: map Client events ++ [OnComplete])%list,
            match success result, data result with
            | true, Some d => mkState (Some d) None
            | _, _ => mkState None (Some (error_or_unknown (error result)))
            end)
  | None => None
  end.

End ApiClient.

(* ================================================================== *)
(** * The admin dashboard: what it loads and what it sends *)
(* ================================================================== *)

Module Dashboard.
Import Db Prisma Http.
Local Open Scope string_scope.

(** The [images] of the room object [loadRooms] builds from a category
    of the listing: the images with a URL that is not blank, each with
    [publicId: img.publicId || '']. *)
Definition images (category : CategoryView) : list Rooms.Media :=
  map (fun img => Rooms.mkMedia (gi_url img) (or_else (gi_publicId img) ""))
      (filter (fun img => Str.truthy (gi_url img) && negb (Str.is_blank (gi_url img)))
              (cv_images category)).

(** Its [videos]: the stored video, when its URL is not blank, with an
    empty [publicId]. *)
Definition videos (category : CategoryView) : list Rooms.Media :=
  match hc_videoUrl (cv_row category) with
  | Some url =>
      if Str.truthy url && negb (Str.is_blank url) then [Rooms.mkMedia url ""]
      else []
  | None => []
  end.

Record GalleryItem : Type := mkGalleryItem {
  item_id : Z;
  item_category : string;
  item_url : string;
  item_caption : string;
  item_publicId : option string
}.

(** The items [loadGallery] puts in the [gallery] state: [caption:
    item.caption || ''], and no [publicId]. *)
Definition galleryData (data : list (GalleryImage * option CategorySummary))
  : list GalleryItem :=
  map (fun item =>
         mkGalleryItem (gi_id (fst item)) (gi_category (fst item))
           (gi_url (fst item)) (or_else (gi_caption (fst item)) "") None)
      data.



End Dashboard.

(* ================================================================== *)
(** * The shape of an extracted storage key *)
(* ================================================================== *)

Module KeyShape.
Import Regex.

(** Every capturing group of the pattern is [(cs+)]. *)
Fixpoint groups_are (cs : charset) (r : re) : Prop :=
  match r with
  | Group r1 => r1 = Plus cs
  | Seq r1 r2 | Alt r1 r2 => groups_are cs r1 /\ groups_are cs r2
  | Opt r1 => groups_are cs r1
  | _ => True
  end.

(** The matcher stands at index [pos] of [input], with [rest] left. *)
Definition placed (input : list ascii) (st : mstate) : Prop :=
  exists before, input = (before ++ rest st)%list /\ pos st = List.length before.

(** [l] is a non-empty run of characters of [cs] somewhere in [input]. *)
Definition run_of (cs : charset) (input l : list ascii) : Prop :=
  l <> [] /\ forallb (accepts cs) l = true /\
  exists before after, input = (before ++ l ++ after)%list.

(** What group 1 holds, if anything, is such a run. *)
Definition captured (cs : charset) (input : list ascii) (st : mstate) : Prop :=
  forall l, cap st = Some l -> run_of cs input l.

(** A key cut out of [url] that has none of the characters of [stops]. *)
Definition clean_piece (stops url key : string) : Prop :=
  key <> EmptyString /\
  (exists before after, Str.chars url = (before ++ Str.chars key ++ after)%list) /\
  forall c, In c (Str.chars key) -> ~ In c (Str.chars stops).

End KeyShape.

(* ================================================================== *)
(** * Closed forms of the two replacements behind a slug *)
(* ================================================================== *)

Module SlugShape.

Definition dash : ascii := "-"%char.

(** [a-z0-9] *)
Definition is_alnum (c : ascii) : bool := Str.is_lower c || Str.is_digit c.

(** A character a slug may hold. *)
Definition slug_char (c : ascii) : bool := is_alnum c || Ascii.eqb c dash.

(** The length of the longest prefix of [s] inside the class [cs]. *)
Fixpoint take_run (cs : Regex.charset) (s : list ascii) : nat :=
  match s with
  | c :: t => if Regex.accepts cs c then S (take_run cs t) else 0
  | [] => 0
  end.

(** Every maximal run outside [a-z0-9] becomes one dash; [in_run] says
    that the run the scan is in has already produced its dash. *)
Fixpoint squeeze (in_run : bool) (s : list ascii) : list ascii :=
  match s with
  | [] => []
  | c :: t =>
      if is_alnum c then c :: squeeze false t
      else if in_run then squeeze true t
      else dash :: squeeze true t
  end.

(** A dash in last position is dropped. *)
Fixpoint drop_last_dash (s : list ascii) : list ascii :=
  match s with
  | [] => []
  | c :: t =>
      match t with
      | [] => if Ascii.eqb c dash then [] else [c]
      | _ :: _ => c :: drop_last_dash t
      end
  end.

(** A dash in first position and a dash in last position are dropped. *)
Definition strip_edges (s : list ascii) : list ascii :=
  match s with
  | c :: t => if Ascii.eqb c dash then drop_last_dash t else drop_last_dash s
  | [] => []
  end.

(** No dash follows a dash; [prev] says that a dash comes just before. *)
Fixpoint single_dashes (prev : bool) (s : list ascii) : bool :=
  match s with
  | [] => true
  | c :: t =>
      if Ascii.eqb c dash then negb prev && single_dashes true t
      else single_dashes false t
  end.

(** [s] starts with a dash. *)
Definition leading_dash (s : list ascii) : bool :=
  match s with
  | c :: _ => Ascii.eqb c dash
  | [] => false
  end.

(** [s] ends with a dash. *)
Fixpoint trailing_dash (s : list ascii) : bool :=
  match s with
  | [] => false
  | c :: t =>
      match t with
      | [] => Ascii.eqb c dash
      | _ :: _ => trailing_dash t
      end
  end.

End SlugShape.

(* ================================================================== *)
(** * What the handlers are expected to do, in closed form *)
(* ================================================================== *)

Module Expected.
Import Db Eff Prisma Rooms.
Local Open Scope string_scope.

(** The answer to a caller without a session. *)
Definition rejected : Http.Response :=
  Http.mkResponse 401 (Http.JsonError "Unauthorized").

(** Ascending [hourlyHours]. *)
Definition by_hours (p q : Price) : Prop := (pr_hourlyHours p <= pr_hourlyHours q)%Z.

(** The price rows of category [id] once [tiers] have replaced them:
    one row per tier of [limitedPrices], ids taken from the sequence. *)
Definition replaced (d : Db.t) (id : Z) (tiers : list CategoryById.PriceInput)
  : list Price :=
  price_rows (next_price_id d) id
    (map CategoryById.price_data (CategoryById.limitedPrices tiers)).

(** The key of an existing image that the new payload no longer lists. *)
Definition stale_key (keys : list string) (image : GalleryImage) : list string :=
  match gi_publicId image with
  | Some k => if Str.truthy k && negb (has keys k) then [k] else []
  | None => []
  end.

(** The key of the stored video when the update replaces or removes it. *)
Definition old_video_key (stored new : option string) : list string :=
  match stored with
  | Some url =>
      match VideoKey.videoKey VideoKey.patterns_PUT url with
      | Some key =>
          match new with
          | Some n => if String.eqb url n then [] else [key]
          | None => [key]
          end
      | None => []
      end
  | None => []
  end.

(** The category row is deleted before any storage deletion is
    issued: reading the events in order, a [DbCategoryDelete] comes
    before the first [StorageDeleteFiles]. *)
Fixpoint db_delete_first (events : list Event) : bool :=
  match events with
  | [] => true
  | DbCategoryDelete _ :: _ => true
  | StorageDeleteFiles _ :: _ => false
  | _ :: rest => db_delete_first rest
  end.

(** The [images] of the body are the objects [images]; a body without
    the array counts as one with an empty array. *)
Definition images_are (data : RoomBody) (images : list Media) : Prop :=
  rb_images data = Some (map Some images) \/
  (rb_images data = None /\ images = []).

(** The new video URL of the body: the URL of the first entry of
    [videos], none when the array is missing or empty. *)
Definition video_is (data : RoomBody) (videoUrl : option string) : Prop :=
  match videoUrl with
  | Some url =>
      exists video more,
        rb_videos data = Some (Some video :: more) /\ m_url video = url
  | None => rb_videos data = None \/ rb_videos data = Some []
  end.

(** The key of a gallery image's file, when the row has one. *)
Definition key_of (image : GalleryImage) : list string :=
  match Gallery.or_undefined (gi_publicId image) with
  | Some k => [k]
  | None => []
  end.

(** The calls that reach the storage service. *)
Definition is_storage (e : Event) : bool :=
  match e with
  | StorageDeleteFiles _ | StorageUploadFiles _ => true
  | _ => false
  end.

(** The same environment with another category schema. *)
Definition with_category_schema
  (parse : list (string * Http.Json) -> option CategoryPatch) (env : Http.Env)
  : Http.Env :=
  Http.mkEnv (Http.admin_session env) (Http.deleteFiles env) (Http.uploadFiles env)
    (Http.galleryImageSchema_parse env) parse.

End Expected.

(* ================================================================== *)
(** * Sample data *)
(* ================================================================== *)

Module Sample.
Import Db Eff Prisma Http.
Local Open Scope string_scope.
Local Open Scope Z_scope.

(** A storage service that is down: every deletion rejects. *)
Definition storage_down (keys : list string) : DeleteOutcome :=
  DeleteRejected (mkError "UploadThingError" "service unavailable").

Definition uploads (file : File) : UploadOutcome :=
  UploadData "https://utfs.io/f/NEWKEY" "NEWKEY".

(** A gallery schema that asks for a category label. *)
Definition gallery_schema (f : GalleryFields) : option GalleryValid :=
  match gf_category f with
  | Some label =>
      Some (mkGalleryValid label (gf_caption f)
              (match gf_categoryId f with
               | Some (Int z) => Some z
               | _ => None
               end))
  | None => None
  end.

(** A category schema that accepts nothing. *)
Definition category_schema (data : list (string * Json)) : option CategoryPatch :=
  None.

(** A caller with a valid admin session, and one without. *)
Definition admin : Env :=
  mkEnv true storage_down uploads gallery_schema category_schema.
Definition visitor : Env :=
  mkEnv false storage_down uploads gallery_schema category_schema.

Definition empty : World := mkWorld (Db.mk [] [] [] 1 1 1) [].

(** One category with an image, a video and two price tiers. *)
Definition deluxe_row : HotelCategory :=
  mkHotelCategory 1 "deluxe-room" "Deluxe Room" "" [] [] 5
    (Some "https://host/x/y/ABC123?q=1").
(** The row that creating [deluxe] (below) adds to an empty store. *)
Definition deluxe_row_created : HotelCategory :=
  mkHotelCategory 1 "deluxe-room" "Deluxe Room" "" [] [] 5 None.
Definition deluxe_image : GalleryImage :=
  mkGalleryImage 1 "Rooms" "u1" (Some "k1") (Some "Deluxe Room - Image 1") (Some 1).
Definition seeded : World :=
  mkWorld (Db.mk [deluxe_row] [deluxe_image]
             [mkPrice 1 1 2 50000 None; mkPrice 2 1 24 250000 (Some "Full day")]
             2 2 3)
          [].

(** The body of the design document's create-then-edit scenario. *)
Definition deluxe : Rooms.RoomBody :=
  Rooms.mkRoomBody None (Some "Deluxe Room") None [] None (Some 5)
    (Some [Some (Rooms.mkMedia "u1" "k1")]) None.
Definition deluxe_edit : Rooms.RoomBody :=
  Rooms.mkRoomBody (Some 1) (Some "Deluxe Room") None [] None (Some 5)
    (Some []) None.

(** A second room, with a video whose URL carries a storage key, and
    a store that holds both rooms. *)
Definition suite_row : HotelCategory :=
  mkHotelCategory 2 "suite" "Suite" "" [] [] 2 (Some "https://utfs.io/f/VID1").
Definition suite_image : GalleryImage :=
  mkGalleryImage 2 "Rooms" "u2" (Some "k2") (Some "Suite - Image 1") (Some 2).
Definition two_rooms : World :=
  mkWorld (Db.mk [deluxe_row; suite_row] [deluxe_image; suite_image] [] 3 3 1) [].


(** An update of the second room that replaces its image and its video,
    and one that replaces the image and keeps the video. *)
Definition suite_edit : Rooms.RoomBody :=
  Rooms.mkRoomBody (Some 2) (Some "Suite") None [] None (Some 2)
    (Some [Some (Rooms.mkMedia "u3" "k3")])
    (Some [Some (Rooms.mkMedia "https://utfs.io/f/VID2" "")]).
Definition suite_same_video : Rooms.RoomBody :=
  Rooms.mkRoomBody (Some 2) (Some "Suite") None [] None (Some 2)
    (Some [Some (Rooms.mkMedia "u3" "k3")])
    (Some [Some (Rooms.mkMedia "https://utfs.io/f/VID1" "")]).

(** Seven price tiers. *)
Definition seven_tiers : list CategoryById.PriceInput :=
  map (fun h => CategoryById.mkPriceInput h (h * 1000) None)
      [24; 2; 12; 4; 8; 6; 1].

(** A multipart gallery request that carries a video. *)
Definition video_form : Gallery.Request :=
  Gallery.mkRequest (Some "multipart/form-data; boundary=x") None
    (Some (Gallery.mkFormData (Some (mkFile "clip.mp4" "video/mp4" 1000))
             (Some "Rooms") None None)).


Definition three_retries : ApiClient.FetchOptions :=
  ApiClient.mkFetchOptions None (Some (QArith_base.inject_Z 3)) None.




End Sample.

(* ================================================================== *)
(** * Running a handler *)
(* ================================================================== *)

(** Unfolds the effect combinators and computes as far as the data in
    the goal allows; the queries stay folded. *)
Ltac eff_run :=
  cbv beta iota zeta delta
    [Eff.bind Eff.ret Eff.throw Eff.try_catch Eff.read_db Eff.write_db
     Eff.emit Eff.transaction
     Http.json Http.requireAdmin Http.parsed Http.schema_parse
     Http.utapi_deleteFiles Prisma.where_id];
  cbn [Eff.db Eff.log fst snd negb Db.categories Db.images Db.prices
       Db.next_category_id Db.next_image_id Db.next_price_id].

(** The same, with the queries unfolded too. *)
Ltac db_run :=
  cbv beta iota zeta delta
    [Eff.bind Eff.ret Eff.throw Eff.try_catch Eff.read_db Eff.write_db
     Eff.emit Eff.transaction
     Http.json Http.requireAdmin Http.parsed Http.schema_parse
     Http.utapi_deleteFiles
     Prisma.where_id Prisma.hotelCategory_findUnique
     Prisma.hotelCategory_delete Prisma.hotelCategory_create
     Prisma.hotelCategory_update Prisma.hotelCategory_patch
     Prisma.galleryImage_deleteMany Prisma.galleryImage_findUnique
     Prisma.galleryImage_create Prisma.galleryImage_update
     Prisma.galleryImage_delete Prisma.price_deleteMany
     Prisma.price_createMany];
  cbn [Eff.db Eff.log fst snd negb Db.categories Db.images Db.prices
       Db.next_category_id Db.next_image_id Db.next_price_id].

(** Runs a handler branch by branch: computes, then splits on an
    innermost undetermined test, until none is left.  [simp] is run
    after each computation step. *)
Ltac split_run_with simp :=
  repeat (db_run; simp;
          match goal with
          | |- context [match ?x with _ => _ end] =>
              lazymatch x with
              | context [match _ with _ => _ end] => fail
              | _ => destruct x eqn:?
              end
          end);
  db_run; simp.

Ltac split_run := split_run_with idtac.

(* ================================================================== *)
(** * The regular-expression matcher on a single class *)
(* ================================================================== *)

Section RegexFacts.
Import Regex SlugShape.

Lemma plus_greedy_Some cs s : forall i c1,
  plus_greedy cs i s c1 Some =
  match take_run cs s with
  | 0 => None
  | S n => Some (MState (i + S n) (skipn (S n) s) c1)
  end.
Proof.
  induction s as [|c t IH]; intros i c1; simpl; [reflexivity|].
  destruct (accepts cs c); [|reflexivity].
  rewrite IH. destruct (take_run cs t) as [|n].
  - simpl. now rewrite Nat.add_1_r.
  - f_equal. f_equal. lia.
Qed.

End RegexFacts.

(* ================================================================== *)
(** * Slugs *)
(* ================================================================== *)

Section SlugFacts.
Import Regex SlugShape Slug.

Lemma accepts_non_alnum c :
  accepts (NoneOf [("a", "z"); ("0", "9")]%char) c = negb (is_alnum c).
Proof.
  unfold accepts, in_ranges, is_alnum, Str.is_lower, Str.is_digit. simpl.
  now rewrite orb_false_r.
Qed.

Lemma squeeze_in_run t :
  squeeze true t =
  squeeze false (skipn (take_run (NoneOf [("a", "z"); ("0", "9")]%char) t) t).
Proof.
  induction t as [|c t IH]; [reflexivity|].
  cbn [take_run]. rewrite accepts_non_alnum.
  destruct (is_alnum c) eqn:E; cbn [negb squeeze skipn]; rewrite ?E; auto.
Qed.

Lemma succ_eqb_false i n : (i + S n =? i) = false.
Proof. apply Nat.eqb_neq. lia. Qed.

Lemma replace_non_alnum fuel : forall s i,
  List.length s < fuel ->
  replace_from fuel non_alnum_run [dash] i s = squeeze false s.
Proof.
  induction fuel as [|fuel IH]; intros s i Hlen; [lia|].
  cbn [replace_from]. unfold match_at, non_alnum_run. cbn [run pos rest cap].
  rewrite plus_greedy_Some.
  destruct s as [|c t]; [reflexivity|].
  cbn [take_run]. rewrite accepts_non_alnum. cbn [squeeze].
  destruct (is_alnum c) eqn:E; cbn [negb].
  - rewrite IH by (simpl in Hlen; lia). reflexivity.
  - cbn [pos rest]. rewrite succ_eqb_false. cbn [skipn app].
    rewrite IH.
    + now rewrite squeeze_in_run.
    + pose proof (length_skipn (take_run (NoneOf [("a", "z"); ("0", "9")]%char) t) t).
      simpl in Hlen. lia.
Qed.

Lemma replace_edge_dash fuel : forall s i,
  List.length s < fuel ->
  replace_from fuel edge_dash [] i s =
  if i =? 0 then strip_edges s else drop_last_dash s.
Proof.
  induction fuel as [|fuel IH]; intros s i Hlen; [lia|].
  cbn [replace_from]. unfold match_at, edge_dash. cbn [run pos rest cap].
  destruct s as [|c t].
  - destruct (i =? 0); reflexivity.
  - simpl in Hlen. unfold dash in *.
    destruct (i =? 0) eqn:Ei.
    + apply Nat.eqb_eq in Ei. subst i. cbn [strip_edges].
      rewrite (Ascii.eqb_sym c). unfold dash.
      destruct (Ascii.eqb "-" c) eqn:Ec.
      * cbn [pos rest Nat.eqb app]. rewrite IH by lia. reflexivity.
      * rewrite IH by lia. cbn [Nat.eqb].
        destruct t; cbn [drop_last_dash]; [|reflexivity].
        rewrite (Ascii.eqb_sym c). unfold dash. now rewrite Ec.
    + cbn [drop_last_dash]. rewrite (Ascii.eqb_sym c). unfold dash.
      destruct (Ascii.eqb "-" c) eqn:Ec.
      * destruct t as [|c' t'].
        -- cbn [pos rest app]. 
           replace (S i =? i) with false by (symmetry; apply Nat.eqb_neq; lia).
           rewrite IH by (simpl; lia). 
           replace (S i =? 0) with false by reflexivity. reflexivity.
        -- rewrite IH by lia. replace (S i =? 0) with false by reflexivity.
           reflexivity.
      * rewrite IH by lia. replace (S i =? 0) with false by reflexivity.
        destruct t; reflexivity.
Qed.

Lemma slug_closed_form title :
  slug title =
  Str.of_chars (strip_edges (squeeze false (Str.toLowerCase (Str.chars title)))).
Proof.
  unfold slug, replace_all. f_equal.
  rewrite replace_non_alnum by lia.
  rewrite replace_edge_dash by lia. reflexivity.
Qed.


(** ** The shape of the two intermediate strings *)

Lemma alnum_not_dash c : is_alnum c = true -> Ascii.eqb c dash = false.
Proof.
  intros H. destruct (Ascii.eqb c dash) eqn:E; [|reflexivity].
  apply Ascii.eqb_eq in E. subst c. discriminate H.
Qed.

Lemma slug_char_cases c :
  slug_char c = true -> is_alnum c = true \/ (is_alnum c = false /\ c = dash).
Proof.
  unfold slug_char. destruct (is_alnum c) eqn:E; [now left|].
  simpl. intros H. right. split; [reflexivity|]. now apply Ascii.eqb_eq.
Qed.

Lemma squeeze_chars s : forall b, forallb slug_char (squeeze b s) = true.
Proof.
  induction s as [|c t IH]; intros b; [reflexivity|].
  cbn [squeeze]. destruct (is_alnum c) eqn:E.
  - cbn [forallb]. unfold slug_char at 1. rewrite E. simpl. apply IH.
  - destruct b; [apply IH|]. cbn [forallb]. rewrite IH. reflexivity.
Qed.

Lemma squeeze_single_dashes s :
  single_dashes false (squeeze false s) = true /\
  forall b, single_dashes b (squeeze true s) = true.
Proof.
  induction s as [|c t [IH1 IH2]]; [split; reflexivity|].
  cbn [squeeze]. destruct (is_alnum c) eqn:E.
  - cbn [single_dashes]. rewrite (alnum_not_dash _ E). auto.
  - split; [|exact IH2]. cbn [single_dashes].
    replace (Ascii.eqb dash dash) with true by reflexivity.
    simpl. apply IH2.
Qed.

Lemma single_dashes_weaken s : forall b,
  single_dashes b s = true -> single_dashes false s = true.
Proof.
  destruct s as [|c t]; intros b H; [reflexivity|].
  cbn [single_dashes] in *. destruct (Ascii.eqb c dash); [|exact H].
  apply andb_true_iff in H. destruct H as [_ H]. now rewrite H.
Qed.

Lemma drop_last_dash_chars s :
  forallb slug_char s = true -> forallb slug_char (drop_last_dash s) = true.
Proof.
  induction s as [|c t IH]; intros H; [reflexivity|].
  cbn [forallb] in H. apply andb_true_iff in H. destruct H as [Hc Ht].
  cbn [drop_last_dash]. destruct t as [|c' t'].
  - destruct (Ascii.eqb c dash); [reflexivity|]. cbn [forallb]. now rewrite Hc.
  - cbn [forallb]. rewrite Hc. simpl. apply IH. exact Ht.
Qed.

Lemma drop_last_dash_single s : forall b,
  single_dashes b s = true -> single_dashes b (drop_last_dash s) = true.
Proof.
  induction s as [|c t IH]; intros b H; [reflexivity|].
  cbn [drop_last_dash]. destruct t as [|c' t'].
  - destruct (Ascii.eqb c dash) eqn:E; [reflexivity|].
    cbn [single_dashes]. now rewrite E.
  - cbn [single_dashes] in *. destruct (Ascii.eqb c dash).
    + apply andb_true_iff in H. destruct H as [Hb H]. rewrite Hb. simpl.
      now apply IH.
    + now apply IH.
Qed.

Lemma strip_edges_chars s :
  forallb slug_char s = true -> forallb slug_char (strip_edges s) = true.
Proof.
  destruct s as [|c t]; intros H; [reflexivity|].
  cbn [strip_edges]. destruct (Ascii.eqb c dash).
  - cbn [forallb] in H. apply andb_true_iff in H. destruct H as [_ H].
    now apply drop_last_dash_chars.
  - now apply drop_last_dash_chars.
Qed.

Lemma strip_edges_single s :
  single_dashes false s = true -> single_dashes false (strip_edges s) = true.
Proof.
  destruct s as [|c t]; intros H; [reflexivity|].
  cbn [strip_edges]. destruct (Ascii.eqb c dash) eqn:E.
  - cbn [single_dashes] in H. rewrite E in H. simpl in H.
    apply drop_last_dash_single. now apply single_dashes_weaken with (b := true).
  - now apply drop_last_dash_single.
Qed.

Lemma drop_last_dash_leading s :
  leading_dash s = false -> leading_dash (drop_last_dash s) = false.
Proof.
  destruct s as [|c t]; intros H; [reflexivity|].
  cbn [drop_last_dash]. destruct t; [|exact H].
  simpl in H. rewrite H. exact H.
Qed.

Lemma single_after_dash s :
  single_dashes true s = true -> leading_dash s = false.
Proof.
  destruct s as [|c t]; [reflexivity|]. cbn [single_dashes leading_dash].
  destruct (Ascii.eqb c dash); [discriminate|reflexivity].
Qed.

Lemma strip_edges_leading s :
  single_dashes false s = true -> leading_dash (strip_edges s) = false.
Proof.
  destruct s as [|c t]; intros H; [reflexivity|].
  cbn [strip_edges]. destruct (Ascii.eqb c dash) eqn:E.
  - cbn [single_dashes] in H. rewrite E in H. simpl in H.
    apply drop_last_dash_leading. now apply single_after_dash.
  - apply drop_last_dash_leading. exact E.
Qed.

Lemma drop_last_dash_nil s : drop_last_dash s = [] -> s = [] \/ s = [dash].
Proof.
  destruct s as [|c t]; [now left|]. cbn [drop_last_dash].
  destruct t; [|discriminate].
  destruct (Ascii.eqb c dash) eqn:E; [|discriminate].
  apply Ascii.eqb_eq in E. subst. now right.
Qed.

Lemma drop_last_dash_trailing s : forall b,
  single_dashes b s = true -> trailing_dash (drop_last_dash s) = false.
Proof.
  induction s as [|c t IH]; intros b H; [reflexivity|].
  cbn [drop_last_dash]. destruct t as [|c' t'].
  - destruct (Ascii.eqb c dash) eqn:E; [reflexivity|]. simpl. exact E.
  - cbn [trailing_dash].
    destruct (drop_last_dash (c' :: t')) as [|d r] eqn:D.
    + apply drop_last_dash_nil in D. destruct D as [D|D]; [discriminate|].
      injection D as -> ->.
      cbn [single_dashes] in H. destruct (Ascii.eqb c dash); [|reflexivity].
      replace (Ascii.eqb dash dash) with true in H by reflexivity.
      simpl in H. now rewrite andb_false_r in H.
    + cbn [single_dashes] in H.
      destruct (Ascii.eqb c dash).
      * apply andb_true_iff in H. destruct H as [_ H]. exact (IH _ H).
      * exact (IH _ H).
Qed.

Lemma strip_edges_trailing s :
  single_dashes false s = true -> trailing_dash (strip_edges s) = false.
Proof.
  destruct s as [|c t]; intros H; [reflexivity|].
  cbn [strip_edges]. destruct (Ascii.eqb c dash) eqn:E.
  - cbn [single_dashes] in H. rewrite E in H. simpl in H.
    now apply drop_last_dash_trailing with (b := true).
  - now apply drop_last_dash_trailing with (b := false).
Qed.

(** ** From the shape to [includes], [startsWith] and [endsWith] *)

Lemma leading_dash_starts s : Str.starts_with [dash] s = leading_dash s.
Proof.
  destruct s as [|c t]; [reflexivity|]. cbn [Str.starts_with leading_dash].
  rewrite andb_true_r. apply Ascii.eqb_sym.
Qed.

Lemma starts_with_snoc l c :
  Str.starts_with [dash] (l ++ [c]) =
  match l with [] => Ascii.eqb c dash | _ :: _ => leading_dash l end.
Proof.
  destruct l as [|a l]; cbn [app Str.starts_with leading_dash];
    rewrite andb_true_r; apply Ascii.eqb_sym.
Qed.

Lemma trailing_dash_ends s : Str.starts_with [dash] (rev s) = trailing_dash s.
Proof.
  induction s as [|c t IH]; [reflexivity|].
  cbn [rev trailing_dash]. rewrite starts_with_snoc.
  destruct t as [|c' t']; [reflexivity|].
  rewrite <- IH. rewrite leading_dash_starts.
  destruct (rev (c' :: t')) eqn:R; [|reflexivity].
  apply (f_equal (@List.length ascii)) in R. rewrite length_rev in R. discriminate.
Qed.

Lemma single_dashes_no_pair s : forall b,
  single_dashes b s = true -> Str.includes_chars [dash; dash] s = false.
Proof.
  induction s as [|c t IH]; intros b H; [reflexivity|].
  cbn [Str.includes_chars]. cbn [single_dashes] in H.
  destruct (Ascii.eqb c dash) eqn:E.
  - apply andb_true_iff in H. destruct H as [_ H].
    rewrite (IH _ H), orb_false_r.
    cbn [Str.starts_with]. 
    pose proof (single_after_dash _ H) as L.
    destruct t as [|c' t']; [now rewrite andb_false_r|].
    simpl in L. rewrite (Ascii.eqb_sym dash c'), L. now rewrite andb_false_r.
  - rewrite (IH _ H), orb_false_r. cbn [Str.starts_with].
    now rewrite (Ascii.eqb_sym dash c), E.
Qed.

(** ** Re-application *)

Lemma slug_char_lower c : slug_char c = true -> Str.lower_char c = c.
Proof.
  intros H. unfold Str.lower_char.
  replace (Str.is_upper c || Str.is_latin1_capital c) with false; [reflexivity|].
  symmetry. apply slug_char_cases in H. destruct H as [H|[_ ->]]; [|reflexivity].
  unfold is_alnum, Str.is_lower, Str.is_digit, Str.is_upper, Str.is_latin1_capital,
    Str.in_range in *.
  change (Str.code "a") with 97 in H. change (Str.code "z") with 122 in H.
  change (Str.code "0") with 48 in H. change (Str.code "9") with 57 in H.
  change (Str.code "A") with 65. change (Str.code "Z") with 90.
  assert (L : (192 <=? Str.code c) = false).
  { apply Nat.leb_gt.
    apply orb_true_iff in H. destruct H as [H|H];
      apply andb_true_iff in H; destruct H as [_ H2]; apply Nat.leb_le in H2; lia. }
  rewrite L. cbn [andb]. rewrite orb_false_r.
  apply andb_false_iff.
  apply orb_true_iff in H. destruct H as [H|H];
    apply andb_true_iff in H; destruct H as [H1 H2];
    apply Nat.leb_le in H1; apply Nat.leb_le in H2.
  - right. apply Nat.leb_gt. lia.
  - left. apply Nat.leb_gt. lia.
Qed.

Lemma toLowerCase_fixed s :
  forallb slug_char s = true -> Str.toLowerCase s = s.
Proof.
  induction s as [|c t IH]; intros H; [reflexivity|].
  cbn [forallb] in H. apply andb_true_iff in H. destruct H as [Hc Ht].
  unfold Str.toLowerCase in *. cbn [map]. now rewrite (slug_char_lower _ Hc), IH.
Qed.

Lemma squeeze_fixed s : forall b,
  single_dashes b s = true -> forallb slug_char s = true -> squeeze b s = s.
Proof.
  induction s as [|c t IH]; intros b Hs Hc; [reflexivity|].
  cbn [forallb] in Hc. apply andb_true_iff in Hc. destruct Hc as [Hc Ht].
  cbn [squeeze]. cbn [single_dashes] in Hs.
  destruct (slug_char_cases _ Hc) as [A|[A ->]]; rewrite A.
  - rewrite (alnum_not_dash _ A) in Hs. now rewrite (IH _ Hs Ht).
  - replace (Ascii.eqb dash dash) with true in Hs by reflexivity.
    apply andb_true_iff in Hs. destruct Hs as [Hb Hs].
    destruct b; [discriminate|]. now rewrite (IH _ Hs Ht).
Qed.

Lemma drop_last_dash_fixed s : trailing_dash s = false -> drop_last_dash s = s.
Proof.
  induction s as [|c t IH]; intros H; [reflexivity|].
  cbn [drop_last_dash]. cbn [trailing_dash] in H. destruct t as [|c' t'].
  - now rewrite H.
  - now rewrite (IH H).
Qed.

Lemma strip_edges_fixed s :
  leading_dash s = false -> trailing_dash s = false -> strip_edges s = s.
Proof.
  destruct s as [|c t]; intros L T; [reflexivity|].
  cbn [strip_edges]. simpl in L. rewrite L. now apply drop_last_dash_fixed.
Qed.

End SlugFacts.

(** C7. Slug derivation is a function of the title alone; for every
    title the slug holds only characters of [a-z0-9] and dashes, no two
    dashes are adjacent, no dash stands first or last, and deriving a
    slug from a slug gives the same slug back. *)
Theorem slug_shape_and_idempotent (title : string) :
  forallb SlugShape.slug_char (Str.chars (Slug.slug title)) = true /\
  Str.includes "--" (Slug.slug title) = false /\
  Str.startsWith "-" (Slug.slug title) = false /\
  Str.endsWith "-" (Slug.slug title) = false /\
  Slug.slug (Slug.slug title) = Slug.slug title.
Proof.
  rewrite (slug_closed_form title).
  set (x := SlugShape.squeeze false (Str.toLowerCase (Str.chars title))).
  set (y := SlugShape.strip_edges x).
  assert (Hx1 : forallb SlugShape.slug_char x = true) by apply squeeze_chars.
  assert (Hx2 : SlugShape.single_dashes false x = true)
    by apply squeeze_single_dashes.
  assert (Hy1 : forallb SlugShape.slug_char y = true)
    by now apply strip_edges_chars.
  assert (Hy2 : SlugShape.single_dashes false y = true)
    by now apply strip_edges_single.
  assert (Hy3 : SlugShape.leading_dash y = false) by now apply strip_edges_leading.
  assert (Hy4 : SlugShape.trailing_dash y = false) by now apply strip_edges_trailing.
  assert (Hc : Str.chars (Str.of_chars y) = y)
    by apply list_ascii_of_string_of_list_ascii.
  repeat split.
  - now rewrite Hc.
  - unfold Str.includes. rewrite Hc.
    now apply single_dashes_no_pair with (b := false).
  - unfold Str.startsWith. rewrite Hc. now rewrite leading_dash_starts.
  - unfold Str.endsWith. rewrite Hc. now rewrite trailing_dash_ends.
  - rewrite slug_closed_form, Hc.
    rewrite (toLowerCase_fixed _ Hy1), (squeeze_fixed _ _ Hy2 Hy1).
    now rewrite (strip_edges_fixed _ Hy3 Hy4).
Qed.

(* ================================================================== *)
(** * Video keys *)
(* ================================================================== *)

Section VideoKeyFacts.
Import Regex VideoKey.
Local Open Scope string_scope.

Lemma match1_no_match pattern url : exec pattern url = None -> match1 pattern url = None.
Proof. unfold match1. now intros ->. Qed.

Lemma videoKey_no_match patterns url :
  (forall p, In p patterns -> exec p url = None) -> videoKey patterns url = None.
Proof.
  induction patterns as [|p ps IH]; intros H; [reflexivity|].
  cbn [videoKey]. rewrite match1_no_match by (apply H; now left).
  apply IH. intros q Hq. apply H. now right.
Qed.

(** A pattern that opens with a literal cannot match inside text that
    lacks that character. *)
Lemma search_needs_literal (c : ascii) (r : re) (s : list ascii) : forall i,
  (forall st k, run r st k =
                match rest st with
                | c' :: t => if Ascii.eqb c c' then run r st k else None
                | [] => None
                end) ->
  ~ In c s -> search_from r i s = None.
Proof.
  induction s as [|a t IH]; intros i Hr Hnot.
  - cbn [search_from]. unfold match_at. now rewrite Hr.
  - cbn [search_from]. unfold match_at. rewrite Hr. cbn [rest].
    destruct (Ascii.eqb c a) eqn:E.
    + apply Ascii.eqb_eq in E. subst a. exfalso. apply Hnot. now left.
    + apply IH; [exact Hr|]. intros Hin. apply Hnot. now right.
Qed.

Lemma opens_with_literal c r1 r2 st k :
  run (Seq (Seq (Lit c) r1) r2) st k =
  match rest st with
  | c' :: t => if Ascii.eqb c c' then run (Seq (Seq (Lit c) r1) r2) st k else None
  | [] => None
  end.
Proof.
  cbn [run]. destruct (rest st) as [|c' t]; [reflexivity|].
  destruct (Ascii.eqb c c'); reflexivity.
Qed.

Lemma blank_has_no (c : ascii) (url : string) :
  Str.is_space c = false -> Str.is_blank url = true -> ~ In c (Str.chars url).
Proof.
  unfold Str.is_blank. intros Hc Hb Hin.
  rewrite forallb_forall in Hb. specialize (Hb _ Hin). congruence.
Qed.

Lemma videoKey_blank url :
  Str.is_blank url = true -> videoKey patterns_PUT url = None.
Proof.
  intros Hb. apply videoKey_no_match. intros p Hp.
  unfold exec. cbn [patterns_PUT In] in Hp.
  destruct Hp as [<-|[<-|[<-|[<-|[]]]]].
  - apply search_needs_literal with (c := "/"%char).
    + intros. apply opens_with_literal.
    + now apply blank_has_no.
  - apply search_needs_literal with (c := "/"%char).
    + intros. apply opens_with_literal.
    + now apply blank_has_no.
  - apply search_needs_literal with (c := "u"%char).
    + intros. apply opens_with_literal.
    + now apply blank_has_no.
  - apply search_needs_literal with (c := "u"%char).
    + intros. apply opens_with_literal.
    + now apply blank_has_no.
Qed.

End VideoKeyFacts.

(* ================================================================== *)
(** * Deleting a category *)
(* ================================================================== *)

Section DeleteFacts.
Import Db Eff Prisma Http.
Local Open Scope string_scope.

Lemma category_exists_found id d c :
  find_category id d = Some c -> category_exists id d = true.
Proof. unfold category_exists. now intros ->. Qed.

Lemma delete_files_first_spec env keys w :
  Rooms.delete_files_first env keys w =
  (Ok tt, mkWorld (db w) (log w ++ storage_call keys)).
Proof.
  unfold Rooms.delete_files_first, storage_call.
  destruct keys as [|k ks].
  - unfold ret. rewrite app_nil_r. now destruct w.
  - db_run. destruct (deleteFiles env (k :: ks)); reflexivity.
Qed.

Lemma rooms_DELETE_existing env w id c :
  find_category id (db w) = Some c ->
  Rooms.DELETE env (Some (Int id)) w =
  (Ok (mkResponse 200 (JsonMessage "Room deleted successfully")),
   mkWorld (remove_category id (db w))
     (log w ++ storage_call (Rooms.fileKeysToDelete_DELETE c (images_of id (db w)))
            ++ [DbCategoryDelete id])).
Proof.
  intros Hc. unfold Rooms.DELETE. db_run. rewrite Hc.
  rewrite delete_files_first_spec. db_run.
  rewrite (category_exists_found _ _ Hc). db_run.
  now rewrite app_assoc.
Qed.

Lemma category_DELETE_existing env w id c :
  admin_session env = true ->
  find_category id (db w) = Some c ->
  CategoryById.DELETE env (Int id) w =
  (Ok (mkResponse 200 (JsonSuccessMessage "Category deleted successfully")),
   mkWorld (remove_category id (db w))
     (log w ++ DbCategoryDelete id
            :: storage_call (CategoryById.fileKeysToDelete c (images_of id (db w))))).
Proof.
  intros Ha Hc. unfold CategoryById.DELETE. db_run. rewrite Ha, Hc.
  rewrite (category_exists_found _ _ Hc). db_run.
  unfold CategoryById.delete_files_detached, storage_call.
  destruct (CategoryById.fileKeysToDelete c (images_of id (db w))) as [|k ks];
    db_run; [reflexivity|].
  now rewrite <- app_assoc.
Qed.

End DeleteFacts.

(* ================================================================== *)
(** * The keys an update schedules for deletion *)
(* ================================================================== *)

Section UpdateKeys.
Import Db Eff Prisma Http Rooms Expected.
Local Open Scope string_scope.

Lemma push_stale_images_flat keys images : forall acc,
  push_stale_images keys images acc = (acc ++ flat_map (stale_key keys) images)%list.
Proof.
  induction images as [|image rest IH]; intros acc; cbn [flat_map].
  - now rewrite app_nil_r.
  - unfold push_stale_images in *. cbn [fold_left]. rewrite IH.
    unfold stale_key at 2. destruct (gi_publicId image) as [k|].
    + destruct (Str.truthy k && negb (has keys k)).
      * now rewrite <- app_assoc.
      * reflexivity.
    + reflexivity.
Qed.

Lemma has_In keys k : has keys k = true <-> In k keys.
Proof.
  unfold has. rewrite existsb_exists. split.
  - intros [x [Hx E]]. apply String.eqb_eq in E. now subst.
  - intros H. exists k. split; [exact H|apply String.eqb_refl].
Qed.

Lemma truthy_nonempty k : Str.truthy k = true <-> k <> "".
Proof. destruct k; simpl; split; congruence. Qed.

Lemma stale_key_In keys image k :
  In k (stale_key keys image) <->
  gi_publicId image = Some k /\ k <> "" /\ ~ In k keys.
Proof.
  unfold stale_key. destruct (gi_publicId image) as [k'|].
  - destruct (Str.truthy k') eqn:T; destruct (has keys k') eqn:Hh; cbn [andb negb In].
    + split; [tauto|]. intros [E [_ N]]. injection E as ->.
      apply N. now apply has_In.
    + split.
      * intros [<-|[]]. repeat split; [now apply truthy_nonempty|].
        intros Hin. apply has_In in Hin. congruence.
      * intros [E _]. injection E as ->. now left.
    + split; [tauto|]. intros [E [N _]]. injection E as ->.
      apply truthy_nonempty in N. congruence.
    + split; [tauto|]. intros [E [N _]]. injection E as ->.
      apply truthy_nonempty in N. congruence.
  - simpl. split; [tauto|]. intros [E _]. discriminate.
Qed.

Lemma push_old_video_spec stored new acc :
  push_old_video VideoKey.patterns_PUT stored new acc =
  (acc ++ old_video_key stored new)%list.
Proof.
  unfold push_old_video, old_video_key.
  destruct stored as [url|]; [|now rewrite app_nil_r].
  destruct (Str.is_blank url) eqn:B.
  - rewrite (videoKey_blank _ B). rewrite andb_false_r. now rewrite app_nil_r.
  - assert (T : Str.truthy url = true).
    { destruct url; [discriminate B|reflexivity]. }
    rewrite T. cbn [andb negb].
    destruct new as [n|].
    + destruct (String.eqb url n); cbn [negb].
      * destruct (VideoKey.videoKey VideoKey.patterns_PUT url); now rewrite app_nil_r.
      * destruct (VideoKey.videoKey VideoKey.patterns_PUT url);
          [reflexivity|now rewrite app_nil_r].
    + cbn [negb].
      destruct (VideoKey.videoKey VideoKey.patterns_PUT url);
        [reflexivity|now rewrite app_nil_r].
Qed.

Lemma old_video_key_In stored new k :
  In k (old_video_key stored new) <->
  exists url, stored = Some url /\ new <> Some url /\
              VideoKey.videoKey VideoKey.patterns_PUT url = Some k.
Proof.
  unfold old_video_key. destruct stored as [url|].
  - destruct (VideoKey.videoKey VideoKey.patterns_PUT url) as [key|] eqn:K.
    + destruct new as [n|].
      * destruct (String.eqb url n) eqn:E.
        -- apply String.eqb_eq in E. subst n. split; [intros []|].
           intros [u [Hu [Hn _]]]. injection Hu as <-. congruence.
        -- apply String.eqb_neq in E. split.
           ++ intros [<-|[]]. exists url. repeat split; congruence.
           ++ intros [u [Hu [_ Hk]]]. injection Hu as <-. left. congruence.
      * split.
        -- intros [<-|[]]. exists url. repeat split; congruence.
        -- intros [u [Hu [_ Hk]]]. injection Hu as <-. left. congruence.
    + split; [intros []|]. intros [u [Hu [_ Hk]]]. injection Hu as <-. congruence.
  - split; [intros []|]. intros [u [Hu _]]. discriminate.
Qed.

Lemma old_video_key_same stored : old_video_key stored stored = [].
Proof.
  unfold old_video_key. destruct stored as [url|]; [|reflexivity].
  rewrite String.eqb_refl. now destruct (VideoKey.videoKey _ url).
Qed.

End UpdateKeys.


(* ================================================================== *)
(** * The image rows of an updated room *)
(* ================================================================== *)

Section UpdateImages.
Import Db Eff Prisma Http Rooms Expected.
Local Open Scope string_scope.

Lemma filter_not_owned id l :
  filter (owned_by id) (filter (fun i => negb (owned_by id i)) l) = [].
Proof.
  induction l as [|x t IH]; [reflexivity|]. cbn [filter].
  destruct (owned_by id x) eqn:E; cbn [negb filter]; [exact IH|].
  now rewrite E.
Qed.

Lemma owned_by_self id row : gi_categoryId row = Some id -> owned_by id row = true.
Proof. unfold owned_by. intros ->. apply Z.eqb_refl. Qed.

Lemma filter_image_rows id l : forall next,
  filter (owned_by id) (image_rows next (Some id) l) = image_rows next (Some id) l.
Proof.
  induction l as [|x t IH]; intros next; [reflexivity|].
  cbn [image_rows filter]. rewrite owned_by_self by reflexivity. now rewrite IH.
Qed.

Lemma image_rows_length owner l : forall next,
  List.length (image_rows next owner l) = List.length l.
Proof. induction l; intros; simpl; auto. Qed.

Lemma mapi_from_length {A B} (f : A -> nat -> B) l : forall i,
  List.length (mapi_from f i l) = List.length l.
Proof. induction l; intros; simpl; auto. Qed.

Lemma images_create_length title images :
  List.length (images_create title images) = List.length images.
Proof. apply mapi_from_length. Qed.


(** Reading entries that are all objects gives the objects. *)
Lemma objects_read images w : objects (map Some images) w = (Ok images, w).
Proof.
  induction images as [|m ms IH]; [reflexivity|].
  cbn [map objects object_of]. eff_run. now rewrite IH.
Qed.

(** Reading entries throws at the first [null] and changes nothing. *)
Lemma objects_outcome entries w :
  (exists images, entries = map Some images /\ objects entries w = (Ok images, w)) \/
  (In None entries /\ objects entries w = (Threw type_error, w)).
Proof.
  induction entries as [|entry more IH].
  - left. now exists [].
  - destruct entry as [m|].
    + cbn [objects object_of]. eff_run.
      destruct IH as [[images [E R]]|[N R]]; rewrite R.
      * left. exists (m :: images). split; [now rewrite E|reflexivity].
      * right. split; [now right|reflexivity].
    + right. split; [now left|reflexivity].
Qed.

Lemma submitted_read data images w :
  images_are data images -> submitted (rb_images data) w = (Ok images, w).
Proof.
  intros [E|[E ->]]; rewrite E; cbn [submitted]; [apply objects_read|reflexivity].
Qed.

Lemma newVideoUrl_read data videoUrl w :
  video_is data videoUrl -> newVideoUrl (rb_videos data) w = (Ok videoUrl, w).
Proof.
  destruct videoUrl as [url|]; cbn [video_is].
  - intros [video [more [E <-]]]. now rewrite E.
  - intros [E|E]; now rewrite E.
Qed.

(** The new video URL is read without effect, or throws without effect
    when the first entry is [null]. *)
Lemma newVideoUrl_outcome data w :
  (exists videoUrl, video_is data videoUrl /\
                    newVideoUrl (rb_videos data) w = (Ok videoUrl, w)) \/
  ((exists more, rb_videos data = Some (None :: more)) /\
   newVideoUrl (rb_videos data) w = (Threw type_error, w)).
Proof.
  destruct (rb_videos data) as [[|[video|] more]|] eqn:E.
  - left. exists None. split; [now right|reflexivity].
  - left. exists (Some (m_url video)). split; [|reflexivity].
    cbn [video_is]. now exists video, more.
  - right. split; [now exists more|reflexivity].
  - left. exists None. split; [now left|reflexivity].
Qed.

Lemma submitted_outcome data w :
  (exists images, images_are data images /\
                  submitted (rb_images data) w = (Ok images, w)) \/
  ((exists entries, rb_images data = Some entries /\ In None entries) /\
   submitted (rb_images data) w = (Threw type_error, w)).
Proof.
  unfold images_are. destruct (rb_images data) as [entries|] eqn:E; cbn [submitted].
  - destruct (objects_outcome entries w) as [[images [Ei R]]|[N R]].
    + left. exists images. split; [left; now rewrite Ei|exact R].
    + right. split; [now exists entries|exact R].
  - left. exists []. split; [now right|reflexivity].
Qed.

(** The store and the trace after a room update that reaches its
    writes. *)
Lemma rooms_PUT_existing env w data id title existingRoom images videoUrl :
  body_id data = Some id ->
  rb_title data = Some title ->
  find_category id (db w) = Some existingRoom ->
  images_are data images ->
  video_is data videoUrl ->
  let d := db w in
  let keys := fileKeysToDelete_PUT existingRoom (images_of id d) images videoUrl in
  let kept := filter (fun i => negb (owned_by id i)) (Db.images d) in
  let children := image_rows (next_image_id d) (Some id)
                    (images_create title images) in
  let row := row_of id (room_data (Slug.slug title) title data videoUrl) in
  Rooms.PUT env (Some data) w =
  if slug_taken (Slug.slug title) (Some id) d then
    (Ok (mkResponse 500 (JsonError "Failed to update room")),
     mkWorld (Db.mk (categories d) kept (prices d) (next_category_id d)
                (next_image_id d) (next_price_id d))
       (log w ++ storage_call keys ++ [DbImageDeleteMany id]))
  else
    let d' := Db.mk (replace_category row (categories d)) (kept ++ children)
                (prices d) (next_category_id d)
                (next_image_id d
                 + Z.of_nat (List.length (images_create title images)))
                (next_price_id d) in
    (Ok (mkResponse 200 (JsonRoom (view_of d' row))),
     mkWorld d'
       (log w ++ storage_call keys ++ [DbImageDeleteMany id; DbCategoryUpdate id])).
Proof.
  intros Hid Ht Hc Hi Hv. cbv zeta.
  unfold Rooms.PUT. db_run. rewrite (@newVideoUrl_read data videoUrl w Hv), Hid.
  unfold required_title. rewrite Ht. db_run.
  rewrite Hc.
  rewrite (@submitted_read data images _ Hi), (@newVideoUrl_read data videoUrl _ Hv).
  rewrite delete_files_first_spec. db_run.
  unfold category_exists, find_category, slug_taken in *. cbn [categories].
  rewrite Hc. cbn [or_else room_data cd_slug].
  destruct (existsb _ (categories (db w))); db_run.
  - now rewrite <- app_assoc.
  - rewrite <- !app_assoc. reflexivity.
Qed.

(** An update that cannot read its entries, or finds no id, title or
    room, answers without any effect. *)
Lemma rooms_PUT_refused env w data :
  (exists more, rb_videos data = Some (None :: more)) \/
  body_id data = None \/
  rb_title data = None \/
  (exists id, body_id data = Some id /\ find_category id (db w) = None) \/
  (exists entries, rb_images data = Some entries /\ In None entries) ->
  snd (Rooms.PUT env (Some data) w) = w.
Proof.
  intros H. unfold Rooms.PUT. db_run.
  destruct (newVideoUrl_outcome data w) as [[videoUrl [Hv R]]|[_ R]];
    rewrite R; [|reflexivity].
  destruct (body_id data) as [id|] eqn:Hid; [|reflexivity].
  unfold required_title. destruct (rb_title data) as [title|] eqn:Ht; [|reflexivity].
  db_run. destruct (find_category id (db w)) as [c|] eqn:Hc; [|reflexivity].
  destruct (submitted_outcome data w) as [[images [Hi Ri]]|[_ Ri]];
    rewrite Ri; [|reflexivity].
  exfalso. destruct H as [[more E]|[E|[E|[[id' [E Hn]]|[entries [E N]]]]]].
  - destruct videoUrl as [url|]; cbn [video_is] in Hv.
    + destruct Hv as [video [more' [E' _]]]. congruence.
    + destruct Hv as [E'|E']; congruence.
  - discriminate.
  - discriminate.
  - injection E as <-. congruence.
  - destruct Hi as [Ei|[Ei _]]; [|congruence].
    rewrite E in Ei. injection Ei as ->. apply in_map_iff in N.
    destruct N as [m [Hm _]]. discriminate.
Qed.



Lemma body_id_of data id : rb_id data = Some id -> id <> 0%Z -> body_id data = Some id.
Proof.
  intros E N. unfold body_id. rewrite E.
  destruct (Z.eqb_spec id 0); [contradiction|reflexivity].
Qed.

Lemma video_is_found data :
  (forall more, rb_videos data <> Some (None :: more)) ->
  exists videoUrl, video_is data videoUrl.
Proof.
  intros H. destruct (rb_videos data) as [[|[video|] more]|] eqn:E.
  - exists None. now right.
  - exists (Some (m_url video)). cbn [video_is]. now exists video, more.
  - now destruct (H more).
  - exists None. now left.
Qed.

End UpdateImages.




(** C4.  For an update that reaches its storage step (it names an
    existing room, has a title, and none of its image entries nor its
    first video is [null]), the one storage deletion the handler issues,
    before its first write to the store, carries exactly: the keys of
    the room's existing images that the payload's image list does not
    mention, and the key extracted from the stored video URL when that
    URL is not the URL of the payload's first video (a payload without
    a video included).  When the payload's first video has the stored
    URL, no video key is scheduled.  The handler makes no other storage
    call. *)
Theorem update_schedules_replaced_files
  (env : Http.Env) (w : Eff.World) (data : Rooms.RoomBody) (id : Z)
  (title : string) (existingRoom : Db.HotelCategory)
  (images : list Rooms.Media) (newVideoUrl : option string) :
  Rooms.rb_id data = Some id -> id <> 0%Z ->
  Rooms.rb_title data = Some title ->
  Db.find_category id (Eff.db w) = Some existingRoom ->
  Rooms.rb_images data = Some (map Some images) \/
  (Rooms.rb_images data = None /\ images = []) ->
  match newVideoUrl with
  | Some url =>
      exists video more,
        Rooms.rb_videos data = Some (Some video :: more) /\ Rooms.m_url video = url
  | None => Rooms.rb_videos data = None \/ Rooms.rb_videos data = Some []
  end ->
  let existingImages := Db.images_of id (Eff.db w) in
  let listed := map Rooms.m_publicId images in
  exists (scheduled : list string) (events : list Eff.Event),
    Eff.log (snd (Rooms.PUT env (Some data) w))
    = (Eff.log w
       ++ match scheduled with
          | [] => []
          | _ :: _ => [Eff.StorageDeleteFiles scheduled]
          end
       ++ Eff.DbImageDeleteMany id :: events)%list /\
    (forall e, In e events -> e = Eff.DbCategoryUpdate id) /\
    (forall k : string,
       In k scheduled <->
       (exists image, In image existingImages /\ Db.gi_publicId image = Some k /\
                      k <> ""%string /\ ~ In k listed) \/
       (exists url, Db.hc_videoUrl existingRoom = Some url /\
                    newVideoUrl <> Some url /\
                    VideoKey.videoKey VideoKey.patterns_PUT url = Some k)) /\
    scheduled
    = (flat_map (Expected.stale_key listed) existingImages
       ++ Expected.old_video_key (Db.hc_videoUrl existingRoom) newVideoUrl)%list /\
    (Db.hc_videoUrl existingRoom = newVideoUrl ->
     scheduled = flat_map (Expected.stale_key listed) existingImages).
Proof.
  intros Hid Hz Ht Hc Hi Hv existingImages listed.
  set (scheduled := Rooms.fileKeysToDelete_PUT existingRoom existingImages images
                      newVideoUrl).
  assert (E : scheduled =
              (flat_map (Expected.stale_key listed) existingImages
               ++ Expected.old_video_key (Db.hc_videoUrl existingRoom) newVideoUrl)%list).
  { unfold scheduled, Rooms.fileKeysToDelete_PUT.
    rewrite push_old_video_spec, push_stale_images_flat. reflexivity. }
  rewrite (@rooms_PUT_existing env w data id title existingRoom images newVideoUrl
             (body_id_of data Hid Hz) Ht Hc Hi Hv).
  cbv zeta. fold existingImages. fold scheduled.
  exists scheduled.
  exists (if Db.slug_taken (Slug.slug title) (Some id) (Eff.db w)
          then [] else [Eff.DbCategoryUpdate id]).
  split; [|split; [|split; [|split]]].
  - destruct (Db.slug_taken (Slug.slug title) (Some id) (Eff.db w));
      cbn [snd Eff.log]; unfold Http.storage_call; reflexivity.
  - destruct (Db.slug_taken (Slug.slug title) (Some id) (Eff.db w));
      [intros e []|intros e [<-|[]]; reflexivity].
  - intros k. rewrite E, in_app_iff, in_flat_map, old_video_key_In.
    split; (intros [H|H]; [left|right; exact H]).
    + destruct H as [image [Hin Hk]]. exists image. split; [exact Hin|].
      now apply stale_key_In.
    + destruct H as [image [Hin Hk]]. exists image. split; [exact Hin|].
      now apply stale_key_In.
  - exact E.
  - intros Hsame. rewrite E, Hsame, old_video_key_same. apply app_nil_r.
Qed.

(** The second room of the sample store, first with its image and its
    video replaced, then with its image replaced and its video sent
    back: the storage call carries the image key and the video key, then
    the image key alone. *)
Lemma update_schedules_replaced_files_example :
  (exists events,
     Eff.log (snd (Rooms.PUT Sample.admin (Some Sample.suite_edit) Sample.two_rooms))
     = Eff.StorageDeleteFiles ["k2"%string; "VID1"%string]
       :: Eff.DbImageDeleteMany 2 :: events) /\
  (exists events,
     Eff.log (snd (Rooms.PUT Sample.admin (Some Sample.suite_same_video)
                     Sample.two_rooms))
     = Eff.StorageDeleteFiles ["k2"%string]
       :: Eff.DbImageDeleteMany 2 :: events).
Proof.
  split.
  - destruct (@update_schedules_replaced_files Sample.admin Sample.two_rooms
                Sample.suite_edit 2%Z "Suite"%string Sample.suite_row
                [Rooms.mkMedia "u3" "k3"] (Some "https://utfs.io/f/VID2"%string)
                eq_refl ltac:(discriminate) eq_refl eq_refl
                (or_introl eq_refl)
                (ex_intro _ (Rooms.mkMedia "https://utfs.io/f/VID2" "")
                   (ex_intro _ [] (conj eq_refl eq_refl))))
      as [scheduled [events [L [_ [_ [S _]]]]]].
    exists events. rewrite L, S. reflexivity.
  - destruct (@update_schedules_replaced_files Sample.admin Sample.two_rooms
                Sample.suite_same_video 2%Z "Suite"%string Sample.suite_row
                [Rooms.mkMedia "u3" "k3"] (Some "https://utfs.io/f/VID1"%string)
                eq_refl ltac:(discriminate) eq_refl eq_refl
                (or_introl eq_refl)
                (ex_intro _ (Rooms.mkMedia "https://utfs.io/f/VID1" "")
                   (ex_intro _ [] (conj eq_refl eq_refl))))
      as [scheduled [events [L [_ [_ [S _]]]]]].
    exists events. rewrite L, S. reflexivity.
Defined.

(* ================================================================== *)
(** * Price tiers of a category *)
(* ================================================================== *)

Section PriceFacts.
Import Db Eff Prisma Http CategoryById.
Local Open Scope string_scope.

Lemma unauthorized_or_world message e w :
  snd (unauthorized_or message e w) = w.
Proof. unfold unauthorized_or. destruct (is_unauthorized e); reflexivity. Qed.

(** The category step of the transaction never touches the price table. *)
Lemma hotelCategory_patch_prices id p w :
  Db.prices (db (snd (hotelCategory_patch id p w))) = Db.prices (db w).
Proof.
  unfold hotelCategory_patch. db_run.
  destruct (find_category id (db w)); [|reflexivity].
  destruct (slug_taken _ _ _); reflexivity.
Qed.

Lemma PUT_without_prices_array env param request w :
  (forall body tiers, request = Some body -> prices body <> PricesArray tiers) ->
  Db.prices (db (snd (PUT env param request w))) = Db.prices (db w).
Proof.
  intros Hno. unfold PUT. eff_run.
  destruct (admin_session env); eff_run; [|now rewrite unauthorized_or_world].
  destruct request as [body|]; eff_run; [|now rewrite unauthorized_or_world].
  unfold validate. eff_run.
  destruct (cleanCategoryData (categoryData body)) as [|entry more] eqn:Hclean;
    eff_run.
  - destruct (prices body) eqn:Hp; try (exfalso; eapply Hno; eauto; fail);
      destruct param; eff_run; rewrite ?unauthorized_or_world; reflexivity.
  - destruct (categoryUpdateSchema_parse env (entry :: more)) as [patch|];
      eff_run; [|now rewrite unauthorized_or_world].
    destruct param as [|id]; eff_run; [now rewrite unauthorized_or_world|].
    pose proof (hotelCategory_patch_prices id patch w) as Hpatch.
    destruct (hotelCategory_patch id patch w) as [[[]|e] w1]; cbn [snd] in Hpatch;
      eff_run.
    + destruct (prices body) eqn:Hp; try (exfalso; eapply Hno; eauto; fail);
        eff_run; exact Hpatch.
    + now rewrite unauthorized_or_world.
Qed.

End PriceFacts.

(** C9. A category update whose body carries no price array leaves the
    price table as it was, whatever else the request does (rejected,
    failed or committed): no tier of any category is deleted or
    recreated. *)
Theorem update_without_price_array_keeps_prices
  (env : Http.Env) (param : Prisma.IntParam)
  (request : option CategoryById.CategoryBody) (w : Eff.World) :
  (forall body tiers,
     request = Some body ->
     CategoryById.prices body <> CategoryById.PricesArray tiers) ->
  let after := Eff.db (snd (CategoryById.PUT env param request w)) in
  Db.prices after = Db.prices (Eff.db w) /\
  forall id, Db.prices_of id after = Db.prices_of id (Eff.db w).
Proof.
  intros Hno after. subst after.
  pose proof (PUT_without_prices_array env param w Hno) as E.
  split; [exact E|]. intros id. unfold Db.prices_of. now rewrite E.
Qed.

Section PriceReplacement.
Import Db Eff Prisma Http CategoryById Expected.
Local Open Scope string_scope.

Lemma insert_by_hours_perm p l : Permutation (insert_by_hours p l) (p :: l).
Proof.
  induction l as [|q t IH]; cbn [insert_by_hours]; [reflexivity|].
  destruct (Z.leb _ _); [reflexivity|].
  rewrite IH. apply perm_swap.
Qed.

Lemma order_by_hours_perm l : Permutation (order_by_hours l) l.
Proof.
  induction l as [|p t IH]; [reflexivity|].
  unfold order_by_hours in *. cbn [fold_right].
  rewrite insert_by_hours_perm. now constructor.
Qed.

Lemma insert_by_hours_sorted p l :
  StronglySorted by_hours l -> StronglySorted by_hours (insert_by_hours p l).
Proof.
  induction l as [|q t IH]; intros Hs; cbn [insert_by_hours].
  - repeat constructor.
  - inversion Hs as [|? ? Ht Hq]; subst.
    destruct (Z.leb_spec (pr_hourlyHours p) (pr_hourlyHours q)) as [Hle|Hgt].
    + constructor; [exact Hs|]. constructor; [exact Hle|].
      eapply Forall_impl; [|exact Hq]. unfold by_hours. intros; lia.
    + constructor; [now apply IH|].
      apply (Permutation_Forall (Permutation_sym (insert_by_hours_perm p t))).
      constructor; [unfold by_hours; lia|exact Hq].
Qed.

Lemma order_by_hours_sorted l : StronglySorted by_hours (order_by_hours l).
Proof.
  induction l as [|p t IH]; [constructor|].
  unfold order_by_hours in *. cbn [fold_right]. now apply insert_by_hours_sorted.
Qed.

Lemma filter_not_priced id l :
  filter (priced_for id) (filter (fun p => negb (priced_for id p)) l) = [].
Proof.
  induction l as [|x t IH]; [reflexivity|]. cbn [filter].
  destruct (priced_for id x) eqn:E; cbn [negb filter]; [exact IH|].
  now rewrite E.
Qed.

Lemma filter_price_rows id l : forall next,
  filter (priced_for id) (price_rows next id l) = price_rows next id l.
Proof.
  induction l as [|x t IH]; intros next; [reflexivity|].
  cbn [price_rows filter]. unfold priced_for at 1. cbn [pr_categoryId].
  rewrite Z.eqb_refl. now rewrite IH.
Qed.

Lemma price_rows_length id l : forall next,
  List.length (price_rows next id l) = List.length l.
Proof. induction l; intros; simpl; auto. Qed.

Lemma replace_prices_run id tiers w out w' :
  replace_prices (Int id) (PricesArray tiers) w = (out, w') ->
  out = Ok tt ->
  prices_of id (db w') = replaced (db w) id tiers /\
  categories (db w') = categories (db w) /\ images (db w') = images (db w).
Proof.
  unfold replace_prices, replaced. db_run.
  destruct (limitedPrices tiers) as [|t0 ts] eqn:L.
  - intros E _. injection E as _ <-. cbn [map price_rows db].
    unfold prices_of. cbn [Db.prices categories images].
    now rewrite filter_not_priced.
  - unfold category_exists, find_category. cbn [categories db].
    destruct (find _ (categories (db w))); cbn [negb].
    + intros E _. injection E as _ <-. unfold prices_of.
      cbn [db Db.prices categories images next_price_id].
      rewrite filter_app, filter_not_priced.
      split; [|split; reflexivity].
      exact (filter_price_rows id (map price_data (t0 :: ts)) (next_price_id (db w))).
    + intros E ->. injection E as E _. discriminate E.
Qed.

Lemma hotelCategory_patch_run id p w w' :
  hotelCategory_patch id p w = (Ok tt, w') ->
  Db.prices (db w') = Db.prices (db w) /\
  next_price_id (db w') = next_price_id (db w) /\
  images (db w') = images (db w).
Proof.
  unfold hotelCategory_patch. db_run.
  destruct (find_category id (db w)); [|discriminate].
  destruct (slug_taken _ _ _); [discriminate|].
  intros E. injection E as <-. cbn. auto.
Qed.

Lemma unauthorized_or_status message e w resp :
  fst (unauthorized_or message e w) = Ok resp -> status resp <> 200.
Proof.
  unfold unauthorized_or. destruct (is_unauthorized e); cbn; intros E;
    injection E as <-; cbn; discriminate.
Qed.

End PriceReplacement.

Section PricePut.
Import Db Eff Prisma Http CategoryById Expected.
Local Open Scope string_scope.

Lemma replaced_length d id tiers :
  List.length (replaced d id tiers) = Nat.min (List.length tiers) 4.
Proof.
  unfold replaced, limitedPrices.
  rewrite price_rows_length, length_map, length_firstn. lia.
Qed.

Lemma price_rows_fields id l : forall next,
  map (fun p => (pr_hourlyHours p, pr_rateCents p, pr_label p, pr_categoryId p))
      (price_rows next id l)
  = map (fun x => (pd_hourlyHours x, pd_rateCents x, pd_label x, id)) l.
Proof.
  induction l as [|x t IH]; intros next; [reflexivity|].
  cbn [price_rows map]. now rewrite IH.
Qed.

(** What the transaction of PUT leaves behind when it commits with a
    price array in the body. *)
Lemma PUT_prices_committed env id data tiers w resp :
  let result := PUT env (Int id) (Some (mkCategoryBody (PricesArray tiers) data)) w in
  fst result = Ok resp ->
  status resp = 200 ->
  prices_of id (db (snd result)) = replaced (db w) id tiers /\
  body resp = JsonCategory
                (match find_category id (db (snd result)) with
                 | Some c => Some (mkView c (images_of id (db (snd result)))
                                     (order_by_hours (prices_of id (db (snd result)))))
                 | None => None
                 end).
Proof.
  cbv zeta. unfold PUT. eff_run. cbn [prices categoryData].
  destruct (admin_session env); eff_run;
    [|intros E S; now apply unauthorized_or_status in E].
  unfold validate.
  destruct (cleanCategoryData data) as [|entry more]; eff_run.
  - destruct (replace_prices (Int id) (PricesArray tiers) w) as [[[]|e] w2] eqn:R; eff_run.
    + unfold read_back. eff_run. intros E _. injection E as <-.
      destruct (replace_prices_run _ _ _ R eq_refl) as [Hp _].
      split; [exact Hp|reflexivity].
    + intros E S; now apply unauthorized_or_status in E.
  - destruct (categoryUpdateSchema_parse env (entry :: more)) as [patch|]; eff_run;
      [|intros E S; now apply unauthorized_or_status in E].
    destruct (hotelCategory_patch id patch w) as [[[]|e] w1] eqn:P; eff_run;
      [|intros E S; now apply unauthorized_or_status in E].
    destruct (replace_prices (Int id) (PricesArray tiers) w1) as [[[]|e] w2] eqn:R; eff_run.
    + unfold read_back. eff_run. intros E _. injection E as <-.
      destruct (replace_prices_run _ _ _ R eq_refl) as [Hp _].
      destruct (hotelCategory_patch_run _ _ _ P) as [_ [Hn _]].
      split; [|reflexivity]. rewrite Hp. unfold replaced. now rewrite Hn.
    + intros E S; now apply unauthorized_or_status in E.
Qed.

Lemma replace_prices_ok id tiers w c :
  find_category id (db w) = Some c ->
  exists w', replace_prices (Int id) (PricesArray tiers) w = (Ok tt, w') /\
             find_category id (db w') = Some c.
Proof.
  intros Hc. unfold replace_prices. db_run.
  destruct (limitedPrices tiers) as [|t0 ts].
  - eexists. split; [reflexivity|]. exact Hc.
  - unfold category_exists, find_category in *. cbn [categories db].
    rewrite Hc. cbn [negb]. eexists. split; [reflexivity|]. exact Hc.
Qed.

(** A price-only submission for an existing category commits. *)
Lemma PUT_prices_only_succeeds env id data tiers w c :
  admin_session env = true ->
  cleanCategoryData data = [] ->
  find_category id (db w) = Some c ->
  exists view,
    fst (PUT env (Int id) (Some (mkCategoryBody (PricesArray tiers) data)) w)
    = Ok (mkResponse 200 (JsonCategory (Some view))).
Proof.
  intros Ha Hclean Hc. unfold PUT. eff_run. cbn [prices categoryData].
  rewrite Ha, Hclean. unfold validate. eff_run.
  destruct (replace_prices_ok id tiers w Hc) as [w' [R Hc']]. rewrite R. eff_run.
  unfold read_back. eff_run. rewrite Hc'. eexists. reflexivity.
Qed.

Lemma GET_existing env id w c :
  admin_session env = true ->
  find_category id (db w) = Some c ->
  GET env (Int id) w =
  (Ok (mkResponse 200
         (JsonCategory (Some (mkView c (images_of id (db w))
                                (order_by_hours (prices_of id (db w))))))),
   w).
Proof.
  intros Ha Hc. unfold GET. eff_run. rewrite Ha. unfold read_back. eff_run.
  now rewrite Hc.
Qed.

End PricePut.

(** C6.  Whenever an update that carries a price array commits, the
    category's Price rows are exactly the first four submitted tiers
    (all of them when fewer were submitted), in submission order: row
    [k] holds the hours and the rate of tier [k], its label when that is
    a non-empty string and no label otherwise, and belongs to the
    category -- so [min n 4] rows, never more than four -- and the
    category returned lists them by ascending [hourlyHours]; a
    price-only submission by an admin for an existing category does
    commit, and reading the category back afterwards shows the same
    ordered rows. *)
Theorem price_replacement_keeps_first_four
  (env : Http.Env) (id : Z) (data : list (string * Http.Json))
  (tiers : list CategoryById.PriceInput) (w : Eff.World) :
  let request :=
    Some (CategoryById.mkCategoryBody (CategoryById.PricesArray tiers) data) in
  let result := CategoryById.PUT env (Prisma.Int id) request w in
  let persisted := Db.prices_of id (Eff.db (snd result)) in
  (forall resp,
     fst result = Eff.Ok resp -> Http.status resp = 200 ->
     map (fun p => (Db.pr_hourlyHours p, Db.pr_rateCents p, Db.pr_label p,
                    Db.pr_categoryId p)) persisted
     = map (fun t => (CategoryById.pi_hourlyHours t, CategoryById.pi_rateCents t,
                      match CategoryById.pi_label t with
                      | Some (String c s) => Some (String c s)
                      | _ => None
                      end,
                      id))
           (firstn 4 tiers) /\
     (forall k row,
        nth_error persisted k = Some row ->
        k < 4 /\
        exists tier,
          nth_error tiers k = Some tier /\
          Db.pr_hourlyHours row = CategoryById.pi_hourlyHours tier /\
          Db.pr_rateCents row = CategoryById.pi_rateCents tier) /\
     List.length persisted = Nat.min (List.length tiers) 4 /\
     List.length persisted <= 4 /\
     forall view,
       Http.body resp = Http.JsonCategory (Some view) ->
       StronglySorted Expected.by_hours (Http.cv_prices view) /\
       Permutation (Http.cv_prices view) persisted) /\
  (Http.admin_session env = true ->
   CategoryById.cleanCategoryData data = [] ->
   forall c, Db.find_category id (Eff.db w) = Some c ->
   (exists view,
      fst result = Eff.Ok (Http.mkResponse 200 (Http.JsonCategory (Some view)))) /\
   (exists view,
      fst (CategoryById.GET env (Prisma.Int id) (snd result))
      = Eff.Ok (Http.mkResponse 200 (Http.JsonCategory (Some view))) /\
      StronglySorted Expected.by_hours (Http.cv_prices view) /\
      Permutation (Http.cv_prices view) persisted)).
Proof.
  intros request result persisted. subst persisted result request. split.
  - intros resp E S.
    destruct (PUT_prices_committed env id data tiers w E S) as [Hp Hbody].
    assert (Hfields :
              map (fun p => (Db.pr_hourlyHours p, Db.pr_rateCents p, Db.pr_label p,
                             Db.pr_categoryId p))
                  (Db.prices_of id
                     (Eff.db (snd (CategoryById.PUT env (Prisma.Int id)
                                     (Some (CategoryById.mkCategoryBody
                                              (CategoryById.PricesArray tiers) data))
                                     w))))
              = map (fun t => (CategoryById.pi_hourlyHours t,
                               CategoryById.pi_rateCents t,
                               match CategoryById.pi_label t with
                               | Some (String c s) => Some (String c s)
                               | _ => None
                               end,
                               id))
                    (firstn 4 tiers)).
    { rewrite Hp. unfold Expected.replaced, CategoryById.limitedPrices.
      rewrite price_rows_fields, map_map. apply map_ext. intros t.
      unfold CategoryById.price_data.
      cbn [Prisma.pd_hourlyHours Prisma.pd_rateCents Prisma.pd_label].
      destruct (CategoryById.pi_label t) as [[|c l]|]; reflexivity. }
    split; [exact Hfields|]. split; [|split; [|split]].
    + intros k row Hk.
      assert (Hm := map_nth_error
                      (fun p => (Db.pr_hourlyHours p, Db.pr_rateCents p, Db.pr_label p,
                                 Db.pr_categoryId p)) k _ Hk).
      rewrite Hfields in Hm.
      destruct (nth_error (firstn 4 tiers) k) as [tier|] eqn:Ht.
      * rewrite (map_nth_error _ k _ Ht) in Hm. injection Hm as Hh Hr _.
        assert (Hlt : k < List.length (firstn 4 tiers))
          by (apply nth_error_Some; congruence).
        rewrite length_firstn in Hlt.
        split; [lia|]. exists tier.
        split; [|split; congruence].
        rewrite nth_error_firstn in Ht.
        destruct (Nat.ltb_spec k 4); [exact Ht|lia].
      * apply nth_error_None in Ht. rewrite <- (length_map
          (fun t => (CategoryById.pi_hourlyHours t, CategoryById.pi_rateCents t,
                     match CategoryById.pi_label t with
                     | Some (String c s) => Some (String c s)
                     | _ => None
                     end, id))) in Ht.
        apply nth_error_None in Ht. congruence.
    + rewrite Hp. apply replaced_length.
    + rewrite Hp, replaced_length. lia.
    + intros view Hv. rewrite Hbody in Hv.
      match type of Hv with
      | context [Db.find_category ?i ?d] => destruct (Db.find_category i d)
      end; [|discriminate].
      injection Hv as <-. cbn [Http.cv_prices].
      split; [apply order_by_hours_sorted|apply order_by_hours_perm].
  - intros Ha Hclean c Hc.
    destruct (PUT_prices_only_succeeds env id data tiers w Ha Hclean Hc) as [view Hv].
    split; [now exists view|].
    destruct (PUT_prices_committed env id data tiers w Hv eq_refl) as [_ Hbody].
    cbn [Http.body] in Hbody.
    match type of Hbody with
    | context [Db.find_category ?i ?d] =>
        destruct (Db.find_category i d) as [c'|] eqn:Hc'
    end; [|discriminate].
    rewrite (GET_existing env id _ Ha Hc'). cbn [fst].
    eexists. split; [reflexivity|]. cbn [Http.cv_prices].
    split; [apply order_by_hours_sorted|apply order_by_hours_perm].
Qed.

(** Price truncation: seven submitted tiers leave four rows, the first
    four tiers with their hours and rates. *)
Lemma price_replacement_example :
  let result :=
    CategoryById.PUT Sample.admin (Prisma.Int 1)
      (Some (CategoryById.mkCategoryBody
               (CategoryById.PricesArray Sample.seven_tiers) []))
      Sample.seeded in
  (exists view,
     fst result = Eff.Ok (Http.mkResponse 200 (Http.JsonCategory (Some view)))) /\
  map (fun p => (Db.pr_hourlyHours p, Db.pr_rateCents p, Db.pr_label p,
                 Db.pr_categoryId p))
      (Db.prices_of 1 (Eff.db (snd result)))
  = [(24, 24000, None, 1); (2, 2000, None, 1); (12, 12000, None, 1);
     (4, 4000, None, 1)]%Z.
Proof.
  cbv zeta.
  destruct (@price_replacement_keeps_first_four Sample.admin 1%Z []
              Sample.seven_tiers Sample.seeded) as [A B].
  destruct (B eq_refl eq_refl Sample.deluxe_row eq_refl) as [[view Hv] _].
  split; [now exists view|].
  destruct (A _ Hv eq_refl) as [F _]. exact F.
Defined.

Section Cascade.
Import Db Eff Prisma Http.
Local Open Scope string_scope.

Lemma remove_category_gone id d : find_category id (remove_category id d) = None.
Proof.
  unfold find_category, remove_category. cbn [categories].
  induction (categories d) as [|c t IH]; [reflexivity|]. cbn [filter].
  destruct (Z.eqb (hc_id c) id) eqn:E; cbn [negb find]; [exact IH|].
  now rewrite E.
Qed.

Lemma remove_category_images id d : images_of id (remove_category id d) = [].
Proof. unfold images_of, remove_category. cbn [images]. apply filter_not_owned. Qed.

Lemma remove_category_prices id d : prices_of id (remove_category id d) = [].
Proof. unfold prices_of, remove_category. cbn [Db.prices]. apply filter_not_priced. Qed.

Lemma filter_disjoint {A} (p q : A -> bool) l :
  (forall x, p x = true -> q x = false) ->
  filter p (filter (fun x => negb (q x)) l) = filter p l.
Proof.
  intros D. induction l as [|x t IH]; [reflexivity|]. cbn [filter].
  destruct (q x) eqn:Q; cbn [negb filter].
  - destruct (p x) eqn:P; [|exact IH]. rewrite (D _ P) in Q. discriminate.
  - now rewrite IH.
Qed.

Lemma find_disjoint {A} (p q : A -> bool) l :
  (forall x, p x = true -> q x = false) ->
  find p (filter (fun x => negb (q x)) l) = find p l.
Proof.
  intros D. induction l as [|x t IH]; [reflexivity|]. cbn [filter find].
  destruct (q x) eqn:Q; cbn [negb find].
  - destruct (p x) eqn:P; [|exact IH]. rewrite (D _ P) in Q. discriminate.
  - now rewrite IH.
Qed.

Lemma remove_category_others id d other :
  other <> id ->
  find_category other (remove_category id d) = find_category other d /\
  images_of other (remove_category id d) = images_of other d /\
  prices_of other (remove_category id d) = prices_of other d.
Proof.
  intros N. unfold find_category, images_of, prices_of, remove_category.
  cbn [categories images Db.prices]. repeat split.
  - apply (find_disjoint (fun c => Z.eqb (hc_id c) other)
                         (fun c => Z.eqb (hc_id c) id)).
    intros x Hx. apply Z.eqb_eq in Hx. apply Z.eqb_neq. congruence.
  - apply (filter_disjoint (owned_by other) (owned_by id)).
    intros x. unfold owned_by. destruct (gi_categoryId x); [|discriminate].
    intros Hx. apply Z.eqb_eq in Hx. apply Z.eqb_neq. congruence.
  - apply (filter_disjoint (priced_for other) (priced_for id)).
    intros x. unfold priced_for.
    intros Hx. apply Z.eqb_eq in Hx. apply Z.eqb_neq. congruence.
Qed.

Lemma db_delete_first_after_storage keys id :
  Expected.db_delete_first (storage_call keys ++ [DbCategoryDelete id])
  = match keys with [] => true | _ :: _ => false end.
Proof. now destruct keys. Qed.

End Cascade.

(** C2, as the code has it.  For an existing category both delete
    handlers answer with success and leave the store without the category row
    and without any of its Image and Price rows, every other category
    untouched, whatever the storage service does with the deletion
    (succeed, report failure, reject).  The categories handler deletes
    from the store first and issues the storage deletion afterwards;
    the rooms handler awaits the storage deletion first and deletes
    from the store afterwards. *)
Theorem category_delete_cascades_whatever_storage_does
  (env : Http.Env) (w : Eff.World) (id : Z) (c : Db.HotelCategory) :
  Http.admin_session env = true ->
  Db.find_category id (Eff.db w) = Some c ->
  let d' := Db.remove_category id (Eff.db w) in
  (Db.find_category id d' = None /\ Db.images_of id d' = [] /\
   Db.prices_of id d' = [] /\
   forall other, other <> id ->
     Db.find_category other d' = Db.find_category other (Eff.db w) /\
     Db.images_of other d' = Db.images_of other (Eff.db w) /\
     Db.prices_of other d' = Db.prices_of other (Eff.db w)) /\
  (let result := CategoryById.DELETE env (Prisma.Int id) w in
   fst result
   = Eff.Ok (Http.mkResponse 200
               (Http.JsonSuccessMessage "Category deleted successfully")) /\
   Eff.db (snd result) = d' /\
   Eff.log (snd result)
   = (Eff.log w
      ++ Eff.DbCategoryDelete id
         :: Http.storage_call
              (CategoryById.fileKeysToDelete c (Db.images_of id (Eff.db w))))%list /\
   Expected.db_delete_first
     (Eff.DbCategoryDelete id
      :: Http.storage_call
           (CategoryById.fileKeysToDelete c (Db.images_of id (Eff.db w))))
   = true) /\
  (let result := Rooms.DELETE env (Some (Prisma.Int id)) w in
   fst result
   = Eff.Ok (Http.mkResponse 200 (Http.JsonMessage "Room deleted successfully")) /\
   Eff.db (snd result) = d' /\
   Eff.log (snd result)
   = (Eff.log w
      ++ Http.storage_call
           (Rooms.fileKeysToDelete_DELETE c (Db.images_of id (Eff.db w)))
      ++ [Eff.DbCategoryDelete id])%list /\
   Expected.db_delete_first
     (Http.storage_call
        (Rooms.fileKeysToDelete_DELETE c (Db.images_of id (Eff.db w)))
      ++ [Eff.DbCategoryDelete id])
   = match Rooms.fileKeysToDelete_DELETE c (Db.images_of id (Eff.db w)) with
     | [] => true
     | _ :: _ => false
     end) /\
  (forall env', Http.admin_session env' = true ->
     CategoryById.DELETE env' (Prisma.Int id) w
     = CategoryById.DELETE env (Prisma.Int id) w /\
     Rooms.DELETE env' (Some (Prisma.Int id)) w
     = Rooms.DELETE env (Some (Prisma.Int id)) w).
Proof.
  intros Ha Hc d'. subst d'. split; [|split; [|split]].
  - split; [apply remove_category_gone|].
    split; [apply remove_category_images|].
    split; [apply remove_category_prices|].
    intros other N. now apply remove_category_others.
  - cbv zeta. rewrite (@category_DELETE_existing env w id c Ha Hc). repeat split.
  - cbv zeta. rewrite (@rooms_DELETE_existing env w id c Hc). repeat split.
    apply db_delete_first_after_storage.
  - intros env' Ha'. split.
    + now rewrite (@category_DELETE_existing env w id c Ha Hc),
        (@category_DELETE_existing env' w id c Ha' Hc).
    + now rewrite (@rooms_DELETE_existing env w id c Hc), (@rooms_DELETE_existing env' w id c Hc).
Qed.

(** The hypotheses of C2 hold for the sample category, with the storage
    service down. *)
Lemma category_delete_cascades_example :
  Http.admin_session Sample.admin = true /\
  Db.find_category 1 (Eff.db Sample.seeded) = Some Sample.deluxe_row /\
  fst (CategoryById.DELETE Sample.admin (Prisma.Int 1) Sample.seeded)
  = Eff.Ok (Http.mkResponse 200
              (Http.JsonSuccessMessage "Category deleted successfully")) /\
  Db.prices_of 1 (Db.remove_category 1 (Eff.db Sample.seeded)) = [].
Proof.
  split; [reflexivity|]. split; [reflexivity|].
  pose proof (@category_delete_cascades_whatever_storage_does
                Sample.admin Sample.seeded 1%Z Sample.deluxe_row eq_refl eq_refl) as H.
  cbv zeta in H. destruct H as [[_ [_ [Hp _]]] [[Hr _] _]].
  split; [exact Hr|exact Hp].
Defined.

(** Against C2 as the design document states it: deleting the sample
    room calls the storage service before the row leaves the store. *)
Lemma rooms_delete_calls_storage_first :
  Eff.log (snd (Rooms.DELETE Sample.admin (Some (Prisma.Int 1)) Sample.seeded))
  = [Eff.StorageDeleteFiles ["k1"%string]; Eff.DbCategoryDelete 1] /\
  Expected.db_delete_first
    (Eff.log (snd (Rooms.DELETE Sample.admin (Some (Prisma.Int 1)) Sample.seeded)))
  = false.
Proof. split; reflexivity. Qed.
(* ================================================================== *)
(** * The fetch wrapper *)
(* ================================================================== *)

Section FetchFacts.
Import Eff ApiClient.
Local Open Scope Z_scope.

Variable network : Z -> FetchOutcome.
Variable retryDelay : Z.

Lemma spaced_cons k from :
  spaced (S (S k)) from retryDelay =
  FetchCall from :: Wait retryDelay :: spaced (S k) (from + 1) retryDelay.
Proof. reflexivity. Qed.




(** The loop's test lets through only attempts up to [floor retries]. *)
Lemma at_most_floor (retries : QArith_base.Q) attempt :
  at_most attempt retries = true -> attempt <= Qround.Qfloor retries.
Proof.
  unfold at_most. intros H. apply QArith_base.Qle_bool_iff in H.
  apply Qround.Qfloor_resp_le in H. now rewrite Qround.Qfloor_Z in H.
Qed.

(** The loop ends, whatever the retry count and the network. *)
Lemma attempts_total (retries : QArith_base.Q) fuel : forall attempt lastError,
  Qround.Qfloor retries + 1 - attempt <= Z.of_nat fuel ->
  exists events result,
    attempts fuel network retries retryDelay attempt lastError
    = Some (events, result).
Proof.
  induction fuel as [|fuel IH]; intros attempt lastError Hfuel;
    cbn [attempts]; destruct (at_most attempt retries) eqn:T;
    try (now eexists; eexists).
  - apply at_most_floor in T. simpl in Hfuel. lia.
  - destruct (network attempt) as [status|reason]; [now eexists; eexists|].
    destruct (is_abort (as_error reason) || is_last attempt retries);
      [now eexists; eexists|].
    destruct (IH (attempt + 1) (Some (as_error reason))) as [events [result E]];
      [lia|].
    rewrite E. now eexists; eexists.
Qed.

(** ** A whole retry count *)

Variable retries : QArith_base.Q.
Variable n : Z.
Hypothesis whole : QArith_base.Qeq retries (QArith_base.inject_Z n).





End FetchFacts.

Section OtherRetryCounts.
Import Eff ApiClient.
Local Open Scope Z_scope.

Variable network : Z -> FetchOutcome.
Variable retryDelay : Z.
Variable retries : QArith_base.Q.

(** With a negative retry count the loop body never runs. *)
Lemma attempts_none fuel lastError :
  QArith_base.Qlt retries (QArith_base.inject_Z 0) ->
  attempts fuel network retries retryDelay 0 lastError
  = Some ([TimerClear],
          Thrown (match lastError with
                  | Some e => e
                  | None => mkError "Error" "Fetch failed"
                  end)).
Proof.
  intros H.
  assert (T : at_most 0 retries = false).
  { unfold at_most.
    destruct (QArith_base.Qle_bool (QArith_base.inject_Z 0) retries) eqn:E;
      [|reflexivity].
    apply QArith_base.Qle_bool_iff in E.
    now apply QArith_base.Qlt_not_le in H. }
  destruct fuel; cbn [attempts]; now rewrite T.
Qed.

(** ** A retry count that is not whole *)

Hypothesis fractional :
  forall z, ~ QArith_base.Qeq retries (QArith_base.inject_Z z).

Lemma is_last_never attempt : is_last attempt retries = false.
Proof.
  unfold is_last.
  destruct (QArith_base.Qeq_bool (QArith_base.inject_Z attempt) retries) eqn:E;
    [|reflexivity].
  apply QArith_base.Qeq_bool_iff in E. symmetry in E. now apply fractional in E.
Qed.

Lemma at_most_fractional attempt :
  at_most attempt retries = (attempt <=? Qround.Qfloor retries).
Proof.
  destruct (Z.leb_spec attempt (Qround.Qfloor retries)) as [L|G].
  - unfold at_most. apply QArith_base.Qle_bool_iff.
    apply QArith_base.Qle_trans with (QArith_base.inject_Z (Qround.Qfloor retries)).
    + now rewrite <- QArith_base.Zle_Qle.
    + apply Qround.Qfloor_le.
  - destruct (at_most attempt retries) eqn:T; [|reflexivity].
    apply at_most_floor in T. lia.
Qed.

(** When every attempt fails, and none by an abort, each of them is
    followed by a wait, the last one included. *)
Lemma attempts_fractional fuel : forall attempt lastError,
  attempt <= Qround.Qfloor retries ->
  Qround.Qfloor retries + 1 - attempt <= Z.of_nat fuel ->
  (forall j, attempt <= j <= Qround.Qfloor retries ->
     exists e, network j = Rejected (AnError e) /\
               err_name e <> "AbortError"%string) ->
  exists e,
    network (Qround.Qfloor retries) = Rejected (AnError e) /\
    attempts fuel network retries retryDelay attempt lastError
    = Some ((spaced (Z.to_nat (Qround.Qfloor retries + 1 - attempt)) attempt
               retryDelay
             ++ [Wait retryDelay; TimerClear])%list,
            Thrown e).
Proof.
  induction fuel as [|fuel IH]; intros attempt lastError Hle Hfuel Hfail;
    [simpl in Hfuel; lia|].
  cbn [attempts]. rewrite at_most_fractional, is_last_never.
  destruct (Z.leb_spec attempt (Qround.Qfloor retries)) as [_|]; [|lia].
  destruct (Hfail attempt) as [e [N A]]; [lia|].
  rewrite N. cbn [as_error]. unfold is_abort.
  apply String.eqb_neq in A. rewrite A. cbn [orb].
  destruct (Z.eq_dec attempt (Qround.Qfloor retries)) as [E|NE].
  - exists e. split; [now rewrite <- E|].
    destruct fuel as [|fuel']; cbn [attempts]; rewrite at_most_fractional;
      (destruct (Z.leb_spec (attempt + 1) (Qround.Qfloor retries)); [lia|]);
      replace (Qround.Qfloor retries + 1 - attempt) with 1 by lia; reflexivity.
  - destruct (IH (attempt + 1) (Some e)) as [e' [N' R]]; [lia|lia| |].
    { intros j Hj. apply Hfail. lia. }
    exists e'. split; [exact N'|]. rewrite R.
    replace (Z.to_nat (Qround.Qfloor retries + 1 - attempt))
      with (S (Z.to_nat (Qround.Qfloor retries + 1 - (attempt + 1)))) by lia.
    destruct (Z.to_nat (Qround.Qfloor retries + 1 - (attempt + 1))) as [|k] eqn:K;
      [lia|].
    now rewrite spaced_cons.
Qed.

End OtherRetryCounts.

(** With a negative retry count the wrapper makes no call and throws
    [Error('Fetch failed')]. *)
Lemma negative_retries_make_no_call
  (network : Z -> ApiClient.FetchOutcome) (options : ApiClient.FetchOptions) :
  QArith_base.Qlt
    (Prisma.or_else (ApiClient.retries options) ApiClient.default_retries)
    (QArith_base.inject_Z 0) ->
  ApiClient.fetchWithTimeout network options
  = Some ([ApiClient.TimerStart
             (Prisma.or_else (ApiClient.timeout options) ApiClient.default_timeout);
           ApiClient.TimerClear],
          ApiClient.Thrown (Eff.mkError "Error" "Fetch failed")).
Proof.
  intros H. unfold ApiClient.fetchWithTimeout. now rewrite attempts_none.
Qed.

(** With a retry count that is not negative and not whole, on a network
    where every call fails, and none by an abort: each call, the last
    one included, is followed by a wait of [retryDelay], and only then
    is the last error thrown. *)
Lemma fractional_retries_wait_once_more
  (network : Z -> ApiClient.FetchOutcome) (options : ApiClient.FetchOptions) :
  let timeout := Prisma.or_else (ApiClient.timeout options) ApiClient.default_timeout in
  let retries := Prisma.or_else (ApiClient.retries options) ApiClient.default_retries in
  let retryDelay :=
    Prisma.or_else (ApiClient.retryDelay options) ApiClient.default_retryDelay in
  QArith_base.Qle (QArith_base.inject_Z 0) retries ->
  (forall z, ~ QArith_base.Qeq retries (QArith_base.inject_Z z)) ->
  (forall j, (0 <= j <= Qround.Qfloor retries)%Z ->
     exists e, network j = ApiClient.Rejected (ApiClient.AnError e) /\
               Eff.err_name e <> "AbortError"%string) ->
  exists e,
    network (Qround.Qfloor retries) = ApiClient.Rejected (ApiClient.AnError e) /\
    ApiClient.fetchWithTimeout network options
    = Some (ApiClient.TimerStart timeout
            :: ApiClient.spaced (Z.to_nat (Qround.Qfloor retries + 1)) 0 retryDelay
               ++ [ApiClient.Wait retryDelay; ApiClient.TimerClear],
            ApiClient.Thrown e).
Proof.
  intros timeout retries retryDelay Hpos Hfrac Hfail.
  assert (F : (0 <= Qround.Qfloor retries)%Z).
  { apply Qround.Qfloor_resp_le in Hpos. now rewrite Qround.Qfloor_Z in Hpos. }
  destruct (@attempts_fractional network retryDelay retries Hfrac
              (Z.to_nat (Qround.Qfloor retries + 1)) 0%Z None) as [e [N R]];
    [lia|lia|exact Hfail|].
  exists e. split; [exact N|].
  unfold ApiClient.fetchWithTimeout. fold timeout retries retryDelay.
  rewrite R. now rewrite Z.sub_0_r.
Qed.




(* ================================================================== *)
(** * The session guard *)
(* ================================================================== *)

Section Guard.
Import Db Eff Prisma Http Expected.
Local Open Scope string_scope.

Lemma unauthorized_or_unauthorized message w :
  CategoryById.unauthorized_or message unauthorized_error w = (Ok rejected, w).
Proof. reflexivity. Qed.

(** Every handler that calls [requireAdmin] answers 401 to a caller
    without a session and leaves the store and the storage service
    alone. *)
Lemma guarded_handlers_reject env w :
  admin_session env = false ->
  (forall param, CategoryById.GET env param w = (Ok rejected, w)) /\
  (forall param request, CategoryById.PUT env param request w = (Ok rejected, w)) /\
  (forall param, CategoryById.DELETE env param w = (Ok rejected, w)) /\
  (forall request, Gallery.POST env request w = (Ok rejected, w)) /\
  (forall param request, GalleryById.PUT env param request w = (Ok rejected, w)) /\
  (forall param, GalleryById.DELETE env param w = (Ok rejected, w)).
Proof.
  intros Ha. repeat split; intros;
    unfold CategoryById.GET, CategoryById.PUT, CategoryById.DELETE, Gallery.POST,
      GalleryById.PUT, GalleryById.DELETE;
    eff_run; rewrite Ha; reflexivity.
Qed.

End Guard.

(** C1 (the rooms handlers). The three handlers of [/api/admin/rooms]
    never call the session guard: each answers a caller without an admin
    session exactly as it answers one with a session.  So such a caller
    creates, rewrites and deletes a room, is answered 201 and 200, and
    changes the store. *)
Theorem rooms_handlers_serve_callers_without_session :
  (forall (env : Http.Env) (w : Eff.World),
     (forall request,
        Rooms.POST (Http.with_session false env) request w
        = Rooms.POST (Http.with_session true env) request w) /\
     (forall request,
        Rooms.PUT (Http.with_session false env) request w
        = Rooms.PUT (Http.with_session true env) request w) /\
     (forall request,
        Rooms.DELETE (Http.with_session false env) request w
        = Rooms.DELETE (Http.with_session true env) request w)) /\
  Http.admin_session Sample.visitor = false /\
  (let result := Rooms.POST Sample.visitor (Some Sample.deluxe) Sample.empty in
   (exists room, fst result = Eff.Ok (Http.mkResponse 201 (Http.JsonRoom room))) /\
   Db.categories (Eff.db (snd result)) = [Sample.deluxe_row_created] /\
   Db.categories (Eff.db Sample.empty) = []) /\
  (let result := Rooms.PUT Sample.visitor (Some Sample.deluxe_edit) Sample.seeded in
   (exists room, fst result = Eff.Ok (Http.mkResponse 200 (Http.JsonRoom room))) /\
   Db.images (Eff.db (snd result)) = [] /\
   Db.images (Eff.db Sample.seeded) = [Sample.deluxe_image]) /\
  (let result := Rooms.DELETE Sample.visitor (Some (Prisma.Int 1)) Sample.seeded in
   fst result
   = Eff.Ok (Http.mkResponse 200 (Http.JsonMessage "Room deleted successfully")) /\
   Db.categories (Eff.db (snd result)) = [] /\
   Db.categories (Eff.db Sample.seeded) = [Sample.deluxe_row]).
Proof.
  split; [intros env w; repeat split|].
  split; [reflexivity|]. split; [|split].
  - cbv zeta. split; [|split; reflexivity]. eexists. vm_compute. reflexivity.
  - cbv zeta. split; [|split; reflexivity]. eexists. vm_compute. reflexivity.
  - cbv zeta. repeat split.
Qed.

(* ================================================================== *)
(** * Extraction on the design document's URLs *)
(* ================================================================== *)

Section Extraction.
Import Db Eff Prisma Http.
Local Open Scope string_scope.

Lemma push_old_video_no_key patterns url new keys :
  VideoKey.videoKey patterns url = None ->
  Rooms.push_old_video patterns (Some url) new keys = keys.
Proof.
  intros K. unfold Rooms.push_old_video. rewrite K.
  destruct (Str.truthy url && negb (Str.is_blank url)); [|reflexivity].
  now destruct (negb _).
Qed.

Lemma push_video_no_key patterns url keys :
  VideoKey.videoKey patterns url = None ->
  Rooms.push_video patterns (Some url) keys = keys.
Proof.
  intros K. unfold Rooms.push_video. rewrite K.
  now destruct (Str.truthy url && negb (Str.is_blank url)).
Qed.

End Extraction.

(** C3, as the code has it.  With the pattern list of the update
    handler, [https://host/f/ABC123] and [https://host/a/app1/ABC123] give the key
    [ABC123], and [https://host/x/y/ABC123?q=1] matches no pattern and
    gives no key.  For every URL that no pattern of a list matches,
    extraction gives no key, no video key is added to the keys to
    delete, and deleting such a room still succeeds, its storage call
    carrying the image keys only. *)
Theorem video_key_extraction_by_pattern :
  VideoKey.videoKey VideoKey.patterns_PUT "https://host/f/ABC123"
  = Some "ABC123"%string /\
  VideoKey.videoKey VideoKey.patterns_PUT "https://host/a/app1/ABC123"
  = Some "ABC123"%string /\
  VideoKey.videoKey VideoKey.patterns_PUT "https://host/x/y/ABC123?q=1" = None /\
  forall (patterns : list Regex.re) (url : string),
    (forall p, In p patterns -> Regex.exec p url = None) ->
    VideoKey.videoKey patterns url = None /\
    (forall new keys, Rooms.push_old_video patterns (Some url) new keys = keys) /\
    (forall keys, Rooms.push_video patterns (Some url) keys = keys) /\
    (patterns = VideoKey.patterns_DELETE ->
     forall env w id c,
       Db.find_category id (Eff.db w) = Some c ->
       Db.hc_videoUrl c = Some url ->
       Rooms.DELETE env (Some (Prisma.Int id)) w
       = (Eff.Ok (Http.mkResponse 200 (Http.JsonMessage "Room deleted successfully")),
          Eff.mkWorld (Db.remove_category id (Eff.db w))
            (Eff.log w
             ++ Http.storage_call
                  (Rooms.push_all_images (Db.images_of id (Eff.db w)) [])
             ++ [Eff.DbCategoryDelete id])%list)).
Proof.
  split; [vm_compute; reflexivity|]. split; [vm_compute; reflexivity|].
  split; [vm_compute; reflexivity|].
  intros patterns url Hnone.
  pose proof (videoKey_no_match patterns url Hnone) as K.
  split; [exact K|]. split; [|split].
  - intros. now apply push_old_video_no_key.
  - intros. now apply push_video_no_key.
  - intros -> env w id c Hc Hv.
    rewrite (@rooms_DELETE_existing env w id c Hc).
    unfold Rooms.fileKeysToDelete_DELETE. rewrite Hv.
    now rewrite (push_video_no_key _ _ _ K).
Qed.

(** A URL that matches none of the update handler's patterns. *)
Lemma video_key_extraction_example :
  (forall p, In p VideoKey.patterns_PUT ->
             Regex.exec p "https://host/x/y/ABC123?q=1" = None) /\
  VideoKey.videoKey VideoKey.patterns_PUT "https://host/x/y/ABC123?q=1" = None /\
  Rooms.push_old_video VideoKey.patterns_PUT
    (Some "https://host/x/y/ABC123?q=1"%string) None ["k1"%string]
  = ["k1"%string].
Proof.
  assert (H : forall p, In p VideoKey.patterns_PUT ->
                        Regex.exec p "https://host/x/y/ABC123?q=1" = None).
  { intros p Hp. cbn [VideoKey.patterns_PUT In] in Hp.
    destruct Hp as [<-|[<-|[<-|[<-|[]]]]]; vm_compute; reflexivity. }
  split; [exact H|].
  destruct video_key_extraction_by_pattern as [_ [_ [_ G]]].
  destruct (G _ _ H) as [K [P _]].
  split; [exact K|apply P].
Defined.

(** Against C3 as the design document states it: the update handler
    extracts no key from the third URL. *)
Lemma video_key_third_url_has_no_key :
  VideoKey.videoKey VideoKey.patterns_PUT "https://host/x/y/ABC123?q=1"
  <> Some "ABC123"%string.
Proof. vm_compute. discriminate. Qed.

(* ================================================================== *)
(** * Multipart gallery uploads *)
(* ================================================================== *)

Section GalleryFacts.
Import Db Eff Prisma Http.
Local Open Scope string_scope.

(** The JSON path stores whatever URL and key it is given: no file, no
    MIME type, no upload. *)
Lemma gallery_POST_json env request body url publicId valid w :
  admin_session env = true ->
  Gallery.is_json (Gallery.contentType request) = true ->
  Gallery.rq_json request = Some body ->
  Gallery.or_undefined (Gallery.jb_url body) = Some url ->
  Gallery.or_undefined (Gallery.jb_publicId body) = Some publicId ->
  galleryImageSchema_parse env
    (Gallery.fields (Gallery.jb_category body) (Gallery.jb_caption body)
       (Gallery.jb_categoryId body)) = Some valid ->
  owner_ok (gv_categoryId valid) (db w) = true ->
  let d := db w in
  let row := mkGalleryImage (next_image_id d) (gv_category valid) url
               (Some publicId) (gv_caption valid) (gv_categoryId valid) in
  Gallery.POST env request w
  = (Ok (mkResponse 200 (JsonImage row)),
     mkWorld (Db.mk (categories d) (images d ++ [row]) (Db.prices d)
                (next_category_id d) (next_image_id d + 1) (next_price_id d))
       (log w ++ [DbImageCreate (next_image_id d)])).
Proof.
  intros Ha Hj Hb Hu Hk Hv Ho. cbv zeta. unfold Gallery.POST. db_run.
  rewrite Ha, Hj, Hb. db_run. rewrite Hu, Hk, Hv. db_run.
  rewrite Ho. reflexivity.
Qed.

End GalleryFacts.

(** C10, as the code has it.  A multipart gallery create request whose
    file is not of an [image/] type is refused with 400 when the caller has an
    admin session, and with 401 otherwise; either way nothing is
    uploaded and nothing is written: the store and the trace of calls
    are as before.  The JSON path asks for no file at all: an admin's
    request with a URL and a key that passes validation adds the row
    without any upload, whatever the URL points to. *)
Theorem multipart_upload_refuses_non_images
  (env : Http.Env) (request : Gallery.Request) (formData : Gallery.FormData)
  (file : Http.File) (w : Eff.World) :
  Gallery.is_json (Gallery.contentType request) = false ->
  Gallery.rq_formData request = Some formData ->
  Gallery.fd_file formData = Some file ->
  Str.startsWith "image/" (Http.f_type file) = false ->
  Gallery.POST env request w
  = (Eff.Ok (if Http.admin_session env
             then Http.mkResponse 400 (Http.JsonError "Only image files are allowed")
             else Expected.rejected),
     w) /\
  (forall jsonRequest body url publicId valid,
     Http.admin_session env = true ->
     Gallery.is_json (Gallery.contentType jsonRequest) = true ->
     Gallery.rq_json jsonRequest = Some body ->
     Gallery.or_undefined (Gallery.jb_url body) = Some url ->
     Gallery.or_undefined (Gallery.jb_publicId body) = Some publicId ->
     Http.galleryImageSchema_parse env
       (Gallery.fields (Gallery.jb_category body) (Gallery.jb_caption body)
          (Gallery.jb_categoryId body)) = Some valid ->
     Prisma.owner_ok (Http.gv_categoryId valid) (Eff.db w) = true ->
     exists row,
       fst (Gallery.POST env jsonRequest w)
       = Eff.Ok (Http.mkResponse 200 (Http.JsonImage row)) /\
       Db.gi_url row = url /\ Db.gi_publicId row = Some publicId /\
       Db.images (Eff.db (snd (Gallery.POST env jsonRequest w)))
       = (Db.images (Eff.db w) ++ [row])%list /\
       Eff.log (snd (Gallery.POST env jsonRequest w))
       = (Eff.log w ++ [Eff.DbImageCreate (Db.gi_id row)])%list).
Proof.
  intros Hj Hf Hfile Htype. split.
  - unfold Gallery.POST. eff_run.
    destruct (Http.admin_session env); [|reflexivity].
    rewrite Hj, Hf. eff_run. rewrite Hfile, Htype. reflexivity.
  - intros jsonRequest body url publicId valid Ha Hjs Hb Hu Hk Hv Ho.
    rewrite (@gallery_POST_json env jsonRequest body url publicId valid w
               Ha Hjs Hb Hu Hk Hv Ho).
    cbv zeta. eexists. cbn [fst snd Eff.db Eff.log Db.images].
    split; [reflexivity|]. repeat split.
Qed.

(** The hypotheses of C10 hold for a video sent by an admin. *)
Lemma multipart_upload_example :
  Gallery.is_json (Gallery.contentType Sample.video_form) = false /\
  Str.startsWith "image/" "video/mp4" = false /\
  Gallery.POST Sample.admin Sample.video_form Sample.seeded
  = (Eff.Ok (Http.mkResponse 400 (Http.JsonError "Only image files are allowed")),
     Sample.seeded).
Proof.
  split; [reflexivity|]. split; [reflexivity|].
  apply (@multipart_upload_refuses_non_images Sample.admin Sample.video_form
           (Gallery.mkFormData (Some (Http.mkFile "clip.mp4" "video/mp4" 1000))
              (Some "Rooms"%string) None None)
           (Http.mkFile "clip.mp4" "video/mp4" 1000) Sample.seeded);
    reflexivity.
Defined.

(** Against C10 as stated: a caller without a session who sends a
    video in a multipart request is answered 401, not 400. *)
Lemma multipart_upload_without_session_is_401 :
  exists resp,
    fst (Gallery.POST Sample.visitor Sample.video_form Sample.seeded) = Eff.Ok resp /\
    Http.status resp = 401 /\ Http.status resp <> 400.
Proof.
  exists (Http.mkResponse 401 (Http.JsonError "Unauthorized")).
  split; [reflexivity|]. split; [reflexivity|discriminate].
Qed.

(* ================================================================== *)
(** * The design document's scenarios *)
(* ================================================================== *)

(** An update that renames nothing and carries no prices. *)
Lemma update_without_price_array_example :
  let request := Some (CategoryById.mkCategoryBody CategoryById.PricesAbsent []) in
  (forall body tiers,
     request = Some body ->
     CategoryById.prices body <> CategoryById.PricesArray tiers) /\
  Db.prices (Eff.db (snd (CategoryById.PUT Sample.admin (Prisma.Int 1) request
                            Sample.seeded)))
  = Db.prices (Eff.db Sample.seeded).
Proof.
  cbv zeta.
  assert (H : forall body tiers,
            Some (CategoryById.mkCategoryBody CategoryById.PricesAbsent []) = Some body ->
            CategoryById.prices body <> CategoryById.PricesArray tiers).
  { intros body tiers E. injection E as <-. discriminate. }
  split; [exact H|].
  exact (proj1 (@update_without_price_array_keeps_prices Sample.admin (Prisma.Int 1)
                  _ Sample.seeded H)).
Defined.

(* ================================================================== *)
(** * [/api/upload]: what reaches the storage service *)
(* ================================================================== *)

Section UploadFacts.
Import Db Eff Prisma Http.
Local Open Scope string_scope.

Lemma startsWith_head p ps s :
  Str.startsWith (String p ps) s = true -> exists t, s = String p t.
Proof.
  destruct s as [|c t]; [discriminate|].
  unfold Str.startsWith. cbn [Str.chars list_ascii_of_string Str.starts_with].
  destruct (Ascii.eqb_spec p c) as [->|]; [|discriminate].
  intros _. now exists t.
Qed.

(** No MIME type is both an image type and a video type. *)
Lemma image_or_video type :
  Str.startsWith "image/" type = true ->
  Str.startsWith "video/" type = false.
Proof.
  intros Hi. destruct (startsWith_head _ _ _ Hi) as [t ->]. reflexivity.
Qed.

End UploadFacts.

(** X1. The upload handler hands a file to the storage service exactly
    when it is an image of at most 4 MiB or a video of at most 64 MiB.
    Such a file gives one storage call, answered 200 with the URL and
    key storage returned or 500 when storage fails; any other file is
    answered 400 with no storage call.  The handler never writes to the
    store. *)
Theorem upload_reaches_storage_within_limits
  (env : Http.Env) (file : Http.File) (w : Eff.World) :
  let isImage := Str.startsWith "image/" (Http.f_type file) in
  let isVideo := Str.startsWith "video/" (Http.f_type file) in
  let allowed :=
    (isImage && (Http.f_size file <=? 4 * 1024 * 1024)%Z)
    || (isVideo && (Http.f_size file <=? 64 * 1024 * 1024)%Z) in
  let result := Upload.POST env (Some file) w in
  Eff.db (snd result) = Eff.db w /\
  (if allowed then
     Eff.log (snd result)
     = (Eff.log w ++ [Eff.StorageUploadFiles (Http.f_name file)])%list /\
     fst result
     = Eff.Ok match Http.uploadFiles env file with
              | Http.UploadData url key =>
                  Http.mkResponse 200 (Http.JsonUpload url key)
              | _ => Http.mkResponse 500 (Http.JsonError "Upload failed")
              end
   else
     snd result = w /\
     exists message,
       fst result = Eff.Ok (Http.mkResponse 400 (Http.JsonError message))).
Proof.
  intros isImage isVideo allowed result.
  subst result allowed. unfold Upload.POST. fold isImage isVideo.
  assert (X : isImage = true -> isVideo = false) by apply image_or_video.
  destruct isImage, isVideo; try (specialize (X eq_refl); discriminate);
    cbn [negb andb orb].
  - destruct (Z.ltb_spec (4 * 1024 * 1024) (Http.f_size file)) as [L|L];
      destruct (Z.leb_spec (Http.f_size file) (4 * 1024 * 1024)) as [L'|L'];
      try lia.
    + split; [reflexivity|]. split; [reflexivity|]. eexists. reflexivity.
    + eff_run. split; [now destruct (Http.uploadFiles env file)|].
      split; now destruct (Http.uploadFiles env file).
  - destruct (Z.ltb_spec (64 * 1024 * 1024) (Http.f_size file)) as [L|L];
      destruct (Z.leb_spec (Http.f_size file) (64 * 1024 * 1024)) as [L'|L'];
      try lia.
    + split; [reflexivity|]. split; [reflexivity|]. eexists. reflexivity.
    + eff_run. split; [now destruct (Http.uploadFiles env file)|].
      split; now destruct (Http.uploadFiles env file).
  - split; [reflexivity|]. split; [reflexivity|]. eexists. reflexivity.
Qed.

(** X2. The file deletion endpoint sends to storage the [key] parameter
    when it is not empty and the [publicId] parameter otherwise, and
    answers 400 without a storage call when neither is given.  It
    answers 200 whenever the storage call resolves, also when storage
    reports that nothing was deleted, and 500 with the error's message
    when the call rejects.  The store is never touched and no session
    is asked for. *)
Theorem upload_delete_key_precedence
  (env : Http.Env) (key publicId : option string) (w : Eff.World) :
  let result := Upload.DELETE env key publicId w in
  Eff.db (snd result) = Eff.db w /\
  Upload.DELETE (Http.with_session false env) key publicId w = result /\
  match Gallery.or_undefined
          (match Gallery.or_undefined key with
           | Some k => Some k
           | None => publicId
           end) with
  | Some k =>
      Eff.log (snd result) = (Eff.log w ++ [Eff.StorageDeleteFiles [k]])%list /\
      fst result
      = Eff.Ok match Http.deleteFiles env [k] with
               | Http.DeleteResolved _ =>
                   Upload.mkDeleteResponse 200 (Upload.Deleted k)
               | Http.DeleteRejected e =>
                   Upload.mkDeleteResponse 500
                     (Upload.DeleteError "Delete failed"
                        (Some (Eff.err_message e)))
               end
  | None =>
      result
      = (Eff.Ok (Upload.mkDeleteResponse 400
                   (Upload.DeleteError "File key or public ID is required" None)),
         w)
  end.
Proof.
  intros result. subst result. unfold Upload.DELETE, Upload.fileKey, Gallery.or_undefined.
  split; [|split; [reflexivity|]].
  - destruct key as [[|c k]|], publicId as [[|c' p]|]; eff_run; cbn [Str.truthy];
      try reflexivity;
      match goal with |- context [Http.deleteFiles env ?l] =>
        now destruct (Http.deleteFiles env l) end.
  - destruct key as [[|c k]|], publicId as [[|c' p]|]; eff_run; cbn [Str.truthy];
      try reflexivity;
      match goal with |- context [Http.deleteFiles env ?l] =>
        now destruct (Http.deleteFiles env l) end.
Qed.

(* ================================================================== *)
(** * [/api/admin/gallery] and [/api/admin/gallery/[id]] *)
(* ================================================================== *)

Section GalleryItem.
Import Db Eff Prisma Http Expected.
Local Open Scope string_scope.

Lemma delete_old_file_spec env image w :
  GalleryById.delete_old_file env (gi_publicId image) w
  = (Ok tt, mkWorld (db w) (log w ++ storage_call (key_of image))).
Proof.
  unfold GalleryById.delete_old_file, key_of.
  destruct (Gallery.or_undefined (gi_publicId image)) as [k|].
  - eff_run. cbn [storage_call]. now destruct (deleteFiles env [k]).
  - eff_run. cbn [storage_call]. rewrite app_nil_r. now destruct w.
Qed.

Lemma gallery_DELETE_existing env id image w :
  admin_session env = true ->
  find_image id (db w) = Some image ->
  let d := db w in
  GalleryById.DELETE env (Int id) w
  = (Ok (mkResponse 200 (JsonSuccessMessage "Image deleted successfully")),
     mkWorld (Db.mk (categories d)
                (filter (fun i => negb (Z.eqb (gi_id i) id)) (images d))
                (Db.prices d)
                (next_category_id d) (next_image_id d) (next_price_id d))
       (log w ++ storage_call (key_of image) ++ [DbImageDelete id])).
Proof.
  intros Ha Hf. cbv zeta. unfold GalleryById.DELETE. db_run.
  rewrite Ha, Hf. rewrite delete_old_file_spec. db_run. rewrite Hf. db_run.
  now rewrite <- app_assoc.
Qed.

Lemma find_filter_other {A} (key : A -> Z) id other (l : list A) :
  other <> id ->
  find (fun i => Z.eqb (key i) other)
       (filter (fun i => negb (Z.eqb (key i) id)) l)
  = find (fun i => Z.eqb (key i) other) l.
Proof.
  intros Hne. induction l as [|x l IH]; [reflexivity|].
  cbn [filter find].
  destruct (Z.eqb_spec (key x) id) as [E|E]; cbn [negb find].
  - destruct (Z.eqb_spec (key x) other); [congruence|exact IH].
  - destruct (Z.eqb (key x) other); [reflexivity|exact IH].
Qed.

Lemma find_filter_self {A} (key : A -> Z) id (l : list A) :
  find (fun i => Z.eqb (key i) id)
       (filter (fun i => negb (Z.eqb (key i) id)) l) = None.
Proof.
  induction l as [|x l IH]; [reflexivity|].
  cbn [filter]. destruct (Z.eqb (key x) id) eqn:E; cbn [negb find]; [exact IH|].
  now rewrite E.
Qed.

(** The update of an existing image by an admin, once its fields have
    passed validation and its owner exists. *)
Lemma gallery_PUT_existing env id old formData valid w :
  admin_session env = true ->
  find_image id (db w) = Some old ->
  galleryImageSchema_parse env
    (Gallery.fields (GalleryById.fd_category formData)
       (GalleryById.fd_caption formData) (GalleryById.fd_categoryId formData))
  = Some valid ->
  let d := db w in
  let replacement :=
    match Gallery.or_undefined (GalleryById.fd_url formData),
          Gallery.or_undefined (GalleryById.fd_publicId formData) with
    | Some url, Some publicId => Some (url, publicId)
    | _, _ => None
    end in
  let owner := match gv_categoryId valid with
               | Some c => Some c
               | None => gi_categoryId old
               end in
  let row :=
    mkGalleryImage id (gv_category valid)
      (match replacement with Some (url, _) => url | None => gi_url old end)
      (match replacement with
       | Some (_, publicId) => Some publicId
       | None => gi_publicId old
       end)
      (match gv_caption valid with Some c => Some c | None => gi_caption old end)
      owner in
  owner_ok owner d = true ->
  GalleryById.PUT env (Int id) (Some formData) w
  = (Ok (mkResponse 200 (JsonImage row)),
     mkWorld (Db.mk (categories d) (replace_image row (images d)) (Db.prices d)
                (next_category_id d) (next_image_id d) (next_price_id d))
       (log w
        ++ match replacement with
           | Some _ => storage_call (key_of old)
           | None => []
           end
        ++ [DbImageUpdate id])).
Proof.
  intros Ha Hf Hv. cbv zeta. intros Ho. unfold GalleryById.PUT. db_run.
  rewrite Ha, Hf. db_run. rewrite Hv.
  destruct (Gallery.or_undefined (GalleryById.fd_url formData)) as [url|];
    [destruct (Gallery.or_undefined (GalleryById.fd_publicId formData)) as [publicId|]|].
  - rewrite delete_old_file_spec. db_run. rewrite Hf.
    cbn [ip_categoryId ip_category ip_caption ip_url ip_publicId or_else].
    rewrite Ho. db_run. now rewrite <- app_assoc.
  - db_run. rewrite Hf.
    cbn [ip_categoryId ip_category ip_caption ip_url ip_publicId or_else].
    rewrite Ho. reflexivity.
  - db_run. rewrite Hf.
    cbn [ip_categoryId ip_category ip_caption ip_url ip_publicId or_else].
    rewrite Ho. reflexivity.
Qed.

End GalleryItem.

(** X3. Deleting an existing gallery image as an admin always answers
    200 and removes exactly that row, whatever the storage service does
    with the file: the storage deletion is issued first, for the row's
    key when it has one, and its failure is swallowed.  No other image,
    category or price row changes. *)
Theorem gallery_image_delete_whatever_storage_does
  (env : Http.Env) (id : Z) (image : Db.GalleryImage) (w : Eff.World) :
  Http.admin_session env = true ->
  Db.find_image id (Eff.db w) = Some image ->
  let result := GalleryById.DELETE env (Prisma.Int id) w in
  fst result
  = Eff.Ok (Http.mkResponse 200 (Http.JsonSuccessMessage "Image deleted successfully")) /\
  Db.find_image id (Eff.db (snd result)) = None /\
  (forall other, other <> id ->
     Db.find_image other (Eff.db (snd result)) = Db.find_image other (Eff.db w)) /\
  Db.categories (Eff.db (snd result)) = Db.categories (Eff.db w) /\
  Db.prices (Eff.db (snd result)) = Db.prices (Eff.db w) /\
  Eff.log (snd result)
  = (Eff.log w
     ++ match Db.gi_publicId image with
        | Some k => if Str.truthy k then [Eff.StorageDeleteFiles [k]] else []
        | None => []
        end
     ++ [Eff.DbImageDelete id])%list.
Proof.
  intros Ha Hf result. subst result.
  rewrite (@gallery_DELETE_existing env id image w Ha Hf).
  cbn [fst snd Eff.db Eff.log Db.categories Db.prices].
  split; [reflexivity|]. split; [apply (find_filter_self Db.gi_id)|].
  split; [intros other Hne; now apply (find_filter_other Db.gi_id)|].
  split; [reflexivity|]. split; [reflexivity|].
  unfold Expected.key_of, Gallery.or_undefined.
  destruct (Db.gi_publicId image) as [k|]; [|reflexivity].
  now destruct (Str.truthy k).
Qed.

(** An admin deletes the image of the seeded store while storage is
    down. *)
Lemma gallery_image_delete_example :
  Http.admin_session Sample.admin = true /\
  Db.find_image 1 (Eff.db Sample.seeded) = Some Sample.deluxe_image /\
  Db.images (Eff.db (snd (GalleryById.DELETE Sample.admin (Prisma.Int 1) Sample.seeded)))
  = [] /\
  Eff.log (snd (GalleryById.DELETE Sample.admin (Prisma.Int 1) Sample.seeded))
  = [Eff.StorageDeleteFiles ["k1"%string]; Eff.DbImageDelete 1].
Proof.
  split; [reflexivity|]. split; [reflexivity|]. split; [reflexivity|].
  exact (proj2 (proj2 (proj2 (proj2 (proj2
    (@gallery_image_delete_whatever_storage_does Sample.admin 1
       Sample.deluxe_image Sample.seeded eq_refl eq_refl)))))).
Defined.

(** X4. For an id that names no gallery image, an admin's update and
    delete are both answered 404 and nothing is touched: no storage
    call, no write.  The update answers before it reads its body, so
    the 404 is the same for every body, also one that does not parse. *)
Theorem gallery_image_unknown_id
  (env : Http.Env) (id : Z) (w : Eff.World) :
  Http.admin_session env = true ->
  Db.find_image id (Eff.db w) = None ->
  (forall request,
     GalleryById.PUT env (Prisma.Int id) request w
     = (Eff.Ok (Http.mkResponse 404 (Http.JsonError "Image not found")), w)) /\
  GalleryById.DELETE env (Prisma.Int id) w
  = (Eff.Ok (Http.mkResponse 404 (Http.JsonError "Image not found")), w).
Proof.
  intros Ha Hf. split; [intros request|];
    unfold GalleryById.PUT, GalleryById.DELETE; db_run; now rewrite Ha, Hf.
Qed.

Lemma gallery_image_unknown_id_example :
  Db.find_image 7 (Eff.db Sample.seeded) = None /\
  GalleryById.PUT Sample.admin (Prisma.Int 7) None Sample.seeded
  = (Eff.Ok (Http.mkResponse 404 (Http.JsonError "Image not found")), Sample.seeded).
Proof.
  split; [reflexivity|].
  exact (proj1 (@gallery_image_unknown_id Sample.admin 7 Sample.seeded
                  eq_refl eq_refl) None).
Defined.

(** X5. An update of an existing gallery image replaces the stored file
    only when the form carries both a non-empty [url] and a non-empty
    [publicId].  Then the old file's deletion is issued first (when the
    row has a key) and the row takes the new URL and key whatever
    storage answers.  With either field missing or empty the row keeps
    its URL and key, also when the other field was sent, and storage is
    not called. *)
Theorem gallery_image_update_replaces_file_only_with_url_and_key
  (env : Http.Env) (id : Z) (old : Db.GalleryImage)
  (formData : GalleryById.FormData) (valid : Http.GalleryValid) (w : Eff.World) :
  Http.admin_session env = true ->
  Db.find_image id (Eff.db w) = Some old ->
  Http.galleryImageSchema_parse env
    (Gallery.fields (GalleryById.fd_category formData)
       (GalleryById.fd_caption formData) (GalleryById.fd_categoryId formData))
  = Some valid ->
  Prisma.owner_ok
    (match Http.gv_categoryId valid with
     | Some c => Some c
     | None => Db.gi_categoryId old
     end) (Eff.db w) = true ->
  let result := GalleryById.PUT env (Prisma.Int id) (Some formData) w in
  exists row,
    fst result = Eff.Ok (Http.mkResponse 200 (Http.JsonImage row)) /\
    Db.images (Eff.db (snd result)) = Prisma.replace_image row (Db.images (Eff.db w)) /\
    Db.gi_id row = id /\
    match Gallery.or_undefined (GalleryById.fd_url formData),
          Gallery.or_undefined (GalleryById.fd_publicId formData) with
    | Some url, Some publicId =>
        Db.gi_url row = url /\ Db.gi_publicId row = Some publicId /\
        Eff.log (snd result)
        = (Eff.log w
           ++ match Db.gi_publicId old with
              | Some k => if Str.truthy k then [Eff.StorageDeleteFiles [k]] else []
              | None => []
              end
           ++ [Eff.DbImageUpdate id])%list
    | _, _ =>
        Db.gi_url row = Db.gi_url old /\ Db.gi_publicId row = Db.gi_publicId old /\
        Eff.log (snd result) = (Eff.log w ++ [Eff.DbImageUpdate id])%list
    end.
Proof.
  intros Ha Hf Hv Ho result. subst result.
  rewrite (@gallery_PUT_existing env id old formData valid w Ha Hf Hv Ho).
  cbn [fst snd Eff.db Eff.log Db.images].
  eexists. split; [reflexivity|]. split; [reflexivity|]. split; [reflexivity|].
  destruct (Gallery.or_undefined (GalleryById.fd_url formData)) as [url|];
    [destruct (Gallery.or_undefined (GalleryById.fd_publicId formData)) as [publicId|]|];
    cbn [Db.gi_url Db.gi_publicId]; repeat split.
  unfold Expected.key_of, Gallery.or_undefined.
  destruct (Db.gi_publicId old) as [k|]; [|reflexivity].
  now destruct (Str.truthy k).
Qed.

(** An admin sends a new URL without a key for the image of the seeded
    store: the row keeps its file. *)
Lemma gallery_image_update_example :
  let formData :=
    GalleryById.mkFormData (Some "Rooms"%string) None None
      (Some "https://utfs.io/f/OTHER"%string) None in
  let result := GalleryById.PUT Sample.admin (Prisma.Int 1) (Some formData) Sample.seeded in
  exists row,
    fst result = Eff.Ok (Http.mkResponse 200 (Http.JsonImage row)) /\
    Db.gi_url row = "u1"%string /\ Db.gi_publicId row = Some "k1"%string /\
    Eff.log (snd result) = [Eff.DbImageUpdate 1].
Proof.
  cbv zeta.
  destruct (@gallery_image_update_replaces_file_only_with_url_and_key
              Sample.admin 1 Sample.deluxe_image
              (GalleryById.mkFormData (Some "Rooms"%string) None None
                 (Some "https://utfs.io/f/OTHER"%string) None)
              (Http.mkGalleryValid "Rooms" None None) Sample.seeded
              eq_refl eq_refl eq_refl eq_refl) as [row [R [_ [_ [U [K L]]]]]].
  exists row. split; [exact R|]. split; [exact U|]. split; [exact K|exact L].
Defined.

Section GalleryCreate.
Import Db Eff Prisma Http Expected.
Local Open Scope string_scope.

(** A handler under [try { ... } catch] with the usual 401/500 answer
    writes to the store only when it answers 200, provided its body
    does. *)
Lemma write_only_on_200 (handler : M Response) message w :
  (forall r w', handler w = (Ok r, w') -> status r = 200 \/ db w' = db w) ->
  (forall e w', handler w = (Threw e, w') -> db w' = db w) ->
  let result := try_catch handler (CategoryById.unauthorized_or message) w in
  exists resp, fst result = Ok resp /\ (status resp = 200 \/ db (snd result) = db w).
Proof.
  intros Hok Hthrew. cbv zeta. unfold try_catch.
  destruct (handler w) as [[r|e] w'] eqn:E.
  - exists r. split; [reflexivity|]. exact (Hok _ _ eq_refl).
  - unfold CategoryById.unauthorized_or.
    destruct (is_unauthorized e); eexists; (split; [reflexivity|]); right;
      exact (Hthrew _ _ eq_refl).
Qed.

(** The upload route as the gallery handler calls it, for an image
    within the size limit. *)
Lemma upload_via_api_image env file w :
  Str.startsWith "image/" (f_type file) = true ->
  (f_size file <= 4 * 1024 * 1024)%Z ->
  Gallery.upload_via_api env file w
  = (match uploadFiles env file with
     | UploadData url key => Ok (url, key)
     | _ => Threw (mkError "Error" "Upload failed")
     end,
     mkWorld (db w) (log w ++ [StorageUploadFiles (f_name file)])).
Proof.
  intros Hi Hs. unfold Gallery.upload_via_api, Upload.POST.
  rewrite Hi, (image_or_video _ Hi). cbn [negb andb].
  destruct (Z.ltb_spec (4 * 1024 * 1024) (f_size file)); [lia|].
  eff_run. now destruct (uploadFiles env file).
Qed.

Lemma upload_via_api_oversize env file w :
  Str.startsWith "image/" (f_type file) = true ->
  (4 * 1024 * 1024 < f_size file)%Z ->
  Gallery.upload_via_api env file w
  = (Threw (mkError "Error" "Image file too large. Maximum size is 4MB."), w).
Proof.
  intros Hi Hs. unfold Gallery.upload_via_api, Upload.POST.
  rewrite Hi, (image_or_video _ Hi). cbn [negb andb].
  destruct (Z.ltb_spec (4 * 1024 * 1024) (f_size file)); [|lia].
  reflexivity.
Qed.

End GalleryCreate.

(** X6. A multipart gallery upload of an image by an admin is answered
    500 "Failed to upload image", with no upload, no write and no trace,
    when its fields do not pass validation (validation comes before the
    upload) and also when the image is larger than 4 MiB: the handler
    uploads through the upload route, whose size refusal it turns into
    its own 500. *)
Theorem gallery_multipart_refusals_leave_no_trace
  (env : Http.Env) (request : Gallery.Request) (formData : Gallery.FormData)
  (file : Http.File) (w : Eff.World) :
  Http.admin_session env = true ->
  Gallery.is_json (Gallery.contentType request) = false ->
  Gallery.rq_formData request = Some formData ->
  Gallery.fd_file formData = Some file ->
  Str.startsWith "image/" (Http.f_type file) = true ->
  Http.galleryImageSchema_parse env
    (Gallery.fields (Gallery.fd_category formData) (Gallery.fd_caption formData)
       (Gallery.fd_categoryId formData)) = None
  \/ (4 * 1024 * 1024 < Http.f_size file)%Z ->
  Gallery.POST env request w
  = (Eff.Ok (Http.mkResponse 500 (Http.JsonError "Failed to upload image")), w).
Proof.
  intros Ha Hj Hf Hfile Hi Hno. unfold Gallery.POST. eff_run.
  rewrite Ha, Hj, Hf. eff_run. rewrite Hfile, Hi. cbn [negb].
  destruct (Http.galleryImageSchema_parse env _) as [valid|]; [|reflexivity].
  destruct Hno as [Hno|Hsize]; [discriminate|].
  rewrite (upload_via_api_oversize env file w Hi Hsize). reflexivity.
Qed.

(** An admin sends a 5 MB image in a multipart request. *)
Lemma gallery_multipart_refusal_example :
  Gallery.POST Sample.admin
    (Gallery.mkRequest (Some "multipart/form-data; boundary=x"%string) None
       (Some (Gallery.mkFormData
                (Some (Http.mkFile "big.png" "image/png" 5000000))
                (Some "Rooms"%string) None None)))
    Sample.seeded
  = (Eff.Ok (Http.mkResponse 500 (Http.JsonError "Failed to upload image")),
     Sample.seeded).
Proof.
  apply (@gallery_multipart_refusals_leave_no_trace Sample.admin _
           (Gallery.mkFormData
              (Some (Http.mkFile "big.png" "image/png" 5000000))
              (Some "Rooms"%string) None None)
           (Http.mkFile "big.png" "image/png" 5000000) Sample.seeded);
    try reflexivity.
  right. reflexivity.
Defined.

(** X7. A multipart gallery upload of an image of at most 4 MiB by an
    admin, with valid fields, makes exactly one upload.  When storage
    returns a file, the new row carries the URL and key storage
    returned and is appended to the images; when storage fails, the
    answer is 500 and no row is written. *)
Theorem gallery_multipart_row_comes_from_storage
  (env : Http.Env) (request : Gallery.Request) (formData : Gallery.FormData)
  (file : Http.File) (valid : Http.GalleryValid) (w : Eff.World) :
  Http.admin_session env = true ->
  Gallery.is_json (Gallery.contentType request) = false ->
  Gallery.rq_formData request = Some formData ->
  Gallery.fd_file formData = Some file ->
  Str.startsWith "image/" (Http.f_type file) = true ->
  (Http.f_size file <= 4 * 1024 * 1024)%Z ->
  Http.galleryImageSchema_parse env
    (Gallery.fields (Gallery.fd_category formData) (Gallery.fd_caption formData)
       (Gallery.fd_categoryId formData)) = Some valid ->
  Prisma.owner_ok (Http.gv_categoryId valid) (Eff.db w) = true ->
  let result := Gallery.POST env request w in
  match Http.uploadFiles env file with
  | Http.UploadData url key =>
      exists row,
        fst result = Eff.Ok (Http.mkResponse 200 (Http.JsonImage row)) /\
        Db.gi_url row = url /\ Db.gi_publicId row = Some key /\
        Db.gi_category row = Http.gv_category valid /\
        Db.images (Eff.db (snd result)) = (Db.images (Eff.db w) ++ [row])%list /\
        Eff.log (snd result)
        = (Eff.log w ++ [Eff.StorageUploadFiles (Http.f_name file);
                         Eff.DbImageCreate (Db.gi_id row)])%list
  | _ =>
      result
      = (Eff.Ok (Http.mkResponse 500 (Http.JsonError "Failed to upload image")),
         Eff.mkWorld (Eff.db w)
           (Eff.log w ++ [Eff.StorageUploadFiles (Http.f_name file)]))
  end.
Proof.
  intros Ha Hj Hf Hfile Hi Hs Hv Ho result. subst result.
  unfold Gallery.POST. db_run.
  rewrite Ha, Hj, Hf. db_run. rewrite Hfile, Hi. cbn [negb]. rewrite Hv.
  rewrite (upload_via_api_image env file w Hi Hs).
  destruct (Http.uploadFiles env file) as [url key|message|e]; try reflexivity.
  db_run. rewrite Ho. db_run.
  eexists. split; [reflexivity|]. cbn [Db.gi_url Db.gi_publicId Db.gi_category Db.gi_id
    Gallery.image_data Prisma.id_url Prisma.id_publicId Prisma.id_category].
  repeat split. now rewrite <- app_assoc.
Qed.

(** An admin sends a small image; the sample storage returns a file. *)
Lemma gallery_multipart_row_example :
  let request :=
    Gallery.mkRequest (Some "multipart/form-data; boundary=x"%string) None
      (Some (Gallery.mkFormData
               (Some (Http.mkFile "pool.png" "image/png" 1000))
               (Some "Pool"%string) None None)) in
  exists row,
    fst (Gallery.POST Sample.admin request Sample.seeded)
    = Eff.Ok (Http.mkResponse 200 (Http.JsonImage row)) /\
    Db.gi_url row = "https://utfs.io/f/NEWKEY"%string /\
    Db.gi_publicId row = Some "NEWKEY"%string.
Proof.
  cbv zeta.
  destruct (@gallery_multipart_row_comes_from_storage Sample.admin
              (Gallery.mkRequest (Some "multipart/form-data; boundary=x"%string) None
                 (Some (Gallery.mkFormData
                          (Some (Http.mkFile "pool.png" "image/png" 1000))
                          (Some "Pool"%string) None None)))
              (Gallery.mkFormData
                 (Some (Http.mkFile "pool.png" "image/png" 1000))
                 (Some "Pool"%string) None None)
              (Http.mkFile "pool.png" "image/png" 1000)
              (Http.mkGalleryValid "Pool" None None) Sample.seeded
              eq_refl eq_refl eq_refl eq_refl eq_refl ltac:(cbn; lia) eq_refl eq_refl)
    as [row [R [U [K _]]]].
  exists row. split; [exact R|]. split; [exact U|exact K].
Defined.

(** X8. The three gallery handlers that write always answer, and they
    change the store only when they answer 200: after any other answer
    (400, 401, 404, 500) every table is as it was before the request. *)
Theorem gallery_handlers_write_only_on_200 (env : Http.Env) (w : Eff.World) :
  (forall request,
     let result := Gallery.POST env request w in
     exists resp, fst result = Eff.Ok resp /\
       (Http.status resp = 200 \/ Eff.db (snd result) = Eff.db w)) /\
  (forall param request,
     let result := GalleryById.PUT env param request w in
     exists resp, fst result = Eff.Ok resp /\
       (Http.status resp = 200 \/ Eff.db (snd result) = Eff.db w)) /\
  (forall param,
     let result := GalleryById.DELETE env param w in
     exists resp, fst result = Eff.Ok resp /\
       (Http.status resp = 200 \/ Eff.db (snd result) = Eff.db w)).
Proof.
  split; [|split].
  - intros request. unfold Gallery.POST. apply write_only_on_200.
    + intros r w'. unfold Gallery.upload_via_api, Upload.POST. split_run.
      all: try discriminate.
      all: intros E; injection E as <- <-; auto.
    + intros e w'. unfold Gallery.upload_via_api, Upload.POST. split_run.
      all: try discriminate.
      all: intros E; injection E as <- <-; auto.
  - intros param request. unfold GalleryById.PUT. apply write_only_on_200.
    + intros r w'. unfold GalleryById.delete_old_file. split_run.
      all: try discriminate.
      all: intros E; injection E as <- <-; auto.
    + intros e w'. unfold GalleryById.delete_old_file. split_run.
      all: try discriminate.
      all: intros E; injection E as <- <-; auto.
  - intros param. unfold GalleryById.DELETE. apply write_only_on_200.
    + intros r w'. unfold GalleryById.delete_old_file. split_run.
      all: try discriminate.
      all: intros E; injection E as <- <-; auto.
    + intros e w'. unfold GalleryById.delete_old_file. split_run.
      all: try discriminate.
      all: intros E; injection E as <- <-; auto.
Qed.

(* ================================================================== *)
(** * [/api/admin/rooms]: refusals, frame and listing *)
(* ================================================================== *)

Section RoomsFacts.
Import Db Eff Prisma Http Rooms.
Local Open Scope string_scope.

Lemma find_replace_other row other l :
  other <> hc_id row ->
  find (fun c => Z.eqb (hc_id c) other) (replace_category row l)
  = find (fun c => Z.eqb (hc_id c) other) l.
Proof.
  intros Hne. unfold replace_category.
  induction l as [|c l IH]; [reflexivity|]. cbn [map find].
  destruct (Z.eqb_spec (hc_id c) (hc_id row)) as [E|E].
  - destruct (Z.eqb_spec (hc_id row) other) as [E'|_]; [congruence|].
    destruct (Z.eqb_spec (hc_id c) other) as [E'|_]; [congruence|]. exact IH.
  - destruct (Z.eqb (hc_id c) other); [reflexivity|exact IH].
Qed.

Lemma owned_by_other id other x :
  other <> id -> owned_by other x = true -> owned_by id x = false.
Proof.
  intros Hne. unfold owned_by. destruct (gi_categoryId x) as [c|]; [|discriminate].
  intros Hx. apply Z.eqb_eq in Hx. apply Z.eqb_neq. congruence.
Qed.

Lemma filter_image_rows_other id other l : forall next,
  other <> id ->
  filter (owned_by other) (image_rows next (Some id) l) = [].
Proof.
  induction l as [|x t IH]; intros next Hne; [reflexivity|].
  cbn [image_rows filter]. unfold owned_by at 1. cbn [gi_categoryId].
  destruct (Z.eqb_spec id other) as [E|_]; [congruence|]. now apply IH.
Qed.

Lemma images_of_after_update id other d children next_c next_i next_p cats prs :
  other <> id ->
  images_of other
    (Db.mk cats
       (filter (fun i => negb (owned_by id i)) (images d)
        ++ image_rows (next_image_id d) (Some id) children)
       prs next_c next_i next_p)
  = images_of other d.
Proof.
  intros Hne. unfold images_of. cbn [images].
  rewrite filter_app, filter_image_rows_other, app_nil_r by exact Hne.
  apply (filter_disjoint (owned_by other) (owned_by id)).
  intros x. now apply owned_by_other.
Qed.

Lemma images_are_length data images :
  Expected.images_are data images ->
  List.length images = List.length (or_else (rb_images data) []).
Proof.
  intros [E|[E ->]]; rewrite E; cbn [or_else]; [now rewrite length_map|reflexivity].
Qed.

(** What the create handler does when it goes through. *)
Lemma rooms_POST_created env data title images videoUrl w :
  rb_title data = Some title ->
  Expected.images_are data images ->
  Expected.video_is data videoUrl ->
  slug_taken (Slug.slug title) None (db w) = false ->
  let d := db w in
  let id := next_category_id d in
  let row := row_of id (room_data (Slug.slug title) title data videoUrl) in
  let children := image_rows (next_image_id d) (Some id)
                    (images_create title images) in
  let d' := Db.mk (categories d ++ [row]) (Db.images d ++ children) (prices d)
              (id + 1)
              (next_image_id d
               + Z.of_nat (List.length (images_create title images)))
              (next_price_id d) in
  Rooms.POST env (Some data) w
  = (Ok (mkResponse 201 (JsonRoom (view_of d' row))),
     mkWorld d' (log w ++ [DbCategoryCreate id])).
Proof.
  intros Ht Hi Hv Hs. cbv zeta. unfold Rooms.POST. db_run.
  unfold required_title. rewrite Ht. db_run.
  rewrite (@newVideoUrl_read data videoUrl w Hv), (@submitted_read data images w Hi).
  db_run. cbn [room_data cd_slug]. rewrite Hs. reflexivity.
Qed.

Lemma rooms_POST_refused env request w :
  match request with
  | Some data =>
      match rb_title data with
      | Some title =>
          (exists more, rb_videos data = Some (None :: more)) \/
          (exists entries, rb_images data = Some entries /\ In None entries) \/
          slug_taken (Slug.slug title) None (db w) = true
      | None => True
      end
  | None => True
  end ->
  Rooms.POST env request w
  = (Ok (mkResponse 500 (JsonError "Failed to create room")), w).
Proof.
  unfold Rooms.POST. destruct request as [data|]; [|reflexivity].
  db_run. unfold required_title.
  destruct (rb_title data) as [title|]; [|reflexivity].
  db_run. intros H.
  destruct (newVideoUrl_outcome data w) as [[videoUrl [Hv R]]|[_ R]];
    rewrite R; [|reflexivity].
  destruct (submitted_outcome data w) as [[images [Hi Ri]]|[_ Ri]];
    rewrite Ri; [|reflexivity].
  db_run. cbn [room_data cd_slug].
  destruct H as [[more E]|[[entries [E N]]|E]].
  - exfalso. destruct videoUrl as [url|]; cbn [Expected.video_is] in Hv.
    + destruct Hv as [video [more' [E' _]]]. congruence.
    + destruct Hv as [E'|E']; congruence.
  - exfalso. destruct Hi as [Ei|[Ei _]]; [|congruence].
    rewrite E in Ei. injection Ei as ->. apply in_map_iff in N.
    destruct N as [m [Hm _]]. discriminate.
  - now rewrite E.
Qed.

(** The two ways a create ends. *)
Lemma room_create_parts env request w :
  (fst (Rooms.POST env request w)
   = Ok (mkResponse 500 (JsonError "Failed to create room")) /\
   snd (Rooms.POST env request w) = w) \/
  (exists data title images videoUrl,
     request = Some data /\ rb_title data = Some title /\
     Expected.images_are data images /\ Expected.video_is data videoUrl /\
     slug_taken (Slug.slug title) None (db w) = false /\
     let d := db w in
     let id := next_category_id d in
     let row := row_of id (room_data (Slug.slug title) title data videoUrl) in
     let children := image_rows (next_image_id d) (Some id)
                       (images_create title images) in
     let d' := Db.mk (categories d ++ [row]) (Db.images d ++ children) (prices d)
                 (id + 1)
                 (next_image_id d
                  + Z.of_nat (List.length (images_create title images)))
                 (next_price_id d) in
     Rooms.POST env request w
     = (Ok (mkResponse 201 (JsonRoom (view_of d' row))),
        mkWorld d' (log w ++ [DbCategoryCreate id]))).
Proof.
  destruct request as [data|];
    [|left; now rewrite rooms_POST_refused].
  destruct (rb_title data) as [title|] eqn:Ht;
    [|left; rewrite rooms_POST_refused; [now split|now rewrite Ht]].
  destruct (newVideoUrl_outcome data w) as [[videoUrl [Hv _]]|[Hn _]];
    [|left; rewrite rooms_POST_refused; [now split|rewrite Ht; now left]].
  destruct (submitted_outcome data w) as [[images [Hi _]]|[Hn _]];
    [|left; rewrite rooms_POST_refused; [now split|rewrite Ht; right; now left]].
  destruct (slug_taken (Slug.slug title) None (db w)) eqn:Hs;
    [left; rewrite rooms_POST_refused; [now split|rewrite Ht; right; now right]|].
  right. exists data, title, images, videoUrl. split; [reflexivity|].
  split; [exact Ht|]. split; [exact Hi|]. split; [exact Hv|].
  split; [exact Hs|].
  exact (@rooms_POST_created env data title images videoUrl w Ht Hi Hv Hs).
Qed.

(** The ways a room update ends. *)
Lemma rooms_PUT_parts env data w :
  snd (Rooms.PUT env (Some data) w) = w \/
  exists id title existingRoom images videoUrl,
    body_id data = Some id /\ rb_title data = Some title /\
    find_category id (db w) = Some existingRoom /\
    Expected.images_are data images /\ Expected.video_is data videoUrl.
Proof.
  destruct (newVideoUrl_outcome data w) as [[videoUrl [Hv _]]|[Hn _]];
    [|left; apply rooms_PUT_refused; now left].
  destruct (body_id data) as [id|] eqn:Hid;
    [|left; apply rooms_PUT_refused; right; now left].
  destruct (rb_title data) as [title|] eqn:Ht;
    [|left; apply rooms_PUT_refused; right; right; now left].
  destruct (find_category id (db w)) as [existingRoom|] eqn:Hc;
    [|left; apply rooms_PUT_refused; right; right; right; left; now exists id].
  destruct (submitted_outcome data w) as [[images [Hi _]]|[Hn _]];
    [|left; apply rooms_PUT_refused; right; right; right; now right].
  right. now exists id, title, existingRoom, images, videoUrl.
Qed.

End RoomsFacts.

(** X9. Whatever its outcome (200, 400, 404 or 500), an update of
    room [id] leaves the Price table as it was and touches no other
    room: every other category row and the images of every other
    category are the same after the request as before. *)
Theorem room_update_leaves_other_rooms_alone
  (env : Http.Env) (request : option Rooms.RoomBody) (w : Eff.World) :
  let target := match request with
                | Some data => Rooms.body_id data
                | None => None
                end in
  let result := Rooms.PUT env request w in
  Db.prices (Eff.db (snd result)) = Db.prices (Eff.db w) /\
  forall other, target <> Some other ->
    Db.find_category other (Eff.db (snd result)) = Db.find_category other (Eff.db w) /\
    Db.images_of other (Eff.db (snd result)) = Db.images_of other (Eff.db w).
Proof.
  intros target result. subst target result.
  destruct request as [data|]; [|split; [reflexivity|intros; split; reflexivity]].
  destruct (rooms_PUT_parts env data w) as
    [R|[id [title [existingRoom [images [videoUrl [Hid [Ht [Hc [Hi Hv]]]]]]]]]].
  { rewrite R. split; [reflexivity|intros; split; reflexivity]. }
  rewrite Hid.
  rewrite (@rooms_PUT_existing env w data id title existingRoom images videoUrl
             Hid Ht Hc Hi Hv).
  destruct (Db.slug_taken (Slug.slug title) (Some id) (Eff.db w));
    cbn [fst snd Eff.db Db.prices]; (split; [reflexivity|]);
    intros other Hne; assert (Hne' : other <> id) by congruence.
  - split; [reflexivity|]. unfold Db.images_of. cbn [Db.images].
    apply (filter_disjoint (Db.owned_by other) (Db.owned_by id)).
    intros x. now apply owned_by_other.
  - split.
    + unfold Db.find_category. cbn [Db.categories].
      now apply find_replace_other.
    + now apply images_of_after_update.
Qed.

(** X10. The rooms update and delete handlers refuse without touching
    anything.  The update handler reads the URL of the first video
    before it looks at the id: when the first entry of [videos] is
    [null] the answer is 500, with or without an id.  Otherwise an
    update whose body has no id, or the id 0, is answered 400; with an
    id but no title it is answered 500; with an id and a title but no
    such room, 404.  A delete without an id is answered 400 and one for
    an unknown id 404.  In each case the store and the trace of calls
    are as before: no file is deleted from storage. *)
Theorem rooms_refusals_touch_nothing
  (env : Http.Env) (data : Rooms.RoomBody) (w : Eff.World) :
  ((exists more, Rooms.rb_videos data = Some (None :: more)) ->
   Rooms.PUT env (Some data) w
   = (Eff.Ok (Http.mkResponse 500 (Http.JsonError "Failed to update room")), w)) /\
  ((forall more, Rooms.rb_videos data <> Some (None :: more)) ->
   (Rooms.rb_id data = None \/ Rooms.rb_id data = Some 0%Z ->
    Rooms.PUT env (Some data) w
    = (Eff.Ok (Http.mkResponse 400 (Http.JsonError "Room ID is required")), w)) /\
   (forall id, Rooms.rb_id data = Some id -> id <> 0%Z ->
      Rooms.rb_title data = None ->
      Rooms.PUT env (Some data) w
      = (Eff.Ok (Http.mkResponse 500 (Http.JsonError "Failed to update room")), w)) /\
   (forall id title, Rooms.rb_id data = Some id -> id <> 0%Z ->
      Rooms.rb_title data = Some title ->
      Db.find_category id (Eff.db w) = None ->
      Rooms.PUT env (Some data) w
      = (Eff.Ok (Http.mkResponse 404 (Http.JsonError "Room not found")), w))) /\
  Rooms.DELETE env None w
  = (Eff.Ok (Http.mkResponse 400 (Http.JsonError "Room ID is required")), w) /\
  (forall id, Db.find_category id (Eff.db w) = None ->
     Rooms.DELETE env (Some (Prisma.Int id)) w
     = (Eff.Ok (Http.mkResponse 404 (Http.JsonError "Room not found")), w)).
Proof.
  split; [|split; [|split]].
  - intros [more E]. unfold Rooms.PUT. db_run. now rewrite E.
  - intros Hv. destruct (video_is_found data Hv) as [videoUrl V].
    assert (R : forall w', Rooms.newVideoUrl (Rooms.rb_videos data) w'
                           = (Eff.Ok videoUrl, w'))
      by (intros w'; now apply newVideoUrl_read).
    split; [|split].
    + intros H. unfold Rooms.PUT, Rooms.body_id. db_run. rewrite R.
      destruct H as [-> | ->]; reflexivity.
    + intros id Hid Hz Ht. unfold Rooms.PUT, Rooms.body_id, Rooms.required_title.
      db_run. rewrite R, Hid, Ht.
      destruct (Z.eqb_spec id 0); [contradiction|reflexivity].
    + intros id title Hid Hz Ht Hc.
      unfold Rooms.PUT, Rooms.body_id, Rooms.required_title. db_run.
      rewrite R, Hid, Ht.
      destruct (Z.eqb_spec id 0); [contradiction|]. db_run. now rewrite Hc.
  - reflexivity.
  - intros id Hc. unfold Rooms.DELETE. db_run. now rewrite Hc.
Qed.

(** X11. Creating a room is all or nothing.  Either the answer is 500
    and nothing at all has changed, or it is 201 and then: the body had
    a title, the new category row is appended with the next id of the
    sequence, that title and the slug derived from it, one image row
    per submitted image is appended, all owned by the new room, the
    Price table is untouched and no storage call was made. *)
Theorem room_create_is_all_or_nothing
  (env : Http.Env) (request : option Rooms.RoomBody) (w : Eff.World) :
  let result := Rooms.POST env request w in
  let d := Eff.db w in
  let d' := Eff.db (snd result) in
  (fst result = Eff.Ok (Http.mkResponse 500 (Http.JsonError "Failed to create room")) /\
   snd result = w) \/
  (exists data title row children,
     request = Some data /\ Rooms.rb_title data = Some title /\
     fst result = Eff.Ok (Http.mkResponse 201 (Http.JsonRoom (Rooms.view_of d' row))) /\
     Db.categories d' = (Db.categories d ++ [row])%list /\
     Db.hc_id row = Db.next_category_id d /\
     Db.hc_title row = title /\ Db.hc_slug row = Slug.slug title /\
     Db.images d' = (Db.images d ++ children)%list /\
     List.length children = List.length (Prisma.or_else (Rooms.rb_images data) []) /\
     Db.images_of (Db.hc_id row) d' = (Db.images_of (Db.hc_id row) d ++ children)%list /\
     Db.prices d' = Db.prices d /\
     Eff.log (snd result)
     = (Eff.log w ++ [Eff.DbCategoryCreate (Db.hc_id row)])%list).
Proof.
  intros result d d'. subst result d d'.
  destruct (room_create_parts env request w) as
    [H|[data [title [images [videoUrl [-> [Ht [Hi [Hv [Hs R]]]]]]]]]];
    [now left|].
  right. cbv zeta in R. rewrite R.
  cbn [fst snd Eff.db Eff.log Db.categories Db.images Db.prices].
  exists data, title. do 2 eexists. split; [reflexivity|]. split; [exact Ht|].
  split; [reflexivity|]. split; [reflexivity|].
  cbn [Prisma.row_of Db.hc_id Db.hc_title Db.hc_slug Rooms.room_data
       Prisma.cd_slug Prisma.cd_title].
  split; [reflexivity|]. split; [reflexivity|]. split; [reflexivity|].
  split; [reflexivity|].
  split; [rewrite image_rows_length, images_create_length;
          now apply images_are_length|].
  split; [|split; reflexivity].
  unfold Db.images_of. cbn [Db.images]. rewrite filter_app.
  now rewrite filter_image_rows.
Qed.

(* ================================================================== *)
(** * Listings after a create or a delete *)
(* ================================================================== *)

Section Listing.
Import Db Eff Prisma Http.
Local Open Scope string_scope.

(** The view of a category in the rooms listing. *)
Lemma rooms_GET_run env w :
  Rooms.GET env w
  = (Ok (Listed (map (fun c => mkView c (images_of (hc_id c) (db w))
                                 (order_by_hours (prices_of (hc_id c) (db w))))
                     (rev (categories (db w))))),
     w).
Proof.
  unfold Rooms.GET, hotelCategory_findMany. eff_run.
  now rewrite map_map.
Qed.

Lemma gallery_GET_run env w :
  admin_session env = true ->
  Gallery.GET env w
  = (Ok (Listed (map (fun i => (i, summary_of (gi_categoryId i) (db w)))
                     (rev (images (db w))))),
     w).
Proof.
  intros Ha. unfold Gallery.GET, galleryImage_findMany. eff_run.
  now rewrite Ha.
Qed.

Lemma rev_filter {A} (p : A -> bool) l : rev (filter p l) = filter p (rev l).
Proof.
  induction l as [|x l IH]; [reflexivity|]. cbn [filter rev].
  rewrite filter_app, <- IH. cbn [filter].
  destruct (p x); [reflexivity|]. now rewrite app_nil_r.
Qed.

Lemma map_filter_views {A B} (p : A -> bool) (q : B -> bool) (f g : A -> B) l :
  (forall x, q (g x) = p x) ->
  (forall x, p x = true -> f x = g x) ->
  map f (filter p l) = filter q (map g l).
Proof.
  intros Hq Hf. induction l as [|x l IH]; [reflexivity|]. cbn [filter map].
  rewrite Hq. destruct (p x) eqn:P; [|exact IH].
  cbn [map]. now rewrite IH, (Hf _ P).
Qed.

(** A create that is answered 200 appends one image row and leaves the
    categories alone. *)
Lemma gallery_POST_200 env request w resp w' :
  Gallery.POST env request w = (Ok resp, w') ->
  status resp = 200 ->
  exists row,
    body resp = JsonImage row /\
    images (db w') = (images (db w) ++ [row])%list /\
    categories (db w') = categories (db w).
Proof.
  unfold Gallery.POST, Gallery.upload_via_api, Upload.POST,
    CategoryById.unauthorized_or.
  split_run.
  all: intros E; injection E as <- <-; cbn [status]; try discriminate.
  all: intros _; eexists; split; [reflexivity|]; split; reflexivity.
Qed.

End Listing.

(** X12. After a room is created (answer 201), the rooms listing
    starts with that room, with the row and the images the create
    answered, followed by the category rows that were listed before, in
    the same order.  When no older category had the id the new room
    received, the older rooms are listed exactly as before, images and
    prices included. *)
Theorem created_room_is_listed_first
  (env : Http.Env) (request : option Rooms.RoomBody) (w : Eff.World)
  (room : Http.CategoryView) :
  fst (Rooms.POST env request w) = Eff.Ok (Http.mkResponse 201 (Http.JsonRoom room)) ->
  let w' := snd (Rooms.POST env request w) in
  exists first rest before,
    Rooms.GET env w = (Eff.Ok (Http.Listed before), w) /\
    Rooms.GET env w' = (Eff.Ok (Http.Listed (first :: rest)), w') /\
    Http.cv_row first = Http.cv_row room /\
    Http.cv_images first = Http.cv_images room /\
    map Http.cv_row rest = map Http.cv_row before /\
    ((forall c, In c (Db.categories (Eff.db w)) ->
                Db.hc_id c <> Db.next_category_id (Eff.db w)) ->
     rest = before).
Proof.
  intros Hresp w'. subst w'.
  destruct (room_create_parts env request w) as [[Hfst _]|Hcreated].
  { rewrite Hfst in Hresp. discriminate. }
  destruct Hcreated as
    [data [title [images [videoUrl [Hreq [Ht [Hi [Hv [Hs Hrun]]]]]]]]].
  rewrite Hrun in *. cbn [fst snd] in *.
  injection Hresp as <-.
  rewrite !rooms_GET_run. cbn [Eff.db Db.categories Db.images Db.prices].
  rewrite rev_app_distr. cbn [rev app map].
  do 3 eexists. split; [reflexivity|]. split; [reflexivity|].
  cbn [Http.cv_row Http.cv_images Rooms.view_of Prisma.row_of Db.hc_id].
  split; [reflexivity|]. split; [reflexivity|].
  split; [now rewrite !map_map|].
  intros Hfresh. apply map_ext_in. intros c Hc. apply in_rev in Hc.
  specialize (Hfresh c Hc).
  f_equal.
  unfold Db.images_of. cbn [Db.images]. rewrite filter_app.
  rewrite filter_image_rows_other by exact Hfresh. now rewrite app_nil_r.
Qed.

(** The room created from the sample body heads the listing. *)
Lemma created_room_is_listed_first_example :
  exists first rest,
    fst (Rooms.GET Sample.visitor
           (snd (Rooms.POST Sample.visitor (Some Sample.deluxe) Sample.empty)))
    = Eff.Ok (Http.Listed (first :: rest)) /\
    Http.cv_row first = Sample.deluxe_row_created /\
    Http.cv_images first = [Sample.deluxe_image].
Proof.
  destruct (@created_room_is_listed_first Sample.visitor (Some Sample.deluxe)
              Sample.empty
              (Http.mkView Sample.deluxe_row_created [Sample.deluxe_image] [])
              ltac:(vm_compute; reflexivity))
    as [first [rest [before [_ [G [R [I _]]]]]]].
  exists first, rest. rewrite G. split; [reflexivity|]. split; [exact R|exact I].
Defined.

(** X13. After a room is deleted through the rooms handler, the rooms
    listing is the listing from before without that room: every other
    room is listed in the same place, with the same row, the same images
    and the same prices. *)
Theorem deleted_room_is_no_longer_listed
  (env : Http.Env) (id : Z) (c : Db.HotelCategory) (w : Eff.World) :
  Db.find_category id (Eff.db w) = Some c ->
  let w' := snd (Rooms.DELETE env (Some (Prisma.Int id)) w) in
  exists before,
    fst (Rooms.GET env w) = Eff.Ok (Http.Listed before) /\
    fst (Rooms.GET env w')
    = Eff.Ok (Http.Listed
                (filter (fun v => negb (Z.eqb (Db.hc_id (Http.cv_row v)) id)) before)).
Proof.
  intros Hc w'. subst w'. rewrite (@rooms_DELETE_existing env w id c Hc).
  cbn [snd]. rewrite !rooms_GET_run. cbn [fst Eff.db].
  eexists. split; [reflexivity|]. do 2 f_equal.
  change (Db.categories (Db.remove_category id (Eff.db w)))
    with (filter (fun c0 => negb (Z.eqb (Db.hc_id c0) id)) (Db.categories (Eff.db w))).
  rewrite rev_filter.
  apply (map_filter_views
           (fun c0 => negb (Z.eqb (Db.hc_id c0) id))
           (fun v => negb (Z.eqb (Db.hc_id (Http.cv_row v)) id))).
  - reflexivity.
  - intros x Hx. apply negb_true_iff, Z.eqb_neq in Hx.
    destruct (@remove_category_others id (Eff.db w) (Db.hc_id x) Hx) as [_ [Hi Hp]].
    now rewrite Hi, Hp.
Qed.

(** Deleting the only room of the seeded store empties the listing. *)
Lemma deleted_room_is_no_longer_listed_example :
  Db.find_category 1 (Eff.db Sample.seeded) = Some Sample.deluxe_row /\
  fst (Rooms.GET Sample.admin
         (snd (Rooms.DELETE Sample.admin (Some (Prisma.Int 1)) Sample.seeded)))
  = Eff.Ok (Http.Listed []).
Proof.
  split; [reflexivity|].
  destruct (@deleted_room_is_no_longer_listed Sample.admin 1 Sample.deluxe_row
              Sample.seeded eq_refl) as [before [B A]].
  rewrite A. injection B as <-. reflexivity.
Defined.

(** X14. The admin gallery listing follows the writes of the gallery
    handlers.  After a create that is answered 200 the listing is the
    created image, with the summary of its category, followed by the
    listing from before; after the delete of an existing image it is
    the listing from before without that image. *)
Theorem gallery_listing_follows_writes (env : Http.Env) (w : Eff.World) :
  Http.admin_session env = true ->
  exists before,
    Gallery.GET env w = (Eff.Ok (Http.Listed before), w) /\
    (forall request row,
       fst (Gallery.POST env request w)
       = Eff.Ok (Http.mkResponse 200 (Http.JsonImage row)) ->
       fst (Gallery.GET env (snd (Gallery.POST env request w)))
       = Eff.Ok (Http.Listed
                   ((row, Prisma.summary_of (Db.gi_categoryId row) (Eff.db w))
                    :: before))) /\
    (forall id image,
       Db.find_image id (Eff.db w) = Some image ->
       fst (Gallery.GET env (snd (GalleryById.DELETE env (Prisma.Int id) w)))
       = Eff.Ok (Http.Listed
                   (filter (fun v => negb (Z.eqb (Db.gi_id (fst v)) id)) before))).
Proof.
  intros Ha. eexists. split; [apply (gallery_GET_run env w Ha)|]. split.
  - intros request row Hresp.
    destruct (Gallery.POST env request w) as [out w'] eqn:E.
    cbn [fst snd] in *. subst out.
    destruct (gallery_POST_200 _ _ _ E eq_refl) as [row' [Hb [Hi Hcat]]].
    cbn [Http.body] in Hb. injection Hb as <-.
    rewrite (gallery_GET_run env w' Ha). cbn [fst]. rewrite Hi.
    rewrite rev_app_distr. cbn [rev app map].
    do 3 f_equal.
    + unfold Prisma.summary_of, Db.find_category. now rewrite Hcat.
    + apply map_ext. intros i.
      unfold Prisma.summary_of, Db.find_category. now rewrite Hcat.
  - intros id image Hf.
    rewrite (@gallery_DELETE_existing env id image w Ha Hf). cbn [snd].
    rewrite (gallery_GET_run _ _ Ha). cbn [fst Eff.db Db.images]. do 2 f_equal.
    rewrite rev_filter.
    apply (map_filter_views
             (fun i => negb (Z.eqb (Db.gi_id i) id))
             (fun v => negb (Z.eqb (Db.gi_id (fst v)) id))).
    + reflexivity.
    + reflexivity.
Qed.

(** The gallery listing of the seeded store, for an admin. *)
Lemma gallery_listing_example :
  exists before,
    Gallery.GET Sample.admin Sample.seeded = (Eff.Ok (Http.Listed before), Sample.seeded) /\
    fst (Gallery.GET Sample.admin
           (snd (GalleryById.DELETE Sample.admin (Prisma.Int 1) Sample.seeded)))
    = Eff.Ok (Http.Listed
                (filter (fun v => negb (Z.eqb (Db.gi_id (fst v)) 1)) before)).
Proof.
  destruct (@gallery_listing_follows_writes Sample.admin Sample.seeded eq_refl)
    as [before [G [_ D]]].
  exists before. split; [exact G|]. exact (D 1%Z Sample.deluxe_image eq_refl).
Defined.

(* ================================================================== *)
(** * [/api/admin/categories/[id]]: atomicity and missing categories *)
(* ================================================================== *)

Section CategoryFacts.
Import Db Eff Prisma Http Expected.
Local Open Scope string_scope.

Lemma clean_nothing_kept data :
  (forall entry, In entry data -> CategoryById.keep_value (snd entry) = false) ->
  CategoryById.cleanCategoryData data = [].
Proof.
  intros H. unfold CategoryById.cleanCategoryData.
  induction data as [|entry data IH]; [reflexivity|]. cbn [filter].
  rewrite (H entry (or_introl eq_refl)). apply IH.
  intros e He. apply H. now right.
Qed.

End CategoryFacts.

(** X15. The category handlers always answer, and the store changes
    only under a 200: an update that is answered 401 or 500 has rolled
    back every write of its transaction, a delete that is answered 401,
    404 or 500 has deleted nothing, and a read changes nothing at all.
    An update never calls the storage service. *)
Theorem category_handlers_write_only_on_200 (env : Http.Env) (w : Eff.World) :
  (forall param request,
     let result := CategoryById.PUT env param request w in
     exists resp, fst result = Eff.Ok resp /\
       (Http.status resp = 200 \/ Eff.db (snd result) = Eff.db w) /\
       filter Expected.is_storage (Eff.log (snd result))
       = filter Expected.is_storage (Eff.log w)) /\
  (forall param,
     let result := CategoryById.DELETE env param w in
     exists resp, fst result = Eff.Ok resp /\
       (Http.status resp = 200 \/ Eff.db (snd result) = Eff.db w)) /\
  (forall param,
     exists resp, CategoryById.GET env param w = (Eff.Ok resp, w)).
Proof.
  split; [|split].
  - intros param request. cbv zeta.
    unfold CategoryById.PUT, CategoryById.validate, CategoryById.replace_prices,
      CategoryById.read_back, CategoryById.unauthorized_or.
    split_run.
    all: eexists; split; [reflexivity|].
    all: cbn [Http.status Eff.db Eff.log fst snd].
    all: split; [auto|].
    all: rewrite ?filter_app; cbn [filter Expected.is_storage];
      rewrite ?app_nil_r; reflexivity.
  - intros param. cbv zeta.
    unfold CategoryById.DELETE, CategoryById.delete_files_detached,
      CategoryById.unauthorized_or.
    split_run.
    all: eexists; split; [reflexivity|].
    all: cbn [Http.status Eff.db Eff.log fst snd]; auto.
  - intros param.
    unfold CategoryById.GET, CategoryById.read_back, CategoryById.unauthorized_or.
    split_run.
    all: eexists; reflexivity.
Qed.

(** X16. For an id that names no category, an admin's read and delete
    are answered 404 with nothing touched, but an update is not: with
    no category field left after cleaning and no price array it is
    answered 200 with [data: null], and with category fields that pass
    validation it is answered 500; in both cases the store is as
    before. *)
Theorem category_missing_id_update_is_not_404
  (env : Http.Env) (id : Z) (w : Eff.World) :
  Http.admin_session env = true ->
  Db.find_category id (Eff.db w) = None ->
  CategoryById.GET env (Prisma.Int id) w
  = (Eff.Ok (Http.mkResponse 404 (Http.JsonError "Category not found")), w) /\
  CategoryById.DELETE env (Prisma.Int id) w
  = (Eff.Ok (Http.mkResponse 404 (Http.JsonError "Category not found")), w) /\
  (forall body,
     CategoryById.cleanCategoryData (CategoryById.categoryData body) = [] ->
     (forall tiers, CategoryById.prices body <> CategoryById.PricesArray tiers) ->
     CategoryById.PUT env (Prisma.Int id) (Some body) w
     = (Eff.Ok (Http.mkResponse 200 (Http.JsonCategory None)), w)) /\
  (forall body patch,
     Http.categoryUpdateSchema_parse env
       (CategoryById.cleanCategoryData (CategoryById.categoryData body))
     = Some patch ->
     CategoryById.cleanCategoryData (CategoryById.categoryData body) <> [] ->
     CategoryById.PUT env (Prisma.Int id) (Some body) w
     = (Eff.Ok (Http.mkResponse 500 (Http.JsonError "Failed to update category")), w)).
Proof.
  intros Ha Hc. split; [|split; [|split]].
  - unfold CategoryById.GET, CategoryById.read_back. db_run. now rewrite Ha, Hc.
  - unfold CategoryById.DELETE. db_run. now rewrite Ha, Hc.
  - intros body Hclean Hprices.
    unfold CategoryById.PUT, CategoryById.validate, CategoryById.replace_prices,
      CategoryById.read_back.
    db_run. rewrite Ha, Hclean. db_run.
    destruct (CategoryById.prices body) as [|v|tiers] eqn:P; db_run.
    + rewrite Hc. now destruct w.
    + rewrite Hc. now destruct w.
    + now destruct (Hprices tiers).
  - intros body patch Hv Hne.
    unfold CategoryById.PUT, CategoryById.validate. db_run. rewrite Ha.
    destruct (CategoryById.cleanCategoryData (CategoryById.categoryData body))
      as [|entry more] eqn:Hclean; [now destruct Hne|].
    db_run. rewrite Hv. db_run. rewrite Hc. now destruct w.
Qed.

(** An admin sends an update with nothing in it for category 9 of the
    seeded store, which has no such category. *)
Lemma category_missing_id_example :
  Db.find_category 9 (Eff.db Sample.seeded) = None /\
  CategoryById.PUT Sample.admin (Prisma.Int 9)
    (Some (CategoryById.mkCategoryBody CategoryById.PricesAbsent
             [("title"%string, Http.JStr "  ")]))
    Sample.seeded
  = (Eff.Ok (Http.mkResponse 200 (Http.JsonCategory None)), Sample.seeded).
Proof.
  split; [reflexivity|].
  apply (proj1 (proj2 (proj2
           (@category_missing_id_update_is_not_404 Sample.admin 9 Sample.seeded
              eq_refl eq_refl)))).
  - reflexivity.
  - intros tiers. discriminate.
Defined.

(** X17. An update whose category fields are all null, blank strings or
    empty objects and arrays is handled as a price-only update: the
    category schema is never consulted, so the outcome is the same
    under every schema, and the category row is not written. *)
Theorem category_update_blank_fields_skip_validation
  (env : Http.Env) (param : Prisma.IntParam) (body : CategoryById.CategoryBody)
  (w : Eff.World) :
  (forall entry, In entry (CategoryById.categoryData body) ->
     CategoryById.keep_value (snd entry) = false) ->
  (forall parse,
     CategoryById.PUT (Expected.with_category_schema parse env) param (Some body) w
     = CategoryById.PUT env param (Some body) w) /\
  Db.categories (Eff.db (snd (CategoryById.PUT env param (Some body) w)))
  = Db.categories (Eff.db w).
Proof.
  intros Hblank. pose proof (clean_nothing_kept _ Hblank) as Hclean. split.
  - intros parse. unfold CategoryById.PUT, Expected.with_category_schema.
    db_run. cbn [Http.admin_session]. rewrite Hclean. reflexivity.
  - unfold CategoryById.PUT, CategoryById.validate, CategoryById.replace_prices,
      CategoryById.read_back, CategoryById.unauthorized_or.
    db_run. rewrite Hclean.
    split_run; reflexivity.
Qed.

(** A body with a blank title and a null description. *)
Lemma category_update_blank_fields_example :
  let body :=
    CategoryById.mkCategoryBody (CategoryById.PricesArray Sample.seven_tiers)
      [("title"%string, Http.JStr "  "); ("description"%string, Http.JNull)] in
  CategoryById.PUT
    (Expected.with_category_schema (fun _ => Some (Prisma.mkCategoryPatch
       (Some "other"%string) None None None None None None)) Sample.admin)
    (Prisma.Int 1) (Some body) Sample.seeded
  = CategoryById.PUT Sample.admin (Prisma.Int 1) (Some body) Sample.seeded.
Proof.
  cbv zeta.
  apply (proj1 (@category_update_blank_fields_skip_validation Sample.admin
                  (Prisma.Int 1)
                  (CategoryById.mkCategoryBody (CategoryById.PricesArray Sample.seven_tiers)
                     [("title"%string, Http.JStr "  ");
                      ("description"%string, Http.JNull)])
                  Sample.seeded
                  ltac:(intros entry [<-|[<-|[]]]; reflexivity))).
Defined.

(* ================================================================== *)
(** * Extracted storage keys are clean pieces of the URL *)
(* ================================================================== *)

Section KeyShapeFacts.
Import Regex VideoKey KeyShape.

(** Where a greedy [cs+] hands over to its continuation. *)
Lemma plus_greedy_handover cs k m s : forall i c1,
  plus_greedy cs i s c1 k = Some m ->
  exists taken left,
    s = (taken ++ left)%list /\ taken <> [] /\
    forallb (accepts cs) taken = true /\
    k (MState (i + List.length taken) left c1) = Some m.
Proof.
  induction s as [|c t IH]; intros i c1 H; [discriminate|].
  cbn [plus_greedy] in H. destruct (accepts cs c) eqn:A; [|discriminate].
  destruct (plus_greedy cs (S i) t c1 k) as [m'|] eqn:P.
  - injection H as ->. destruct (IH _ _ P) as [taken [left [E [_ [F K]]]]].
    exists (c :: taken), left. split; [now rewrite E|]. split; [discriminate|].
    split; [cbn [forallb]; now rewrite A|].
    cbn [List.length]. now replace (i + S (List.length taken))
                          with (S i + List.length taken) by lia.
  - exists [c], t. split; [reflexivity|]. split; [discriminate|].
    split; [cbn [forallb]; now rewrite A|].
    cbn [List.length]. now rewrite Nat.add_1_r.
Qed.

Lemma star_lazy_handover cs k m s : forall i c1,
  star_lazy cs i s c1 k = Some m ->
  exists taken left,
    s = (taken ++ left)%list /\
    k (MState (i + List.length taken) left c1) = Some m.
Proof.
  induction s as [|c t IH]; intros i c1 H; cbn [star_lazy] in H.
  - destruct (k (MState i [] c1)) as [m'|] eqn:K; [|discriminate].
    exists [], []. split; [reflexivity|]. cbn [List.length].
    now rewrite Nat.add_0_r, K.
  - destruct (k (MState i (c :: t) c1)) as [m'|] eqn:K.
    + exists [], (c :: t). split; [reflexivity|]. cbn [List.length].
      now rewrite Nat.add_0_r, K.
    + destruct (accepts cs c); [|discriminate].
      destruct (IH _ _ H) as [taken [left [E K']]].
      exists (c :: taken), left. split; [now rewrite E|].
      cbn [List.length]. now replace (i + S (List.length taken))
                            with (S i + List.length taken) by lia.
Qed.

Lemma placed_step input st taken left :
  placed input st -> rest st = (taken ++ left)%list ->
  forall c1, placed input (MState (pos st + List.length taken) left c1).
Proof.
  intros [before [E P]] R c1. exists (before ++ taken)%list. cbn [rest pos].
  split; [now rewrite E, R, app_assoc|]. rewrite length_app. lia.
Qed.

(** Running a pattern whose groups are all [(cs+)] keeps group 1 a
    run of [cs] inside the input. *)
Lemma run_captured cs input r : forall st k m,
  groups_are cs r ->
  placed input st -> captured cs input st ->
  (forall st' m', placed input st' -> captured cs input st' ->
                  k st' = Some m' -> captured cs input m') ->
  run r st k = Some m -> captured cs input m.
Proof.
  induction r as [|c|cs'| | |r1 IH1 r2 IH2|r1 IH1 r2 IH2|cs'|cs'|r1 IH1|r1 IH1];
    intros st k m G P C K H; cbn [run] in H.
  - exact (K _ _ P C H).
  - destruct (rest st) as [|c' t] eqn:R; [discriminate|].
    destruct (Ascii.eqb c c'); [|discriminate].
    refine (K _ _ _ _ H).
    + replace (S (pos st)) with (pos st + List.length [c']) by (cbn; lia).
      now apply placed_step.
    + exact C.
  - destruct (rest st) as [|c' t] eqn:R; [discriminate|].
    destruct (accepts cs' c'); [|discriminate].
    refine (K _ _ _ _ H).
    + replace (S (pos st)) with (pos st + List.length [c']) by (cbn; lia).
      now apply placed_step.
    + exact C.
  - destruct (pos st =? 0); [|discriminate]. exact (K _ _ P C H).
  - destruct (rest st); [|discriminate]. exact (K _ _ P C H).
  - destruct G as [G1 G2]. refine (IH1 _ _ _ G1 P C _ H).
    intros st' m' P' C' H'. exact (IH2 _ _ _ G2 P' C' K H').
  - destruct G as [G1 G2].
    destruct (run r1 st k) as [m1|] eqn:R1.
    + injection H as ->. exact (IH1 _ _ _ G1 P C K R1).
    + exact (IH2 _ _ _ G2 P C K H).
  - destruct (plus_greedy_handover _ _ _ _ _ H) as [taken [left [E [_ [_ Hk]]]]].
    refine (K _ _ _ _ Hk); [now apply placed_step|exact C].
  - destruct (star_lazy_handover _ _ _ _ _ H) as [taken [left [E Hk]]].
    refine (K _ _ _ _ Hk); [now apply placed_step|exact C].
  - destruct (run r1 st k) as [m1|] eqn:R1.
    + injection H as ->. exact (IH1 _ _ _ G P C K R1).
    + exact (K _ _ P C H).
  - cbn [groups_are] in G. subst r1. cbn [run] in H.
    destruct (plus_greedy_handover _ _ _ _ _ H) as [taken [left [E [N [F Hk]]]]].
    cbn [pos rest] in Hk.
    replace (pos st + List.length taken - pos st) with (List.length taken) in Hk by lia.
    rewrite E, firstn_app, firstn_all, Nat.sub_diag in Hk. cbn [firstn] in Hk.
    rewrite app_nil_r in Hk.
    refine (K _ _ _ _ Hk).
    + now apply placed_step.
    + intros l Hl. cbn [cap] in Hl. injection Hl as <-.
      split; [exact N|]. split; [exact F|].
      destruct P as [before [Ei _]]. exists before, left. now rewrite Ei, E.
Qed.

Lemma search_captured cs input r m s : forall i,
  groups_are cs r ->
  placed input (MState i s None) ->
  search_from r i s = Some m -> captured cs input m.
Proof.
  induction s as [|c t IH]; intros i G P H; cbn [search_from] in H.
  - destruct (match_at r i []) as [m'|] eqn:M; [|discriminate].
    injection H as ->. unfold match_at in M.
    eapply run_captured; [exact G|exact P| | |exact M].
    + intros l Hl. discriminate Hl.
    + intros st' m' _ C' E. now injection E as <-.
  - destruct (match_at r i (c :: t)) as [m'|] eqn:M.
    + injection H as ->. unfold match_at in M.
      eapply run_captured; [exact G|exact P| | |exact M].
      * intros l Hl. discriminate Hl.
      * intros st' m' _ C' E. now injection E as <-.
    + apply (IH (S i)); [exact G| |exact H].
      replace (S i) with (pos (MState i (c :: t) None) + List.length [c])
        by (cbn; lia).
      now apply (placed_step (st := MState i (c :: t) None)).
Qed.

Lemma in_singles c stops : In c (Str.chars stops) -> in_ranges (singles stops) c = true.
Proof.
  unfold in_ranges, singles. intros H. apply existsb_exists.
  exists (single c). split; [now apply in_map|].
  unfold single, Str.in_range. cbn [fst snd]. now rewrite Nat.leb_refl.
Qed.

(** What [match1] returns for a pattern whose groups are
    [([^stops]+)]. *)
Lemma match1_clean stops pattern url key :
  groups_are (NoneOf (singles stops)) pattern ->
  match1 pattern url = Some key -> clean_piece stops url key.
Proof.
  intros G H. unfold match1, exec in H.
  destruct (search_from pattern 0 (Str.chars url)) as [m|] eqn:S; [|discriminate].
  assert (C : captured (NoneOf (singles stops)) (Str.chars url) m).
  { eapply search_captured; [exact G| |exact S].
    exists []. split; reflexivity. }
  destruct (cap m) as [[|c t]|] eqn:Hc; try discriminate.
  remember (Str.of_chars (c :: t)) as key' eqn:Ek. injection H as <-.
  assert (Hk : Str.chars key' = c :: t)
    by (subst key'; apply list_ascii_of_string_of_list_ascii).
  destruct (C _ Hc) as [_ [F [before [after E]]]].
  unfold clean_piece. rewrite Hk.
  split; [intros ->; discriminate Hk|]. split; [now exists before, after|].
  intros x Hx Hstop. rewrite forallb_forall in F. specialize (F _ Hx).
  cbn [accepts] in F. now rewrite (in_singles _ _ Hstop) in F.
Qed.

Lemma videoKey_clean stops patterns url key :
  (forall p, In p patterns -> groups_are (NoneOf (singles stops)) p) ->
  videoKey patterns url = Some key -> clean_piece stops url key.
Proof.
  induction patterns as [|p ps IH]; intros G H; [discriminate|].
  cbn [videoKey] in H. destruct (match1 p url) as [k|] eqn:M.
  - injection H as ->.
    eapply match1_clean; [exact (G p (or_introl eq_refl))|exact M].
  - apply IH; [|exact H]. intros q Hq. apply G. now right.
Qed.

Lemma push_all_images_flat images : forall acc,
  Rooms.push_all_images images acc
  = (acc ++ flat_map Expected.key_of images)%list.
Proof.
  induction images as [|image rest IH]; intros acc; cbn [flat_map].
  - now rewrite app_nil_r.
  - unfold Rooms.push_all_images in *. cbn [fold_left]. rewrite IH.
    unfold Expected.key_of at 2, Gallery.or_undefined.
    destruct (Db.gi_publicId image) as [k|]; [|reflexivity].
    destruct (Str.truthy k); [now rewrite <- app_assoc|reflexivity].
Qed.

Lemma patterns_DELETE_groups p :
  In p patterns_DELETE -> groups_are (NoneOf (singles "/?#")) p.
Proof.
  intros Hp. cbn [patterns_DELETE In] in Hp.
  destruct Hp as [<-|[<-|[<-|[]]]]; cbn; tauto.
Qed.

End KeyShapeFacts.

(** X18. Every storage key the handlers extract from a video URL is a
    non-empty piece of that URL.  A key extracted by the rooms update
    or delete handler contains no [/], [?] or [#]; a key extracted by
    the category delete handler contains no [/] or [?]. *)
Theorem extracted_video_key_is_a_clean_piece_of_the_url (url key : string) :
  (VideoKey.videoKey VideoKey.patterns_PUT url = Some key ->
   KeyShape.clean_piece "/?#" url key) /\
  (VideoKey.videoKey VideoKey.patterns_DELETE url = Some key ->
   KeyShape.clean_piece "/?#" url key) /\
  (VideoKey.match1 VideoKey.pat_f_loose url = Some key ->
   KeyShape.clean_piece "/?" url key).
Proof.
  split; [|split].
  - apply videoKey_clean. intros p Hp. cbn [VideoKey.patterns_PUT In] in Hp.
    destruct Hp as [<-|[<-|[<-|[<-|[]]]]]; cbn; tauto.
  - apply videoKey_clean. intros p Hp. cbn [VideoKey.patterns_DELETE In] in Hp.
    destruct Hp as [<-|[<-|[<-|[]]]]; cbn; tauto.
  - apply match1_clean. cbn. tauto.
Qed.

(** X24. Both delete handlers schedule for deletion the key of every
    image of the room that has a non-empty key, in row order, followed
    by at most one more key, which is a non-empty piece of the stored
    video URL: without [/], [?] and [#] in the rooms handler, without
    [/] and [?] in the categories handler. *)
Theorem delete_schedules_image_keys_then_a_video_key
  (c : Db.HotelCategory) (images : list Db.GalleryImage) :
  (exists video,
     Rooms.fileKeysToDelete_DELETE c images
     = (flat_map Expected.key_of images ++ video)%list /\
     (video = [] \/
      exists url key, Db.hc_videoUrl c = Some url /\ video = [key] /\
                      KeyShape.clean_piece "/?#" url key)) /\
  (exists video,
     CategoryById.fileKeysToDelete c images
     = (flat_map Expected.key_of images ++ video)%list /\
     (video = [] \/
      exists url key, Db.hc_videoUrl c = Some url /\ video = [key] /\
                      KeyShape.clean_piece "/?" url key)).
Proof.
  split.
  - unfold Rooms.fileKeysToDelete_DELETE, Rooms.push_video.
    rewrite push_all_images_flat. cbn [app].
    destruct (Db.hc_videoUrl c) as [url|];
      [|exists []; split; [now rewrite app_nil_r|now left]].
    destruct (Str.truthy url && negb (Str.is_blank url));
      [|exists []; split; [now rewrite app_nil_r|now left]].
    destruct (VideoKey.videoKey VideoKey.patterns_DELETE url) as [key|] eqn:K;
      [|exists []; split; [now rewrite app_nil_r|now left]].
    exists [key]. split; [reflexivity|]. right. exists url, key.
    split; [reflexivity|]. split; [reflexivity|].
    eapply videoKey_clean; [exact patterns_DELETE_groups|exact K].
  - unfold CategoryById.fileKeysToDelete. cbv zeta.
    rewrite push_all_images_flat. cbn [app].
    destruct (Db.hc_videoUrl c) as [url|];
      [|exists []; split; [now rewrite app_nil_r|now left]].
    destruct (Str.truthy url);
      [|exists []; split; [now rewrite app_nil_r|now left]].
    destruct (VideoKey.match1 VideoKey.pat_f_loose url) as [key|] eqn:K;
      [|exists []; split; [now rewrite app_nil_r|now left]].
    exists [key]. split; [reflexivity|]. right. exists url, key.
    split; [reflexivity|]. split; [reflexivity|].
    eapply match1_clean; [|exact K]. cbn. tauto.
Qed.

(* ================================================================== *)
(** * [apiClient] and [apiWithState] *)
(* ================================================================== *)

Section ApiFacts.
Import Eff ApiClient.
Local Open Scope Z_scope.

(** The wrapper always comes to an end. *)
Lemma fetchWithTimeout_total network options :
  exists events result, fetchWithTimeout network options = Some (events, result).
Proof.
  unfold fetchWithTimeout.
  set (r := Prisma.or_else (retries options) default_retries).
  set (d := Prisma.or_else (retryDelay options) default_retryDelay).
  destruct (@attempts_total network d r (Z.to_nat (Qround.Qfloor r + 1)) 0 None)
    as [events [result Hrun]]; [lia|].
  rewrite Hrun. now eexists; eexists.
Qed.

(** What [apiClient] can use of a response: a body that is not
    announced as JSON and whose text can be read, or one announced as
    JSON that parses to something other than [null]. *)
Lemma respond_success status payload response :
  respond status payload = inl response ->
  success response = true /\ data response <> None /\ error response = None /\
  ok status = true /\
  ((Gallery.is_json (pl_contentType payload) = false /\
    exists text, pl_text payload = inr text /\
                 data response = Some (TextData text)) \/
   (Gallery.is_json (pl_contentType payload) = true /\
    exists v, pl_json payload = inr v /\ v <> VNull)).
Proof.
  unfold respond.
  destruct (Gallery.is_json (pl_contentType payload)); cbn [negb].
  - destruct (pl_json payload) as [e|v]; [discriminate|].
    destruct (ok status); cbn [negb];
      destruct v; try discriminate; intros E; injection E as <-;
      cbn [success data error]; repeat split; try discriminate;
      right; (split; [reflexivity|]); eexists; (split; [reflexivity|discriminate]).
  - destruct (ok status); cbn [negb]; [|discriminate].
    destruct (pl_text payload) as [e|text]; [discriminate|].
    intros E; injection E as <-. cbn [success data error].
    repeat split; try discriminate. left. split; [reflexivity|]. now exists text.
Qed.

Lemma respond_usable status payload :
  ok status = true ->
  (Gallery.is_json (pl_contentType payload) = false /\
   exists text, pl_text payload = inr text) \/
  (Gallery.is_json (pl_contentType payload) = true /\
   exists v, pl_json payload = inr v /\ v <> VNull) ->
  exists response, respond status payload = inl response.
Proof.
  intros Hok H. unfold respond. rewrite Hok. cbn [negb].
  destruct H as [[-> [text ->]]|[-> [v [-> Hv]]]]; cbn [negb].
  - now eexists.
  - destruct v; [now destruct Hv|..]; now eexists.
Qed.

Lemma caught_failure c :
  success (caught c) = false /\ data (caught c) = None /\ error (caught c) <> None.
Proof.
  destruct c as [message|e]; cbn [caught].
  - repeat split. discriminate.
  - destruct (is_abort e); repeat split; discriminate.
Qed.

(** How [apiClient] ends: with a success that carries data, or with a
    failure that carries an error. *)
Lemma api_client_outcome network options payload :
  exists events response,
    apiClient network options payload = Some (events, response) /\
    (success response = true -> data response <> None /\ error response = None) /\
    (success response = false -> data response = None /\ error response <> None).
Proof.
  destruct (fetchWithTimeout_total network options) as [events [result Hf]].
  unfold apiClient. rewrite Hf.
  destruct result as [status|e].
  - destruct (respond status payload) as [response|c] eqn:R.
    + destruct (respond_success _ _ R) as [Hs [Hd [He _]]].
      exists events, response. split; [reflexivity|].
      split; [now split|congruence].
    + destruct (caught_failure c) as [Hs [Hd He]].
      exists events, (caught c). split; [reflexivity|].
      split; [congruence|now split].
  - destruct (caught_failure (Another e)) as [Hs [Hd He]].
    exists events, (caught (Another e)). split; [reflexivity|].
    split; [congruence|now split].
Qed.

End ApiFacts.

(** X19. [apiClient] always comes back with an answer, and the answer
    says [success] exactly when the request ended with a response of
    status 200 to 299 whose body is usable: either it is not announced
    as JSON and its text can be read, and then the data of the answer
    is that text, or it is announced as JSON and parses to something
    other than [null].  A success carries data and no error; every
    other outcome (a thrown error, a timeout, a status outside 200-299,
    a text that cannot be read, a JSON body that does not parse or is
    [null]) carries an error message and no data. *)
Theorem api_client_success_means_usable_2xx
  (network : Z -> ApiClient.FetchOutcome) (options : ApiClient.FetchOptions)
  (payload : ApiClient.Payload) :
  exists events response,
    ApiClient.apiClient network options payload = Some (events, response) /\
    (ApiClient.success response = true <->
     exists status,
       ApiClient.fetchWithTimeout network options
       = Some (events, ApiClient.Returned status) /\
       ApiClient.ok status = true /\
       ((Gallery.is_json (ApiClient.pl_contentType payload) = false /\
         exists text, ApiClient.pl_text payload = inr text /\
                      ApiClient.data response = Some (ApiClient.TextData text)) \/
        (Gallery.is_json (ApiClient.pl_contentType payload) = true /\
         exists v, ApiClient.pl_json payload = inr v /\ v <> ApiClient.VNull))) /\
    (ApiClient.success response = true ->
     ApiClient.data response <> None /\ ApiClient.error response = None) /\
    (ApiClient.success response = false ->
     ApiClient.data response = None /\ ApiClient.error response <> None).
Proof.
  destruct (fetchWithTimeout_total network options) as [events [result Hf]].
  unfold ApiClient.apiClient. rewrite Hf.
  destruct result as [status|e].
  - destruct (ApiClient.respond status payload) as [response|c] eqn:R.
    + destruct (respond_success _ _ R) as [Hs [Hd [He [Hok Hu]]]].
      exists events, response. split; [reflexivity|]. split; [|split].
      * split; [intros _; exists status; now repeat split|intros _; exact Hs].
      * intros _. now split.
      * intros H. congruence.
    + destruct (caught_failure c) as [Hs [Hd He]].
      exists events, (ApiClient.caught c). split; [reflexivity|]. split; [|split].
      * split; [intros H; congruence|].
        intros [status' [E [Hok Hu]]]. injection E as <-.
        assert (Hu' :
          (Gallery.is_json (ApiClient.pl_contentType payload) = false /\
           exists text, ApiClient.pl_text payload = inr text) \/
          (Gallery.is_json (ApiClient.pl_contentType payload) = true /\
           exists v, ApiClient.pl_json payload = inr v /\ v <> ApiClient.VNull)).
        { destruct Hu as [[J [text [T _]]]|Hu]; [left|now right].
          split; [exact J|now exists text]. }
        destruct (respond_usable status payload Hok Hu') as [r' R']. congruence.
      * intros H. congruence.
      * intros _. now split.
  - destruct (caught_failure (ApiClient.Another e)) as [Hs [Hd He]].
    exists events, (ApiClient.caught (ApiClient.Another e)).
    split; [reflexivity|]. split; [|split].
    + split; [intros H; congruence|]. intros [status [E _]]. discriminate.
    + intros H. congruence.
    + intros _. now split.
Qed.

(** X20. A request whose first attempt is aborted by the timer is made
    once, whatever retry count was asked for, and [apiClient] reports
    it as the failure "Request timeout. Please try again.". *)
Theorem api_client_reports_a_timeout_after_one_attempt
  (network : Z -> ApiClient.FetchOutcome) (options : ApiClient.FetchOptions)
  (payload : ApiClient.Payload) (e : Eff.Error) :
  QArith_base.Qle (QArith_base.inject_Z 0)
    (Prisma.or_else (ApiClient.retries options) ApiClient.default_retries) ->
  network 0%Z = ApiClient.Rejected (ApiClient.AnError e) ->
  Eff.err_name e = "AbortError"%string ->
  ApiClient.apiClient network options payload
  = Some ([ApiClient.TimerStart
             (Prisma.or_else (ApiClient.timeout options) ApiClient.default_timeout);
           ApiClient.FetchCall 0; ApiClient.TimerClear],
          ApiClient.failure "Request timeout. Please try again.").
Proof.
  intros Hr Hn Ha.
  unfold ApiClient.apiClient, ApiClient.fetchWithTimeout.
  set (r := Prisma.or_else (ApiClient.retries options) ApiClient.default_retries) in *.
  assert (T : ApiClient.at_most 0 r = true)
    by (now apply QArith_base.Qle_bool_iff).
  pose proof (at_most_floor _ _ T) as Hfloor.
  destruct (Z.to_nat (Qround.Qfloor r + 1)) as [|fuel] eqn:F; [lia|].
  cbn [ApiClient.attempts]. rewrite T.
  assert (A : ApiClient.is_abort e = true)
    by (unfold ApiClient.is_abort; now rewrite Ha).
  rewrite Hn. cbn [ApiClient.as_error]. rewrite A. cbn [orb].
  unfold ApiClient.caught. now rewrite A.
Qed.

(** A network that times out at once, asked for three retries. *)
Lemma api_client_timeout_example :
  ApiClient.apiClient
    (fun _ => ApiClient.Rejected
                (ApiClient.AnError (Eff.mkError "AbortError" "The operation was aborted.")))
    Sample.three_retries
    (ApiClient.mkPayload None ""%string (inr ""%string) (inr ApiClient.VNull))
  = Some ([ApiClient.TimerStart 10000; ApiClient.FetchCall 0; ApiClient.TimerClear],
          ApiClient.failure "Request timeout. Please try again.").
Proof.
  apply (@api_client_reports_a_timeout_after_one_attempt
           (fun _ => ApiClient.Rejected
                       (ApiClient.AnError
                          (Eff.mkError "AbortError" "The operation was aborted.")))
           Sample.three_retries
           (ApiClient.mkPayload None ""%string (inr ""%string) (inr ApiClient.VNull))
           (Eff.mkError "AbortError" "The operation was aborted."));
    [now vm_compute|reflexivity|reflexivity].
Defined.

(** X21. [apiWithState] always resolves, after calling [onStart] first
    and [onComplete] last.  Its [error] is [null] exactly when
    [apiClient] reported a success, and then [data] is what [apiClient]
    returned; otherwise [data] is [null] and [error] is a message that
    is never the empty string. *)
Theorem api_with_state_error_iff_failure
  (network : Z -> ApiClient.FetchOutcome) (options : ApiClient.FetchOptions)
  (payload : ApiClient.Payload) :
  exists events response calls state,
    ApiClient.apiClient network options payload = Some (events, response) /\
    ApiClient.apiWithState network options payload
    = Some ((ApiClient.OnStart :: calls ++ [ApiClient.OnComplete])%list, state) /\
    calls = map ApiClient.Client events /\
    (ApiClient.st_error state = None <-> ApiClient.success response = true) /\
    (ApiClient.success response = true ->
     ApiClient.st_data state = ApiClient.data response) /\
    (ApiClient.success response = false ->
     ApiClient.st_data state = None /\
     exists text, ApiClient.st_error state = Some text /\ text <> ""%string).
Proof.
  destruct (api_client_outcome network options payload)
    as [events [response [Hc [Hs Hf]]]].
  unfold ApiClient.apiWithState. rewrite Hc.
  exists events, response. do 2 eexists.
  split; [reflexivity|]. split; [reflexivity|]. split; [reflexivity|].
  destruct (ApiClient.success response) eqn:S.
  - destruct (Hs eq_refl) as [Hd He].
    destruct (ApiClient.data response) as [d|]; [|now destruct Hd].
    cbn [ApiClient.st_error ApiClient.st_data].
    split; [tauto|]. split; [reflexivity|discriminate].
  - cbn [ApiClient.st_error ApiClient.st_data].
    split; [split; discriminate|]. split; [discriminate|]. intros _.
    split; [reflexivity|]. eexists. split; [reflexivity|].
    unfold ApiClient.error_or_unknown.
    destruct (ApiClient.error response) as [[|c t]|]; cbn [Str.truthy]; discriminate.
Qed.

(* ================================================================== *)
(** * The dashboard against the handlers *)
(* ================================================================== *)

Section DashboardFacts.
Import Db Eff Prisma Http Expected.
Local Open Scope string_scope.

Lemma blank_not_truthy_and url :
  Str.truthy url && negb (Str.is_blank url) = negb (Str.is_blank url).
Proof. now destruct url. Qed.

(** The video the dashboard loaded is the stored one, so an update that
    sends it back schedules no video key. *)
Lemma loaded_video_is_kept category :
  old_video_key (hc_videoUrl (cv_row category))
    (match Dashboard.videos category with
     | video :: _ => Some (Rooms.m_url video)
     | [] => None
     end) = [].
Proof.
  unfold Dashboard.videos, old_video_key.
  destruct (hc_videoUrl (cv_row category)) as [url|]; [|reflexivity].
  rewrite blank_not_truthy_and.
  destruct (Str.is_blank url) eqn:B; cbn [negb Rooms.m_url].
  - now rewrite (videoKey_blank _ B).
  - rewrite String.eqb_refl.
    now destruct (VideoKey.videoKey VideoKey.patterns_PUT url).
Qed.

Lemma loaded_image_key category img k :
  In img (cv_images category) ->
  Str.is_blank (gi_url img) = false ->
  gi_publicId img = Some k ->
  In k (Rooms.newImageKeys (Dashboard.images category)).
Proof.
  intros Hin Hb Hk. unfold Rooms.newImageKeys, Dashboard.images.
  rewrite map_map. cbn [Rooms.m_publicId]. apply in_map_iff.
  exists img. split; [now rewrite Hk|].
  apply filter_In. split; [exact Hin|]. now rewrite blank_not_truthy_and, Hb.
Qed.

(** The first video of a body whose videos are all objects. *)
Lemma video_is_first data videos :
  Rooms.rb_videos data = Some (map Some videos) ->
  video_is data (match videos with
                 | video :: _ => Some (Rooms.m_url video)
                 | [] => None
                 end).
Proof.
  intros E. destruct videos as [|video more]; cbn [video_is].
  - now right.
  - now exists video, (map Some more).
Qed.

End DashboardFacts.

(** X22. Saving a room back as the dashboard loaded it deletes nothing
    that is still in use: when the update body carries the images and
    the videos of the room object [loadRooms] built from the listing,
    no video key is scheduled for deletion, and every image key that is
    scheduled belongs to a stored image whose URL is blank (the images
    [loadRooms] leaves out).  The handler's only storage call, if it
    makes one, carries such keys and nothing else.  When no stored
    image has a blank URL, the update makes no storage call at all. *)
Theorem resaving_a_loaded_room_deletes_no_file
  (env : Http.Env) (w : Eff.World) (id : Z) (c : Db.HotelCategory)
  (data : Rooms.RoomBody) (title : string) :
  Db.find_category id (Eff.db w) = Some c ->
  Rooms.body_id data = Some id ->
  Rooms.rb_title data = Some title ->
  let stored := Db.images_of id (Eff.db w) in
  let category :=
    Http.mkView c stored (Db.order_by_hours (Db.prices_of id (Eff.db w))) in
  Rooms.rb_images data = Some (map Some (Dashboard.images category)) ->
  Rooms.rb_videos data = Some (map Some (Dashboard.videos category)) ->
  (forall k,
     In k (Rooms.fileKeysToDelete_PUT c stored (Dashboard.images category)
             (match Dashboard.videos category with
              | video :: _ => Some (Rooms.m_url video)
              | [] => None
              end)) ->
     exists img, In img stored /\ Db.gi_publicId img = Some k /\
                 Str.is_blank (Db.gi_url img) = true) /\
  (exists keys events,
     Eff.log (snd (Rooms.PUT env (Some data) w))
     = (Eff.log w ++ Http.storage_call keys ++ events)%list /\
     filter Expected.is_storage events = [] /\
     forall k, In k keys ->
       exists img, In img stored /\ Db.gi_publicId img = Some k /\
                   Str.is_blank (Db.gi_url img) = true) /\
  ((forall img, In img stored -> Str.is_blank (Db.gi_url img) = false) ->
   filter Expected.is_storage (Eff.log (snd (Rooms.PUT env (Some data) w)))
   = filter Expected.is_storage (Eff.log w)).
Proof.
  intros Hc Hid Ht stored category Hi Hv.
  set (videoUrl := match Dashboard.videos category with
                   | video :: _ => Some (Rooms.m_url video)
                   | [] => None
                   end).
  set (keys := Rooms.fileKeysToDelete_PUT c stored (Dashboard.images category)
                 videoUrl).
  assert (Hkeys : forall k, In k keys ->
            exists img, In img stored /\ Db.gi_publicId img = Some k /\
                        Str.is_blank (Db.gi_url img) = true).
  { intros k. subst keys videoUrl. unfold Rooms.fileKeysToDelete_PUT.
    rewrite push_old_video_spec, push_stale_images_flat.
    change c with (Http.cv_row category) at 1.
    rewrite loaded_video_is_kept, app_nil_r. cbn [app].
    intros Hin. apply in_flat_map in Hin. destruct Hin as [img [Himg Hk]].
    apply stale_key_In in Hk. destruct Hk as [Hk [_ Hnot]].
    exists img. split; [exact Himg|]. split; [exact Hk|].
    destruct (Str.is_blank (Db.gi_url img)) eqn:B; [reflexivity|].
    exfalso. apply Hnot.
    now apply (@loaded_image_key category img k). }
  assert (Hrun := @rooms_PUT_existing env w data id title c
                    (Dashboard.images category) videoUrl Hid Ht Hc
                    (or_introl Hi) (video_is_first data _ Hv)).
  cbv zeta in Hrun. fold stored keys in Hrun.
  split; [exact Hkeys|]. split.
  - exists keys. rewrite Hrun.
    destruct (Db.slug_taken (Slug.slug title) (Some id) (Eff.db w));
      cbn [snd Eff.log]; eexists; (split; [reflexivity|]); (split; [reflexivity|]);
      exact Hkeys.
  - intros Hnone.
    assert (E : keys = []).
    { destruct keys as [|k ks] eqn:K; [reflexivity|].
      destruct (Hkeys k (or_introl eq_refl)) as [img [Himg [_ B]]].
      rewrite (Hnone img Himg) in B. discriminate. }
    rewrite Hrun, E.
    destruct (Db.slug_taken (Slug.slug title) (Some id) (Eff.db w));
      cbn [snd Eff.log Http.storage_call app];
      rewrite filter_app; cbn [filter Expected.is_storage]; now rewrite app_nil_r.
Qed.

(** The room of the seeded store, sent back as loaded. *)
Lemma resaving_a_loaded_room_example :
  let category :=
    Http.mkView Sample.deluxe_row [Sample.deluxe_image]
      (Db.order_by_hours (Db.prices_of 1 (Eff.db Sample.seeded))) in
  let data :=
    Rooms.mkRoomBody (Some 1%Z) (Some "Deluxe Room"%string) None [] None (Some 5%Z)
      (Some (map Some (Dashboard.images category)))
      (Some (map Some (Dashboard.videos category))) in
  filter Expected.is_storage (Eff.log (snd (Rooms.PUT Sample.admin (Some data) Sample.seeded)))
  = [].
Proof.
  cbv zeta.
  apply (proj2 (proj2 (@resaving_a_loaded_room_deletes_no_file Sample.admin
                  Sample.seeded 1
                  Sample.deluxe_row
                  (Rooms.mkRoomBody (Some 1%Z) (Some "Deluxe Room"%string) None []
                     None (Some 5%Z)
                     (Some (map Some (Dashboard.images
                              (Http.mkView Sample.deluxe_row [Sample.deluxe_image]
                                 (Db.order_by_hours
                                    (Db.prices_of 1 (Eff.db Sample.seeded)))))))
                     (Some (map Some (Dashboard.videos
                              (Http.mkView Sample.deluxe_row [Sample.deluxe_image]
                                 (Db.order_by_hours
                                    (Db.prices_of 1 (Eff.db Sample.seeded))))))))
                  "Deluxe Room" eq_refl eq_refl eq_refl eq_refl eq_refl))).
  intros img [<-|[]]. reflexivity.
Defined.

